(** * ethpandaops/mcp: a shallow embedding of the proxy, rate limiter,
      JWKS validator and execute_python tool, with the properties the
      specification states about them.

    Conventions used throughout.
    - Go [string] is a byte string: Rocq [string].
    - Go [int], [int64] and [time.Duration] (nanoseconds) are [Z]; the only
      place where the code computes on an [int] that can overflow
      (the RSA exponent of a JWK) writes the 64-bit wrap-around out.
    - Go [float64] is modelled by [Q]: every finite float is a rational, the
      comparisons and the truncating conversion [int(x)] are exact on them.
    - Go maps are stdpp [gmap]s, pointers that may be nil are [option]s,
      [(value, error)] results are sums or options.
    - Calls into libraries whose code is not part of the repository
      (net, net/url, golang-jwt, x/time/rate, fmt's float verbs) are either
      parameters of a type class or small documented models. *)

From Stdlib Require Import ZArith QArith Qround Lqa String Ascii List Lia Bool.
From stdpp Require Import base gmap strings list pretty.

#[local] Set Warnings "-register-all".

Local Open Scope string_scope.
Local Open Scope Z_scope.

(** ** Go's [strings] package, the part the repository uses *)

Module GoStrings.

(** strings.HasPrefix *)
Definition HasPrefix (s p : string) : bool := String.prefix p s.

Fixpoint drop_bytes (n : nat) (s : string) : string :=
  match n, s with
  | O, _ => s
  | S n', String _ s' => drop_bytes n' s'
  | S _, EmptyString => EmptyString
  end.

(** strings.TrimPrefix *)
Definition TrimPrefix (s p : string) : string :=
  if HasPrefix s p then drop_bytes (String.length p) s else s.

(** strings.Contains *)
Fixpoint Contains (s sub : string) : bool :=
  String.prefix sub s ||
  match s with
  | EmptyString => false
  | String _ s' => Contains s' sub
  end.

(** strings.Split with a one-byte separator: never returns the empty
    list. *)
Fixpoint Split (s : string) (sep : ascii) : list string :=
  match s with
  | EmptyString => [EmptyString]
  | String c s' =>
      if Ascii.eqb c sep then EmptyString :: Split s' sep
      else match Split s' sep with
           | [] => [String c EmptyString]
           | x :: xs => String c x :: xs
           end
  end.

(** strings.Join *)
Definition Join (parts : list string) (sep : string) : string :=
  String.concat sep parts.

(** The line feed that [fmt.Fprintln] and the format strings emit. *)
Definition LF : string := String (ascii_of_nat 10) EmptyString.

(** The builtin [append] with one element. *)
Definition append {A : Type} (s : list A) (x : A) : list A := (s ++ [x])%list.

(** [x] occurs in [s] as a contiguous run of bytes. *)
Definition occurs_in (x s : string) : Prop :=
  exists a b, s = a +:+ x +:+ b.

End GoStrings.

(** ** pkg/config *)

Module Config.

(** time.Second, in nanoseconds *)
Definition Second : Z := 1000000000.

(** [int(x)] for a finite float64 [x]: truncation toward zero. *)
Definition int_of_float (x : Q) : Z := Z.quot (Qnum x) (Zpos (Qden x)).

(** [x > 0] on floats. *)
Definition Qpositive (x : Q) : bool := negb (Qle_bool x 0).

Record RateLimitRule := {
  RequestsPerSecond : Q;
  RequestsPerMinute : Z;
  BurstSize : Z;
  BlockDuration : Z
}.

Definition GetRequestsPerSecond (r : RateLimitRule) : Q :=
  if Qpositive (RequestsPerSecond r) then RequestsPerSecond r
  else if 0 <? RequestsPerMinute r
       then (inject_Z (RequestsPerMinute r) / 60)%Q
       else 1%Q.

Definition GetBurstSize (r : RateLimitRule) : Z :=
  if 0 <? BurstSize r then BurstSize r
  else
    let burst := int_of_float (GetRequestsPerSecond r) in
    if burst <? 1 then 1 else burst.

Definition GetBlockDuration (r : RateLimitRule) : Z :=
  if 0 <? BlockDuration r then BlockDuration r else 60 * Second.

Record RateLimitConfig := {
  rl_Enabled : bool;
  rl_Backend : string;
  rl_Default : RateLimitRule;
  rl_PerTool : gmap string RateLimitRule;
  rl_TrustedProxies : list string
}.

Record SandboxConfig := {
  sb_Backend : string;
  sb_Image : string;
  sb_Timeout : Z;
  sb_MemoryLimit : string;
  sb_Network : string
}.

Record StorageConfig := {
  Endpoint : string;
  AccessKey : string;
  SecretKey : string;
  Bucket : string;
  Region : string;
  PublicURLPrefix : string
}.

(** pkg/grafana.Config, the fields read by the tool package. *)
Record GrafanaConfig := {
  gf_URL : string;
  gf_ServiceToken : string;
  gf_Timeout : Z
}.

(** The fields of [Config] read by the code modelled here.  [Storage] is a
    pointer in the source: [None] is nil. *)
Record Config := {
  Sandbox : SandboxConfig;
  Storage : option StorageConfig;
  Grafana : GrafanaConfig;
  RateLimit : RateLimitConfig
}.

Definition MaxSandboxTimeout : Z := 600.

(** [Config.Validate]: [None] is the nil error. *)
Definition Validate (c : Config) : option string :=
  if String.eqb (sb_Image (Sandbox c)) "" then Some "sandbox.image is required"
  else if MaxSandboxTimeout <? sb_Timeout (Sandbox c)
       then Some ("sandbox.timeout cannot exceed " +:+ pretty MaxSandboxTimeout +:+ " seconds")
       else None.

(** The sandbox part of [applyDefaults]. *)
Definition applyDefaults_sandbox (s : SandboxConfig) : SandboxConfig :=
  {| sb_Backend := if String.eqb (sb_Backend s) "" then "docker" else sb_Backend s;
     sb_Image := sb_Image s;
     sb_Timeout := if sb_Timeout s =? 0 then 60 else sb_Timeout s;
     sb_MemoryLimit := if String.eqb (sb_MemoryLimit s) "" then "2g" else sb_MemoryLimit s;
     sb_Network := sb_Network s |}.

(** A rule with a fractional rate and no configured burst. *)
Definition fractional_rule : RateLimitRule :=
  {| RequestsPerSecond := 5 # 2; RequestsPerMinute := 0;
     BurstSize := 0; BlockDuration := 0 |}.

End Config.

(** ** pkg/middleware: the rate limiter *)

Module Middleware.
Import Config GoStrings.

(** What the middleware calls from package [net], and [strings.TrimSpace]
    (which knows Unicode white space): library code, kept abstract.
    [None] stands for a non-nil error or a nil [net.IP]. *)
Class NetLib := {
  IP : Type;
  IPNet : Type;
  SplitHostPort : string -> option (string * string);
  ParseIP : string -> option IP;
  ParseCIDR : string -> option (IP * IPNet);
  IPNet_Contains : IPNet -> IP -> bool;
  TrimSpace : string -> string
}.

(** [http.Header.Get]: the first value stored under the key, or the empty
    string.  Header names are identified with their canonical form. *)
Definition Header_Get (h : gmap string (list string)) (key : string) : string :=
  match h !! key with
  | Some (v :: _) => v
  | _ => ""
  end.

Record Request := {
  RemoteAddr : string;
  Header : gmap string (list string);
  URLPath : string;
  Method : string
}.

Section RateLimiter.
Context {net : NetLib}.
Variable cfg : RateLimitConfig.

(** [getRule] *)
Definition getRule (toolName : string) : RateLimitRule :=
  if negb (String.eqb toolName "") then
    match rl_PerTool cfg !! toolName with
    | Some rule => rule
    | None => rl_Default cfg
    end
  else rl_Default cfg.

(** The [for _, trusted := range rl.cfg.TrustedProxies] loop of
    [isTrustedProxy]. *)
Fixpoint trustedLoop (parsedIP : IP) (ip : string) (proxies : list string) : bool :=
  match proxies with
  | [] => false
  | trusted :: rest =>
      if Contains trusted "/" then
        match ParseCIDR trusted with
        | None => trustedLoop parsedIP ip rest
        | Some (_, ipNet) =>
            if IPNet_Contains ipNet parsedIP then true
            else trustedLoop parsedIP ip rest
        end
      else if String.eqb trusted ip then true
      else trustedLoop parsedIP ip rest
  end.

Definition isTrustedProxy (ip : string) : bool :=
  match ParseIP ip with
  | None => false
  | Some parsedIP => trustedLoop parsedIP ip (rl_TrustedProxies cfg)
  end.

(** The first four lines of [getClientIP]: the peer address without its
    port, or the whole [RemoteAddr] when it does not split. *)
Definition remoteIP (r : Request) : string :=
  match SplitHostPort (RemoteAddr r) with
  | Some (host, _) => host
  | None => RemoteAddr r
  end.

(** The first entry of a forwarded-for header, white space removed. *)
Definition firstForwarded (r : Request) : string :=
  TrimSpace (hd "" (Split (Header_Get (Header r) "X-Forwarded-For") ",")).

(** The [X-Forwarded-For] block: [Some clientIP] when it returns. *)
Definition fromForwardedFor (r : Request) : option string :=
  let xff := Header_Get (Header r) "X-Forwarded-For" in
  if negb (String.eqb xff "") then
    match Split xff "," with
    | ip0 :: _ =>
        let clientIP := TrimSpace ip0 in
        if negb (String.eqb clientIP "") then Some clientIP else None
    | [] => None
    end
  else None.

Definition getClientIP (r : Request) : string :=
  let remote := remoteIP r in
  if isTrustedProxy remote then
    match fromForwardedFor r with
    | Some clientIP => clientIP
    | None =>
        let xri := Header_Get (Header r) "X-Real-IP" in
        if negb (String.eqb xri "") then TrimSpace xri else remote
    end
  else remote.

(** [buildKey] *)
Definition buildKey (clientIP toolName : string) : string :=
  if negb (String.eqb toolName "") then clientIP +:+ ":" +:+ toolName
  else clientIP.

(** The key under which [Middleware toolName] consults the limiter. *)
Definition rateLimitKey (toolName : string) (r : Request) : string :=
  buildKey (getClientIP r) toolName.

End RateLimiter.

(** *** golang.org/x/time/rate, as [inMemoryLimiter] uses it

    A token bucket refilled lazily.  Times are nanoseconds, token counts are
    floats.  The model covers finite limits; [reserveN]'s special case for an
    infinite limit has no counterpart. *)

Record Limiter := {
  lim_limit : Q;
  lim_burst : Z;
  lim_tokens : Q;
  lim_last : Z
}.

(** [NewLimiter]: the bucket starts full. *)
Definition NewLimiter (r : Q) (b : Z) : Limiter :=
  {| lim_limit := r; lim_burst := b; lim_tokens := inject_Z b; lim_last := 0 |}.

Definition Qltb (x y : Q) : bool := negb (Qle_bool y x).

(** The time since the last event, as [advance] computes it. *)
Definition elapsed (lim : Limiter) (t : Z) : Z :=
  t - (if t <? lim_last lim then t else lim_last lim).

(** [Limit.tokensFromDuration]: the tokens that accrue in [d] nanoseconds;
    none under a limit of zero or less. *)
Definition tokensFromDuration (limit : Q) (d : Z) : Q :=
  if Qle_bool limit 0 then 0%Q
  else (inject_Z d / inject_Z Second * limit)%Q.

(** [advance]: the token count at time [t], without changing the limiter. *)
Definition advance (lim : Limiter) (t : Z) : Q :=
  let last := if t <? lim_last lim then t else lim_last lim in
  let elapsed := t - last in
  let delta := tokensFromDuration (lim_limit lim) elapsed in
  let tokens := (lim_tokens lim + delta)%Q in
  let burst := inject_Z (lim_burst lim) in
  if Qltb burst tokens then burst else tokens.

(** [Limiter.Tokens], read at time [t]. *)
Definition Tokens (lim : Limiter) (t : Z) : Q := advance lim t.

Definition InfDuration : Z := 9223372036854775807.

Definition durationFromTokens (limit tokens : Q) : Z :=
  if Qle_bool limit 0 then InfDuration
  else
    let duration := (tokens / limit * inject_Z Second)%Q in
    if Qltb (inject_Z InfDuration) duration then InfDuration
    else int_of_float duration.

(** [Limiter.Allow], called at time [t]: [reserveN t 1 0].  The limiter is
    updated only when the reservation succeeds. *)
Definition Limiter_Allow (lim : Limiter) (t : Z) : bool * Limiter :=
  let tokens := (advance lim t - 1)%Q in
  let waitDuration :=
    if Qltb tokens 0 then durationFromTokens (lim_limit lim) (- tokens)%Q else 0 in
  let ok := (1 <=? lim_burst lim) && (waitDuration <=? 0) in
  if ok then
    (true, {| lim_limit := lim_limit lim; lim_burst := lim_burst lim;
              lim_tokens := tokens; lim_last := t |})
  else (false, lim).

(** *** The in-memory limiter *)

Record RateLimitInfo := {
  Limit : Q;
  Remaining : Z;
  ResetAt : Z
}.

Record inMemoryEntry := {
  limiter : Limiter;
  lastUsed : Z;
  resetAt : Z;
  burstSize : Z;
  ratePerSec : Q
}.

(** The readings of [time.Now] during one call of [Allow], in program
    order: two in [getOrCreateEntry], one inside [Tokens], one inside the
    limiter's [Allow]. *)
Record Clock := {
  now_lastUsed : Z;
  now_reset : Z;
  now_tokens : Z;
  now_allow : Z
}.

(** [time.Time.Unix] *)
Definition Unix (t : Z) : Z := t / Second.

(** [getOrCreateEntry].  Entries are pointers shared with the map: the
    updated entry is both returned and stored back under its key.  The
    re-check under the write lock only matters when two goroutines race
    and has no sequential counterpart. *)
Definition getOrCreateEntry (limiters : gmap string inMemoryEntry)
    (key : string) (rule : RateLimitRule) (clk : Clock)
    : inMemoryEntry * gmap string inMemoryEntry :=
  match limiters !! key with
  | Some entry =>
      let entry' :=
        {| limiter := limiter entry;
           lastUsed := now_lastUsed clk;
           resetAt := Unix (now_reset clk + GetBlockDuration rule);
           burstSize := burstSize entry;
           ratePerSec := ratePerSec entry |} in
      (entry', <[key := entry']> limiters)
  | None =>
      let rate := GetRequestsPerSecond rule in
      let burst := GetBurstSize rule in
      let entry :=
        {| limiter := NewLimiter rate burst;
           lastUsed := now_lastUsed clk;
           resetAt := Unix (now_reset clk + GetBlockDuration rule);
           burstSize := burst;
           ratePerSec := rate |} in
      (entry, <[key := entry]> limiters)
  end.

(** [inMemoryLimiter.Allow] *)
Definition Allow (limiters : gmap string inMemoryEntry)
    (key : string) (rule : RateLimitRule) (clk : Clock)
    : bool * RateLimitInfo * gmap string inMemoryEntry :=
  let '(entry, limiters1) := getOrCreateEntry limiters key rule clk in
  let remaining := int_of_float (Tokens (limiter entry) (now_tokens clk)) in
  let remaining := if remaining <? 0 then 0 else remaining in
  let info := {| Limit := ratePerSec entry; Remaining := remaining;
                 ResetAt := resetAt entry |} in
  let '(ok, lim') := Limiter_Allow (limiter entry) (now_allow clk) in
  let entry' :=
    {| limiter := lim'; lastUsed := lastUsed entry; resetAt := resetAt entry;
       burstSize := burstSize entry; ratePerSec := ratePerSec entry |} in
  let limiters2 := <[key := entry']> limiters1 in
  if negb ok then (false, info, limiters2) else (true, info, limiters2).

End Middleware.

(** ** An IPv4 instance of the [net] functions

    Dotted-quad addresses, [a.b.c.d/len] prefixes and [host:port] peers:
    enough to run the scenarios of the specification on the model. *)

Module IPv4.
Import GoStrings.

Definition digit (c : ascii) : option Z :=
  let n := Z.of_nat (nat_of_ascii c) in
  if (48 <=? n) && (n <=? 57) then Some (n - 48) else None.

Fixpoint parse_dec (s : string) (acc : Z) : option Z :=
  match s with
  | EmptyString => Some acc
  | String c s' =>
      match digit c with
      | Some d => parse_dec s' (10 * acc + d)
      | None => None
      end
  end.

(** One to three digits, no leading zero, at most [bound]. *)
Definition parse_field (bound : Z) (s : string) : option Z :=
  match s with
  | EmptyString => None
  | String c rest =>
      if (3 <? Z.of_nat (String.length s)) then None
      else if Ascii.eqb c "0" && negb (String.eqb rest "") then None
      else match parse_dec s 0 with
           | Some n => if n <=? bound then Some n else None
           | None => None
           end
  end.

Definition parse_ip (s : string) : option Z :=
  match Split s "." with
  | [a; b; c; d] =>
      match parse_field 255 a, parse_field 255 b, parse_field 255 c, parse_field 255 d with
      | Some a, Some b, Some c, Some d =>
          Some (Z.lor (Z.shiftl a 24) (Z.lor (Z.shiftl b 16) (Z.lor (Z.shiftl c 8) d)))
      | _, _, _, _ => None
      end
  | _ => None
  end.

(** A network is its prefix length and its masked base address. *)
Definition parse_cidr (s : string) : option (Z * (Z * Z)) :=
  match Split s "/" with
  | [addr; len] =>
      match parse_ip addr, parse_field 32 len with
      | Some ip, Some n =>
          Some (ip, (n, Z.shiftl (Z.shiftr ip (32 - n)) (32 - n)))
      | _, _ => None
      end
  | _ => None
  end.

Definition net_contains (n : Z * Z) (ip : Z) : bool :=
  Z.shiftl (Z.shiftr ip (32 - fst n)) (32 - fst n) =? snd n.

(** [host:port] with exactly one colon. *)
Definition split_host_port (s : string) : option (string * string) :=
  match Split s ":" with
  | [host; port] => Some (host, port)
  | _ => None
  end.

Definition is_space (c : ascii) : bool :=
  let n := nat_of_ascii c in
  orb (Nat.eqb n 32) (andb (Nat.leb 9 n) (Nat.leb n 13)).

Fixpoint trim_left (s : string) : string :=
  match s with
  | String c s' => if is_space c then trim_left s' else s
  | EmptyString => EmptyString
  end.

Fixpoint trim_right (s : string) : string :=
  match s with
  | EmptyString => EmptyString
  | String c s' =>
      match trim_right s' with
      | EmptyString => if is_space c then EmptyString else String c EmptyString
      | t => String c t
      end
  end.

(** [strings.TrimSpace] on ASCII text. *)
Definition trim_space (s : string) : string := trim_right (trim_left s).

#[export] Instance ipv4_net : Middleware.NetLib := {|
  Middleware.IP := Z;
  Middleware.IPNet := Z * Z;
  Middleware.SplitHostPort := split_host_port;
  Middleware.ParseIP := parse_ip;
  Middleware.ParseCIDR := parse_cidr;
  Middleware.IPNet_Contains := net_contains;
  Middleware.TrimSpace := trim_space
|}.

End IPv4.

(** ** pkg/proxy: JWKS cache and JWT validation *)

Module JWT.
Import Config GoStrings.

(** *** encoding/base64.RawURLEncoding.DecodeString

    The URL-safe alphabet without padding; carriage returns and line feeds
    are skipped, a lone trailing character is an error.  Bytes are the
    integers 0..255. *)

Definition sextet (c : ascii) : option Z :=
  let n := Z.of_nat (nat_of_ascii c) in
  if (65 <=? n) && (n <=? 90) then Some (n - 65)
  else if (97 <=? n) && (n <=? 122) then Some (n - 71)
  else if (48 <=? n) && (n <=? 57) then Some (n + 4)
  else if n =? 45 then Some 62
  else if n =? 95 then Some 63
  else None.

Fixpoint sextets (s : string) : option (list Z) :=
  match s with
  | EmptyString => Some []
  | String c s' =>
      let n := Z.of_nat (nat_of_ascii c) in
      if (n =? 10) || (n =? 13) then sextets s'
      else match sextet c, sextets s' with
           | Some v, Some vs => Some (v :: vs)
           | _, _ => None
           end
  end.

Fixpoint quanta (l : list Z) : option (list Z) :=
  match l with
  | [] => Some []
  | [_] => None
  | [a; b] => Some [Z.lor (Z.shiftl a 2) (Z.shiftr b 4)]
  | [a; b; c] =>
      Some [Z.lor (Z.shiftl a 2) (Z.shiftr b 4);
            Z.lor (Z.shiftl (Z.land b 15) 4) (Z.shiftr c 2)]
  | a :: b :: c :: d :: rest =>
      match quanta rest with
      | Some bytes =>
          Some (Z.lor (Z.shiftl a 2) (Z.shiftr b 4)
                :: Z.lor (Z.shiftl (Z.land b 15) 4) (Z.shiftr c 2)
                :: Z.lor (Z.shiftl (Z.land c 3) 6) d
                :: bytes)
      | None => None
      end
  end.

Definition DecodeString (s : string) : option (list Z) :=
  match sextets s with
  | Some l => quanta l
  | None => None
  end.

(** *** Keys *)

Record PublicKey := { pk_N : Z; pk_E : Z }.

#[export] Instance PublicKey_eq_dec : EqDecision PublicKey.
Proof. solve_decision. Defined.

Record jwkKey := {
  Kty : string;
  Use : string;
  Kid : string;
  Alg : string;
  N : string;
  E : string
}.

(** [new(big.Int).SetBytes]: big-endian. *)
Definition SetBytes (bytes : list Z) : Z :=
  fold_left (fun acc b => acc * 256 + b) bytes 0.

(** A Go [int] after an operation that may overflow. *)
Definition wrap64 (z : Z) : Z := (z + 2 ^ 63) mod 2 ^ 64 - 2 ^ 63.

(** [parseRSAPublicKey]; [None] is a non-nil error. *)
Definition parseRSAPublicKey (key : jwkKey) : option PublicKey :=
  match DecodeString (N key) with
  | None => None
  | Some nBytes =>
      let n := SetBytes nBytes in
      match DecodeString (E key) with
      | None => None
      | Some eBytes =>
          let e := fold_left (fun e b => Z.lor (wrap64 (Z.shiftl e 8)) b) eBytes 0 in
          Some {| pk_N := n; pk_E := e |}
      end
  end.

Record JWTValidatorConfig := {
  JWKSURL : string;
  Issuer : string;
  Audience : string;
  AllowedOrgs : list string;
  RefreshInterval : Z
}.

(** [ApplyDefaults] *)
Definition ApplyDefaults (c : JWTValidatorConfig) : JWTValidatorConfig :=
  {| JWKSURL := JWKSURL c; Issuer := Issuer c; Audience := Audience c;
     AllowedOrgs := AllowedOrgs c;
     RefreshInterval := if RefreshInterval c =? 0 then 3600 * Second
                        else RefreshInterval c |}.

(** The mutable part of [jwtValidator] is its key map. *)
Record jwtValidator := {
  cfg : JWTValidatorConfig;
  keys : gmap string PublicKey
}.

(** [NewJWTValidator] *)
Definition NewJWTValidator (c : JWTValidatorConfig) : jwtValidator :=
  {| cfg := ApplyDefaults c; keys := ∅ |}.

(** What one GET of the JWKS URL can produce.  The body is given as the
    result of [json.Decode] into [jwksResponse]: [None] when it does not
    decode. *)
Inductive Fetch :=
| RequestError
| TransportError
| Response (status : Z) (body : option (list jwkKey)).

(** The body of the [for _, key := range jwks.Keys] loop. *)
Definition cacheKey (newKeys : gmap string PublicKey) (key : jwkKey)
    : gmap string PublicKey :=
  if negb (String.eqb (Kty key) "RSA") || negb (String.eqb (Use key) "sig")
  then newKeys
  else match parseRSAPublicKey key with
       | None => newKeys
       | Some pubKey => <[Kid key := pubKey]> newKeys
       end.

(** [refreshJWKS]: the error ([None] is nil) and the validator afterwards. *)
Definition refreshJWKS (v : jwtValidator) (f : Fetch) : option string * jwtValidator :=
  match f with
  | RequestError => (Some "creating request", v)
  | TransportError => (Some "fetching JWKS", v)
  | Response status body =>
      if negb (status =? 200)
      then (Some ("JWKS endpoint returned status " +:+ pretty status), v)
      else match body with
           | None => (Some "decoding JWKS", v)
           | Some jwksKeys =>
               let newKeys := fold_left cacheKey jwksKeys ∅ in
               (None, {| cfg := cfg v; keys := newKeys |})
           end
  end.

(** [refreshLoop], one [Fetch] per tick until the stop channel closes: the
    error of a tick is logged and dropped. *)
Definition refreshLoop (v : jwtValidator) (ticks : list Fetch) : jwtValidator :=
  fold_left (fun v f => snd (refreshJWKS v f)) ticks v.

(** [Start]: the first fetch decides. *)
Definition Start (v : jwtValidator) (f : Fetch) : option string * jwtValidator :=
  match refreshJWKS v f with
  | (Some err, v') => (Some ("initial JWKS fetch: " +:+ err), v')
  | (None, v') => (None, v')
  end.

(** *** Tokens *)

(** Values of [any] produced by [encoding/json]. *)
Inductive JSON :=
| JNull
| JBool (b : bool)
| JNumber (x : Q)
| JString (s : string)
| JArray (items : list JSON)
| JObject (fields : list (string * JSON)).

(** A token string as golang-jwt reads it: either it is not three
    base64url segments holding a JSON header and JSON claims, or it is, and
    then its signature verifies (RS256) under some public keys and not under
    others. *)
Inductive JWTString :=
| Malformed
| Segments (header claims : gmap string JSON) (verifies : PublicKey -> bool).

(** [keyFunc] *)
Definition keyFunc (v : jwtValidator) (header : gmap string JSON) : option PublicKey :=
  match header !! "kid" with
  | Some (JString kid) => keys v !! kid
  | _ => None
  end.

(** [MapClaims.parseNumericDate]: [inl tt] is the type error, [inr None] an
    absent (or zero) date, [inr (Some s)] a date in whole seconds. *)
Definition parseNumericDate (claims : gmap string JSON) (key : string)
    : unit + option Z :=
  match claims !! key with
  | None => inr None
  | Some (JNumber x) => if Qeq_bool x 0 then inr None else inr (Some (Qfloor x))
  | Some _ => inl tt
  end.

(** The library's default claims validation at time [now] (nanoseconds):
    [exp] and [nbf] are optional, and checked when present. *)
Definition validateClaims (now : Z) (claims : gmap string JSON) : bool :=
  match parseNumericDate claims "exp", parseNumericDate claims "nbf" with
  | inr exp, inr nbf =>
      match exp with
      | Some e => now <? e * Second
      | None => true
      end
      &&
      match nbf with
      | Some n => n * Second <=? now
      | None => true
      end
  | _, _ => false
  end.

(** [jwt.Parse tokenString v.keyFunc (WithValidMethods ["RS256"])]: the
    claims of a token that parses, names the one allowed method, has a key
    and a signature that verifies under it, and passes claims validation. *)
Definition Parse (v : jwtValidator) (now : Z) (tokenString : JWTString)
    : option (gmap string JSON) :=
  match tokenString with
  | Malformed => None
  | Segments header claims verifies =>
      match header !! "alg" with
      | Some (JString alg) =>
          if negb (String.eqb alg "RS256") then None
          else match keyFunc v header with
               | None => None
               | Some key =>
                   if negb (verifies key) then None
                   else if negb (validateClaims now claims) then None
                   else Some claims
               end
      | _ => None
      end
  end.

Record JWTClaims := {
  Subject : string;
  Email : string;
  Groups : list string;
  claim_Issuer : string;
  claim_Audience : list string;
  ExpiresAt : option Z;
  IssuedAt : option Z;
  GitHubLogin : string;
  GitHubID : Z
}.

Definition getString (claims : gmap string JSON) (key : string) : string :=
  match claims !! key with
  | Some (JString v) => v
  | _ => ""
  end.

(** The strings of a [[]any], in order. *)
Fixpoint stringsOf (items : list JSON) : list string :=
  match items with
  | [] => []
  | JString s :: rest => s :: stringsOf rest
  | _ :: rest => stringsOf rest
  end.

Definition extractAudience (claims : gmap string JSON) : list string :=
  match claims !! "aud" with
  | Some (JString aud) => [aud]
  | Some (JArray aud) => stringsOf aud
  | _ => []
  end.

(** [slices.Contains] on strings *)
Definition slices_Contains (l : list string) (x : string) : bool :=
  existsb (String.eqb x) l.

Definition containsAudience (audiences : list string) (expected : string) : bool :=
  slices_Contains audiences expected.

Fixpoint hasAllowedOrg (groups allowedOrgs : list string) : bool :=
  match allowedOrgs with
  | [] => false
  | org :: rest =>
      if slices_Contains groups org then true else hasAllowedOrg groups rest
  end.

(** The [groups] claim as [Validate] collects it: the strings of the
    array, nothing when the claim is not an array. *)
Definition tokenGroups (claims : gmap string JSON) : list string :=
  match claims !! "groups" with
  | Some (JArray groups) => stringsOf groups
  | _ => []
  end.

Definition dateOf (claims : gmap string JSON) (key : string) : option Z :=
  match parseNumericDate claims key with
  | inr d => d
  | inl _ => None
  end.

(** [jwtValidator.Validate], called at time [now].  After a successful
    [Parse] the token is valid and its claims are [MapClaims], so the two
    checks that follow it in the source cannot fail. *)
Definition Validate (v : jwtValidator) (now : Z) (tokenString : JWTString)
    : string + JWTClaims :=
  match Parse v now tokenString with
  | None => inl "parsing token"
  | Some claims =>
      let issuer := getString claims "iss" in
      if negb (String.eqb (Issuer (cfg v)) "") && negb (String.eqb issuer (Issuer (cfg v)))
      then inl "invalid issuer"
      else if negb (String.eqb (Audience (cfg v)) "")
              && negb (containsAudience (extractAudience claims) (Audience (cfg v)))
      then inl "invalid audience"
      else
        let jwtClaims :=
          {| Subject := getString claims "sub";
             Email := getString claims "email";
             Groups := tokenGroups claims;
             claim_Issuer := issuer;
             claim_Audience := extractAudience claims;
             ExpiresAt := dateOf claims "exp";
             IssuedAt := dateOf claims "iat";
             GitHubLogin := getString claims "github_login";
             GitHubID := match claims !! "github_id" with
                         | Some (JNumber githubID) => int_of_float githubID
                         | _ => 0
                         end |} in
        if (0 <? Z.of_nat (length (AllowedOrgs (cfg v))))
           && negb (hasAllowedOrg (Groups jwtClaims) (AllowedOrgs (cfg v)))
        then inl "user not in allowed organizations"
        else inr jwtClaims
  end.

(** *** The acceptance conditions, in the words of the specification *)

(** An entry of a JWKS response that the cache keeps, and the key it
    yields. *)
Definition cached (key : jwkKey) (pk : PublicKey) : Prop :=
  Kty key = "RSA" /\ Use key = "sig" /\ parseRSAPublicKey key = Some pk.

Definition claimsOf (tokenString : JWTString) : gmap string JSON :=
  match tokenString with
  | Malformed => ∅
  | Segments _ claims _ => claims
  end.

(** The RS256 signature verifies under a key whose kid is in the map. *)
Definition signature_ok (v : jwtValidator) (tokenString : JWTString) : Prop :=
  match tokenString with
  | Malformed => False
  | Segments header _ verifies =>
      header !! "alg" = Some (JString "RS256") /\
      exists kid key,
        header !! "kid" = Some (JString kid) /\
        keys v !! kid = Some key /\
        verifies key = true
  end.

Definition issuer_ok (v : jwtValidator) (claims : gmap string JSON) : Prop :=
  Issuer (cfg v) = "" \/ getString claims "iss" = Issuer (cfg v).

Definition audience_ok (v : jwtValidator) (claims : gmap string JSON) : Prop :=
  Audience (cfg v) = "" \/ Audience (cfg v) ∈ extractAudience claims.

Definition groups_ok (v : jwtValidator) (claims : gmap string JSON) : Prop :=
  AllowedOrgs (cfg v) = [] \/
  exists org, org ∈ AllowedOrgs (cfg v) /\ org ∈ tokenGroups claims.

(** The four conditions the specification lists. *)
Definition accepted_as_stated (v : jwtValidator) (tokenString : JWTString) : Prop :=
  signature_ok v tokenString /\
  issuer_ok v (claimsOf tokenString) /\
  audience_ok v (claimsOf tokenString) /\
  groups_ok v (claimsOf tokenString).

(** A date claim is absent, or a number that satisfies [ok]. *)
Definition date_ok (claims : gmap string JSON) (key : string) (ok : Z -> Prop) : Prop :=
  match parseNumericDate claims key with
  | inl _ => False
  | inr None => True
  | inr (Some d) => ok d
  end.

(** Not expired and not used before its time, at [now]. *)
Definition dates_ok (now : Z) (claims : gmap string JSON) : Prop :=
  date_ok claims "exp" (fun e => now < e * Second) /\
  date_ok claims "nbf" (fun n => n * Second <= now).

End JWT.

(** ** pkg/proxy: the two authenticators *)

Module Auth.
Import GoStrings.

Record HTTPResponse := { status : Z; body : string }.

(** [http.Error]: the status code and the message followed by a newline. *)
Definition http_Error (msg : string) (code : Z) : HTTPResponse :=
  {| status := code; body := msg +:+ LF |}.

Definition StatusUnauthorized : Z := 401.

(** What the wrapped handler finds in the request context. *)
Record AuthContext := {
  ctx_userID : string;
  ctx_executionID : string;
  ctx_jwtClaims : option JWT.JWTClaims
}.

(** A middleware either writes a response itself or calls [next] with an
    extended context. *)
Inductive Outcome :=
| Respond (resp : HTTPResponse)
| Next (ctx : AuthContext).

(** [tokenAuthenticator.Middleware] on a request whose [Authorization]
    header is [auth] ([Header.Get]: the empty string when absent).
    [store_Validate] is [TokenStore.Validate]: the execution id bound to a
    live token, the empty string otherwise. *)
Definition tokenMiddleware (store_Validate : string -> string) (auth : string)
    : Outcome :=
  if String.eqb auth "" then
    Respond (http_Error "missing Authorization header" StatusUnauthorized)
  else if negb (HasPrefix auth "Bearer ") then
    Respond (http_Error "invalid Authorization header format" StatusUnauthorized)
  else
    let token := TrimPrefix auth "Bearer " in
    let executionID := store_Validate token in
    if String.eqb executionID "" then
      Respond (http_Error "invalid or expired token" StatusUnauthorized)
    else
      Next {| ctx_userID := executionID; ctx_executionID := executionID;
              ctx_jwtClaims := None |}.

(** [jwtAuthenticator.Middleware]; [validate] is the [Validate] method of
    the [JWTValidator] interface applied to the bearer string. *)
Definition jwtMiddleware (validate : string -> string + JWT.JWTClaims)
    (auth : string) : Outcome :=
  if String.eqb auth "" then
    Respond (http_Error "missing Authorization header" StatusUnauthorized)
  else if negb (HasPrefix auth "Bearer ") then
    Respond (http_Error "invalid Authorization header format" StatusUnauthorized)
  else
    let tokenString := TrimPrefix auth "Bearer " in
    match validate tokenString with
    | inl _ => Respond (http_Error "invalid or expired token" StatusUnauthorized)
    | inr claims =>
        Next {| ctx_userID := JWT.Subject claims; ctx_executionID := "";
                ctx_jwtClaims := Some claims |}
    end.

(** The body the specification announces for every failure. *)
Definition genericBody : string := "invalid or expired token" +:+ LF.

End Auth.

(** ** pkg/proxy/handlers: the CBT reverse proxy *)

Module Handlers.
Import GoStrings.

(** The header that selects an instance; the constant is declared in
    another file of the package. *)
Definition DatasourceHeader : string := "X-Datasource".

Definition StatusBadRequest : Z := 400.
Definition StatusNotFound : Z := 404.
Definition StatusInternalServerError : Z := 500.
Definition StatusBadGateway : Z := 502.

Record CBTConfig := {
  Name : string;
  URL : string;
  Timeout : Z
}.

(** [net/url.Parse]: library code, kept abstract. *)
Class URLLib := {
  ParsedURL : Type;
  url_Parse : string -> option ParsedURL
}.

(** What the transport of a reverse proxy reports for one request. *)
Inductive RoundTrip :=
| TransportFailure (err : string)
| UpstreamResponse (resp : Auth.HTTPResponse).

Section CBT.
Context {urls : URLLib}.

(** The reverse proxy built by [createInstance]: its target, with the
    director and the error handler the source installs. *)
Record ReverseProxy := { target : ParsedURL }.

(** [proxy] is a pointer in the source: [None] is nil. *)
Record cbtInstance := {
  inst_cfg : CBTConfig;
  proxy : option ReverseProxy
}.

Definition createInstance (cfg : CBTConfig) : cbtInstance :=
  match url_Parse (URL cfg) with
  | None => {| inst_cfg := cfg; proxy := None |}
  | Some targetURL =>
      {| inst_cfg := cfg; proxy := Some {| target := targetURL |} |}
  end.

(** [NewCBTHandler]: the [instances] map of the handler. *)
Definition NewCBTHandler (configs : list CBTConfig) : gmap string cbtInstance :=
  fold_left (fun instances cfg => <[Name cfg := createInstance cfg]> instances)
            configs ∅.

(** [ReverseProxy.ServeHTTP] with the error handler of [createInstance]:
    a transport failure becomes a 502, anything else is copied through. *)
Definition proxy_ServeHTTP (rt : RoundTrip) : Auth.HTTPResponse :=
  match rt with
  | TransportFailure err =>
      Auth.http_Error ("cbt proxy error: " +:+ err) StatusBadGateway
  | UpstreamResponse resp => resp
  end.

(** [CBTHandler.ServeHTTP].  [transport] is what the upstream does with the
    request once it is forwarded to the given proxy. *)
Definition ServeHTTP (instances : gmap string cbtInstance)
    (transport : ReverseProxy -> Middleware.Request -> RoundTrip)
    (r : Middleware.Request) : Auth.HTTPResponse :=
  let instanceName := Middleware.Header_Get (Middleware.Header r) DatasourceHeader in
  if String.eqb instanceName "" then
    Auth.http_Error ("missing " +:+ DatasourceHeader +:+ " header") StatusBadRequest
  else
    match instances !! instanceName with
    | None => Auth.http_Error ("unknown instance: " +:+ instanceName) StatusNotFound
    | Some instance =>
        match proxy instance with
        | None =>
            Auth.http_Error ("CBT instance not properly configured: " +:+ instanceName)
                            StatusInternalServerError
        | Some rp => proxy_ServeHTTP (transport rp r)
        end
    end.

End CBT.

(** A stand-in for [url.Parse] to run examples: like the library it refuses
    a string that starts with a colon (missing protocol scheme). *)
#[export] Instance scheme_urls : URLLib := {|
  ParsedURL := string;
  url_Parse := fun s => if HasPrefix s ":" then None else Some s
|}.

End Handlers.

(** ** pkg/proxy/handlers: the S3 handler *)

Module S3.
Import GoStrings.

(** [S3Config], as the test and [NewStandalone] fill it. *)
Record S3Config := {
  Endpoint : string;
  AccessKey : string;
  SecretKey : string;
  Bucket : string;
  Region : string;
  PublicURLPrefix : string
}.

(** The handler holds one configuration, not a map of instances
    ([s3Handler] and [s3Config] in [NewStandalone]).  [s3_cfg] is a pointer:
    [None] is nil. *)
Record S3Handler := { s3_cfg : option S3Config }.

(** Modelled from the spec: [NewS3Handler] is declared in a file of package
    handlers that is not among the sources.  Its test (s3_test.go) has it
    return nil for a nil configuration and a handler that holds the
    configuration otherwise. *)
Definition NewS3Handler (cfg : option S3Config) : option S3Handler :=
  match cfg with
  | None => None
  | Some c => Some {| s3_cfg := Some c |}
  end.

(** The bucket a path names: its first segment after [/s3/]. *)
Definition pathBucket (path : string) : string :=
  hd "" (Split (TrimPrefix path "/s3/") "/").

(** Modelled from the spec: [S3Handler.ServeHTTP] is declared in a file of
    package handlers that is not among the sources; its test (s3_test.go)
    is, and so is its caller, which routes [/s3/] to it.  Only the status
    code of the answer is modelled.  The handler reads no datasource header:
    it answers 503 without a configuration
    ([TestS3HandlerServeHTTPNilConfig]) and 400 when the path names no
    bucket ([TestS3HandlerServeHTTP], missing bucket); otherwise it signs
    the request, forwards it to the one configured endpoint and copies the
    status of the answer (the other cases of that test), a transport
    failure being a 502 by the error policy of section 4.4.  [transport]
    is what the endpoint does with the forwarded request. *)
Definition ServeHTTP (h : S3Handler)
    (transport : S3Config -> Middleware.Request -> Handlers.RoundTrip)
    (r : Middleware.Request) : Z :=
  match s3_cfg h with
  | None => 503
  | Some cfg =>
      if String.eqb (pathBucket (Middleware.URLPath r)) "" then
        Handlers.StatusBadRequest
      else
        match transport cfg r with
        | Handlers.TransportFailure _ => Handlers.StatusBadGateway
        | Handlers.UpstreamResponse resp => Auth.status resp
        end
  end.

End S3.

(** ** pkg/tool: execute_python *)

Module Tool.
Import Config GoStrings.

Definition DefaultTimeout : Z := 60.
Definition MaxTimeout : Z := 300.
Definition MinTimeout : Z := 1.

Definition resourceTipMessage : string := "
💡 TIP: Read these MCP resources for available datasources and schemas:
   - datasources://list - available datasource UIDs
   - datasources://clickhouse - ClickHouse datasources only
   - clickhouse-schema://{cluster}/{table} - table schema (if schema discovery enabled)
   - api://xatu - Python library documentation
   - networks://active - available networks".

(** *** Types of packages [mcp] and [sandbox], as the handler uses them *)

(** Modelled from the spec: [CallToolError] and [CallToolSuccess] are
    declared in a file of package tool that is not among the sources.  The
    specification (section 7) has the tool always return a result object, a
    failure being reported inside it with its diagnostic string: a result
    is one of the two, an error result carrying the error's text and a
    success result carrying the response. *)
Inductive CallToolResult :=
| CallToolError (err : string)
| CallToolSuccess (text : string).

Definition IsError (r : CallToolResult) : bool :=
  match r with
  | CallToolError _ => true
  | CallToolSuccess _ => false
  end.

Definition Text (r : CallToolResult) : string :=
  match r with
  | CallToolError err => err
  | CallToolSuccess text => text
  end.

(** The arguments of a call as the [mcp-go] accessors report them:
    [arg_code] is the result of [RequireString "code"] ([inl]: its error),
    [arg_timeout] the integer [GetInt "timeout"] finds ([None]: it falls
    back to the default it is given), [arg_session_id] likewise. *)
Record CallToolRequest := {
  arg_code : string + string;
  arg_timeout : option Z;
  arg_session_id : option string
}.

Definition GetInt (request : CallToolRequest) (defaultValue : Z) : Z :=
  match arg_timeout request with
  | Some v => v
  | None => defaultValue
  end.

Definition GetString (request : CallToolRequest) (defaultValue : string) : string :=
  match arg_session_id request with
  | Some v => v
  | None => defaultValue
  end.

Record SessionFile := {
  file_Name : string;
  file_Size : Z
}.

Record ExecutionResult := {
  Stdout : string;
  Stderr : string;
  ExitCode : Z;
  ExecutionID : string;
  OutputFiles : list string;
  DurationSeconds : Q;
  SessionID : string;
  SessionTTLRemaining : Z;
  SessionFiles : list SessionFile
}.

Record ExecuteRequest := {
  Code : string;
  Env : gmap string string;
  req_Timeout : Z;
  req_SessionID : string;
  OwnerID : string
}.

(** The [sandbox.Service] interface: [Execute] returns an error ([inl]) or
    a result. *)
Class Service := {
  svc_Name : string;
  Execute : ExecuteRequest -> string + ExecutionResult
}.

(** The float and duration verbs of [fmt]: library code, kept abstract. *)
Class FmtLib := {
  fmt_f1 : Q -> string;
  fmt_f2 : Q -> string;
  fmt_duration : Z -> string
}.

(** *** buildSandboxEnv *)

Definition buildSandboxEnv (cfg : Config) : gmap string string :=
  let env : gmap string string := ∅ in
  let env := <["XATU_GRAFANA_URL" := gf_URL (Grafana cfg)]> env in
  let env := <["XATU_GRAFANA_TOKEN" := gf_ServiceToken (Grafana cfg)]> env in
  let env := <["XATU_HTTP_TIMEOUT" := pretty (gf_Timeout (Grafana cfg))]> env in
  match Storage cfg with
  | Some storage =>
      let env := <["XATU_S3_ENDPOINT" := Endpoint storage]> env in
      let env := <["XATU_S3_ACCESS_KEY" := AccessKey storage]> env in
      let env := <["XATU_S3_SECRET_KEY" := SecretKey storage]> env in
      let env := <["XATU_S3_BUCKET" := Bucket storage]> env in
      let env := <["XATU_S3_REGION" := Region storage]> env in
      if negb (String.eqb (PublicURLPrefix storage) "")
      then <["XATU_S3_PUBLIC_URL_PREFIX" := PublicURLPrefix storage]> env
      else env
  | None => env
  end.

(** *** formatExecutionResult *)

Section Format.
Context {fmtlib : FmtLib}.

Definition unit_ : Z := 1024.

(** The loop of [formatSize]; an [int64] leaves it within six rounds. *)
Fixpoint sizeLoop (fuel : nat) (n div exp : Z) : Z * Z :=
  match fuel with
  | O => (div, exp)
  | S fuel' =>
      if unit_ <=? n then sizeLoop fuel' (Z.quot n unit_) (div * unit_) (exp + 1)
      else (div, exp)
  end.

Definition formatSize (bytes : Z) : string :=
  if bytes <? unit_ then pretty bytes +:+ " B"
  else
    let '(div, exp) := sizeLoop 6 (Z.quot bytes unit_) unit_ 0 in
    let prefix :=
      match String.get (Z.to_nat exp) "KMGTPE" with
      | Some c => String c EmptyString
      | None => EmptyString
      end in
    fmt_f1 (inject_Z bytes / inject_Z div)%Q +:+ " " +:+ prefix +:+ "B".

Definition workspaceFile (f : SessionFile) : string :=
  file_Name f +:+ "(" +:+ formatSize (file_Size f) +:+ ")".

Definition formatExecutionResult (result : ExecutionResult) (cfg : Config) : string :=
  let parts : list string := [] in
  let parts :=
    if negb (String.eqb (Stdout result) "")
    then append parts ("[stdout]" +:+ LF +:+ Stdout result) else parts in
  let parts :=
    if negb (String.eqb (Stderr result) "")
    then append parts ("[stderr]" +:+ LF +:+ Stderr result) else parts in
  let parts :=
    if 0 <? Z.of_nat (length (OutputFiles result))
    then append parts ("[files] " +:+ Join (OutputFiles result) ", ") else parts in
  let parts :=
    if negb (String.eqb (SessionID result) "") then
      let sessionInfo :=
        "[session] id=" +:+ SessionID result +:+ " ttl="
        +:+ fmt_duration (SessionTTLRemaining result) in
      let sessionInfo :=
        if 0 <? Z.of_nat (length (SessionFiles result))
        then sessionInfo +:+ " workspace=["
             +:+ Join (map workspaceFile (SessionFiles result)) ", " +:+ "]"
        else sessionInfo in
      append parts sessionInfo
    else parts in
  let parts :=
    append parts ("[exit=" +:+ pretty (ExitCode result) +:+ " duration="
                  +:+ fmt_f2 (DurationSeconds result) +:+ "s id="
                  +:+ ExecutionID result +:+ "]") in
  let parts :=
    match Storage cfg with
    | Some storage =>
        if Contains (PublicURLPrefix storage) "localhost"
           && Contains (Stdout result) "localhost"
        then append parts "[note] Storage URLs use localhost - these are accessible if running the server locally."
        else parts
    | None => parts
    end in
  Join parts LF.

End Format.

(** *** The handler *)

(** What a call can change: the process-wide set of sessions that have
    seen the resource tip, and the requests handed to the sandbox so far
    (most recent first). *)
Record World := {
  sessionsWithResourceTip : gset string;
  executed : list ExecuteRequest
}.

Section Handler.
Context {fmtlib : FmtLib} {sandboxSvc : Service}.
Variable cfg : Config.

(** [request.GetInt "timeout" cfg.Sandbox.Timeout] *)
Definition effectiveTimeout (request : CallToolRequest) : Z :=
  GetInt request (sb_Timeout (Sandbox cfg)).

(** The [sandbox.ExecuteRequest] the handler builds. *)
Definition executeRequest (code : string) (timeout : Z) (user : option Z)
    (request : CallToolRequest) : ExecuteRequest :=
  let sessionID := GetString request "" in
  let ownerID := match user with Some id => pretty id | None => "" end in
  let env := buildSandboxEnv cfg in
  {| Code := code; Env := env; req_Timeout := timeout * Second;
     req_SessionID := sessionID; OwnerID := ownerID |}.

(** The handler returned by [newExecutePythonHandler].  [user] is the
    GitHub id of [auth.GetAuthUser ctx], when there is one. *)
Definition executePython (w : World) (user : option Z) (request : CallToolRequest)
    : CallToolResult * World :=
  match arg_code request with
  | inl err => (CallToolError ("invalid arguments: " +:+ err), w)
  | inr code =>
      if String.eqb code "" then (CallToolError "code is required", w)
      else
        let timeout := effectiveTimeout request in
        if (timeout <? MinTimeout) || (MaxTimeout <? timeout) then
          (CallToolError ("timeout must be between " +:+ pretty MinTimeout
                          +:+ " and " +:+ pretty MaxTimeout +:+ " seconds"), w)
        else
          let req := executeRequest code timeout user request in
          let w1 := {| sessionsWithResourceTip := sessionsWithResourceTip w;
                       executed := req :: executed w |} in
          match Execute req with
          | inl err => (CallToolError ("execution error: " +:+ err), w1)
          | inr result =>
              let response := formatExecutionResult result cfg in
              let sessionKey :=
                if String.eqb (SessionID result) "" then ExecutionID result
                else SessionID result in
              let alreadyShown := bool_decide (sessionKey ∈ sessionsWithResourceTip w1) in
              let response :=
                if negb alreadyShown then response +:+ resourceTipMessage
                else response in
              (CallToolSuccess response,
               {| sessionsWithResourceTip := {[sessionKey]} ∪ sessionsWithResourceTip w1;
                  executed := executed w1 |})
          end
  end.

End Handler.

End Tool.

(** ** Concrete inputs: the scenarios of the specification *)

Module Scenarios.
Import Config.
#[local] Existing Instance Handlers.scheme_urls.

Definition plain_rule : RateLimitRule :=
  {| RequestsPerSecond := 1; RequestsPerMinute := 0;
     BurstSize := 1; BlockDuration := 0 |}.

(** RL-2: one trusted network. *)
Definition rl2_cfg : RateLimitConfig :=
  {| rl_Enabled := true; rl_Backend := "memory"; rl_Default := plain_rule;
     rl_PerTool := ∅; rl_TrustedProxies := ["10.0.0.0/8"] |}.

Definition rl2_request (peer : string) : Middleware.Request :=
  {| Middleware.RemoteAddr := peer;
     Middleware.Header := {[ "X-Forwarded-For" := ["1.2.3.4, 10.0.0.9"] ]};
     Middleware.URLPath := "/mcp";
     Middleware.Method := "POST" |}.

Definition rl2_proxied : Middleware.Request := rl2_request "10.0.0.5:40000".
Definition rl2_direct : Middleware.Request := rl2_request "8.8.8.8:40000".

(** A clock that does not move during one call. *)
Definition still_clock : Middleware.Clock :=
  {| Middleware.now_lastUsed := 0; Middleware.now_reset := 0;
     Middleware.now_tokens := 0; Middleware.now_allow := 0 |}.

(** JWT-1: an issuer and one allowed organisation. *)
Definition jwt1_config : JWT.JWTValidatorConfig :=
  {| JWT.JWKSURL := "https://idp/keys"; JWT.Issuer := "https://idp";
     JWT.Audience := ""; JWT.AllowedOrgs := ["ethpandaops"];
     JWT.RefreshInterval := 0 |}.

Definition jwk_good : JWT.jwkKey :=
  {| JWT.Kty := "RSA"; JWT.Use := "sig"; JWT.Kid := "k1"; JWT.Alg := "RS256";
     JWT.N := "AQAB"; JWT.E := "AQAB" |}.

(** The modulus is not base64. *)
Definition jwk_bad_modulus : JWT.jwkKey :=
  {| JWT.Kty := "RSA"; JWT.Use := "sig"; JWT.Kid := "k2"; JWT.Alg := "RS256";
     JWT.N := "!!!"; JWT.E := "AQAB" |}.

Definition jwk_encryption : JWT.jwkKey :=
  {| JWT.Kty := "RSA"; JWT.Use := "enc"; JWT.Kid := "k3"; JWT.Alg := "RS256";
     JWT.N := "AQAB"; JWT.E := "AQAB" |}.

Definition key_good : JWT.PublicKey := {| JWT.pk_N := 65537; JWT.pk_E := 65537 |}.

(** The validator after a first refresh that returned [jwk_good]. *)
Definition jwt1_validator : JWT.jwtValidator :=
  snd (JWT.refreshJWKS (JWT.NewJWTValidator jwt1_config)
                       (JWT.Response 200 (Some [jwk_good]))).

(** A token signed with [key_good], issued by [iss], expiring at second
    [exp]. *)
Definition jwt1_token (iss : string) (exp : Q) : JWT.JWTString :=
  JWT.Segments
    {[ "alg" := JWT.JString "RS256"; "kid" := JWT.JString "k1" ]}
    {[ "iss" := JWT.JString iss;
       "groups" := JWT.JArray [JWT.JString "ethpandaops"; JWT.JString "other"];
       "exp" := JWT.JNumber exp ]}
    (fun k => if JWT.PublicKey_eq_dec k key_good then true else false).

(** A validator that rejects every token, and a store without tokens. *)
Definition reject_all : string -> string + JWT.JWTClaims :=
  fun _ => inl "token is expired".

Definition empty_store : string -> string := fun _ => "".

(** One CBT instance whose URL does not parse, one that does. *)
Definition cbt_configs : list Handlers.CBTConfig :=
  [ {| Handlers.Name := "broken"; Handlers.URL := "://invalid-url";
       Handlers.Timeout := 30 |};
    {| Handlers.Name := "mainnet"; Handlers.URL := "http://cbt.internal:8080";
       Handlers.Timeout := 30 |} ].



(** The S3 handler of [TestS3HandlerServeHTTP], the upstream of that test,
    which answers by method, and its first request: a GET without any
    header. *)
Definition s3_test_handler : S3.S3Handler :=
  {| S3.s3_cfg :=
       Some {| S3.Endpoint := "http://127.0.0.1:9000"; S3.AccessKey := "test-key";
               S3.SecretKey := "test-secret"; S3.Bucket := "test-bucket";
               S3.Region := "us-east-1"; S3.PublicURLPrefix := "" |} |}.

Definition s3_test_upstream (cfg : S3.S3Config) (r : Middleware.Request)
    : Handlers.RoundTrip :=
  let answer := fun code body =>
    Handlers.UpstreamResponse {| Auth.status := code; Auth.body := body |} in
  if String.eqb (Middleware.Method r) "PUT" then answer 200 "{}"
  else if String.eqb (Middleware.Method r) "GET" then answer 200 "file content"
  else if String.eqb (Middleware.Method r) "HEAD" then answer 200 ""
  else if String.eqb (Middleware.Method r) "DELETE" then answer 204 ""
  else answer 405 "".


(** A configuration with storage credentials and a service token. *)
Definition config_with_credentials (timeout : Z) : Config :=
  {| Sandbox := {| sb_Backend := "docker"; sb_Image := "sandbox:latest";
                   sb_Timeout := timeout; sb_MemoryLimit := "2g";
                   sb_Network := "" |};
     Storage := Some {| Endpoint := "http://minio:9000";
                        AccessKey := "AKIAEXAMPLE";
                        SecretKey := "s3-secret-key";
                        Bucket := "outputs"; Region := "us-east-1";
                        PublicURLPrefix := "" |};
     Grafana := {| gf_URL := "https://grafana.internal";
                   gf_ServiceToken := "glsa_service_token"; gf_Timeout := 120 |};
     RateLimit := rl2_cfg |}.

#[export] Instance plain_fmt : Tool.FmtLib := {|
  Tool.fmt_f1 := fun _ => "1.0";
  Tool.fmt_f2 := fun _ => "0.25";
  Tool.fmt_duration := fun _ => "30m0s"
|}.

(** A sandbox whose child always exits with status 3. *)
#[export] Instance exit3_sandbox : Tool.Service := {|
  Tool.svc_Name := "docker";
  Tool.Execute := fun req =>
    inr {| Tool.Stdout := "partial output"; Tool.Stderr := "Traceback";
           Tool.ExitCode := 3; Tool.ExecutionID := "exec-1";
           Tool.OutputFiles := []; Tool.DurationSeconds := 1 # 4;
           Tool.SessionID := ""; Tool.SessionTTLRemaining := 0;
           Tool.SessionFiles := [] |}
|}.

Definition fresh_world : Tool.World :=
  {| Tool.sessionsWithResourceTip := ∅; Tool.executed := [] |}.

Definition call (timeout : option Z) : Tool.CallToolRequest :=
  {| Tool.arg_code := inr "import sys; sys.exit(3)";
     Tool.arg_timeout := timeout; Tool.arg_session_id := None |}.

End Scenarios.

(** * More of the code *)

(** ** pkg/middleware: the rest of the rate limiter *)

Module RateLimitHTTP.
Import Config GoStrings Middleware.

Definition HeaderRateLimitLimit : string := "X-RateLimit-Limit".
Definition HeaderRateLimitRemaining : string := "X-RateLimit-Remaining".
Definition HeaderRateLimitReset : string := "X-RateLimit-Reset".
Definition HeaderRetryAfter : string := "Retry-After".

Definition StatusTooManyRequests : Z := 429.

(** Five minutes, in nanoseconds. *)
Definition defaultCleanupInterval : Z := 5 * (60 * Second).

(** [NewRateLimiter]: the (empty) limiter map, or the error for an unknown
    backend.  The redis backend falls back to memory. *)
Definition NewRateLimiter (cfg : RateLimitConfig) : string + gmap string inMemoryEntry :=
  if String.eqb (rl_Backend cfg) "redis" then inr ∅
  else if String.eqb (rl_Backend cfg) "memory" || String.eqb (rl_Backend cfg) ""
  then inr ∅
  else inl ("unknown rate limit backend: " +:+ rl_Backend cfg).

(** [inMemoryLimiter.cleanup] at time [now]: every entry whose [lastUsed]
    is before the cutoff is deleted. *)
Definition cleanup (limiters : gmap string inMemoryEntry) (now : Z)
    : gmap string inMemoryEntry :=
  let cutoff := now - defaultCleanupInterval in
  filter (fun kv => ~ (lastUsed (snd kv) < cutoff)) limiters.

(** [inMemoryLimiter.Close] *)
Definition Close (limiters : gmap string inMemoryEntry) : gmap string inMemoryEntry := ∅.

(** [time.Duration.Seconds] *)
Definition Seconds (d : Z) : Q := (inject_Z d / inject_Z Second)%Q.

(** What the middleware does with a request: the headers it sets on the
    response, and either the call of [next] or its own response. *)
Inductive Verdict :=
| CallNext (headers : gmap string string)
| Deny (headers : gmap string string) (resp : Auth.HTTPResponse).

Section Middleware.
Context {net : NetLib} {fmtlib : Tool.FmtLib}.
Variable cfg : RateLimitConfig.

(** One element of the trusted-proxy list matches the peer. *)
Definition trusts (parsedIP : IP) (ip trusted : string) : Prop :=
  if Contains trusted "/" then
    exists base ipNet,
      ParseCIDR trusted = Some (base, ipNet) /\ IPNet_Contains ipNet parsedIP = true
  else trusted = ip.

(** [RateLimiter.Middleware toolName] on one request. *)
Definition Middleware (toolName : string) (limiters : gmap string inMemoryEntry)
    (r : Request) (clk : Clock) : Verdict * gmap string inMemoryEntry :=
  if negb (rl_Enabled cfg) then (CallNext ∅, limiters)
  else
    let rule := getRule cfg toolName in
    let clientIP := getClientIP cfg r in
    let key := buildKey clientIP toolName in
    let '(allowed, info, limiters') := Allow limiters key rule clk in
    let headers : gmap string string := ∅ in
    let headers := <[HeaderRateLimitLimit := Tool.fmt_f2 (Limit info)]> headers in
    let headers := <[HeaderRateLimitRemaining := pretty (Remaining info)]> headers in
    let headers := <[HeaderRateLimitReset := pretty (ResetAt info)]> headers in
    if negb allowed then
      let retryAfter := int_of_float (Seconds (GetBlockDuration rule)) in
      let headers := <[HeaderRetryAfter := pretty retryAfter]> headers in
      (Deny headers (Auth.http_Error "rate limit exceeded" StatusTooManyRequests),
       limiters')
    else (CallNext headers, limiters').

End Middleware.

(** A run of calls of [Allow] on one key, one clock per call: the
    decisions in order and the limiter map at the end. *)
Fixpoint AllowEach (limiters : gmap string inMemoryEntry) (key : string)
    (rule : RateLimitRule) (clks : list Clock)
    : list bool * gmap string inMemoryEntry :=
  match clks with
  | [] => ([], limiters)
  | clk :: rest =>
      let '(allowed, _, limiters') := Allow limiters key rule clk in
      let '(decisions, final) := AllowEach limiters' key rule rest in
      (allowed :: decisions, final)
  end.

(** The bucket of [key] holds [k] tokens at time [t], with capacity at
    least one and a rate between zero and one token per nanosecond. *)
Definition holds (limiters : gmap string inMemoryEntry) (key : string)
    (t : Z) (k : nat) : Prop :=
  exists entry,
    limiters !! key = Some entry /\
    (advance (limiter entry) t == inject_Z (Z.of_nat k))%Q /\
    (0 < lim_limit (limiter entry))%Q /\
    (lim_limit (limiter entry) <= inject_Z Second)%Q.

End RateLimitHTTP.

(** ** pkg/proxy: per-user rate limiter, auditor and the middleware chain *)

Module Proxy.
Import GoStrings Auth.

(** [GetUserID], [GetExecutionID], [GetJWTClaims]: a value that was never
    put into the context reads as the empty string, or nil. *)
Definition GetUserID (ctx : AuthContext) : string := ctx_userID ctx.
Definition GetExecutionID (ctx : AuthContext) : string := ctx_executionID ctx.
Definition GetJWTClaims (ctx : AuthContext) : option JWT.JWTClaims := ctx_jwtClaims ctx.

(** *** The per-user rate limiter *)

Record RateLimiterConfig := {
  RequestsPerMinute : Z;
  BurstSize : Z
}.

(** [getLimiter]: the limiter of the user, created full on first use. *)
Definition getLimiter (cfg : RateLimiterConfig)
    (limiters : gmap string Middleware.Limiter) (userID : string)
    : Middleware.Limiter * gmap string Middleware.Limiter :=
  match limiters !! userID with
  | Some limiter => (limiter, limiters)
  | None =>
      let ratePerSecond := (inject_Z (RequestsPerMinute cfg) / 60)%Q in
      let limiter := Middleware.NewLimiter ratePerSecond (BurstSize cfg) in
      (limiter, <[userID := limiter]> limiters)
  end.

(** [RateLimiter.Allow] at time [t].  The limiter is a pointer shared with
    the map: its new state is stored back. *)
Definition Allow (cfg : RateLimiterConfig)
    (limiters : gmap string Middleware.Limiter) (userID : string) (t : Z)
    : bool * gmap string Middleware.Limiter :=
  let '(limiter, limiters1) := getLimiter cfg limiters userID in
  let '(ok, limiter') := Middleware.Limiter_Allow limiter t in
  (ok, <[userID := limiter']> limiters1).

Inductive Verdict :=
| PassOn
| TooMany (headers : gmap string string) (resp : HTTPResponse).

(** [RateLimiter.Middleware] on a request whose context is [ctx]. *)
Definition rateLimit (cfg : RateLimiterConfig)
    (limiters : gmap string Middleware.Limiter) (ctx : AuthContext) (t : Z)
    : Verdict * gmap string Middleware.Limiter :=
  let userID := GetUserID ctx in
  if String.eqb userID "" then (PassOn, limiters)
  else
    let '(ok, limiters') := Allow cfg limiters userID t in
    if negb ok then
      (TooMany {[ "Retry-After" := "60" ]}
               (http_Error "rate limit exceeded" 429), limiters')
    else (PassOn, limiters').

(** [RateLimiter.cleanup], every bucket read at time [t]: a limiter that
    has recovered to full burst is deleted. *)
Definition cleanup (cfg : RateLimiterConfig)
    (limiters : gmap string Middleware.Limiter) (t : Z)
    : gmap string Middleware.Limiter :=
  filter (fun kv =>
            Qle_bool (inject_Z (BurstSize cfg)) (Middleware.Tokens (snd kv) t) = false)
         limiters.

(** The limiters [getLimiter] creates under [cfg] carry its rate and its
    burst; [Allow] changes neither. *)
Definition configured (cfg : RateLimiterConfig)
    (limiters : gmap string Middleware.Limiter) : Prop :=
  map_Forall (fun _ limiter =>
                Middleware.lim_limit limiter = (inject_Z (RequestsPerMinute cfg) / 60)%Q /\
                Middleware.lim_burst limiter = BurstSize cfg) limiters.

(** *** The auditor *)

Record AuditorConfig := {
  LogQueries : bool;
  MaxQueryLength : Z
}.

Record AuditEntry := {
  UserID : string;
  Email : string;
  Method : string;
  Path : string;
  Datasource : string;
  Query : string;
  StatusCode : Z;
  Duration : string
}.

(** [path[:n]] *)
Definition slice_to (s : string) (n : nat) : string := String.substring 0 n s.

Definition extractDatasource (path : string) : string :=
  if (11 <? String.length path)%nat && String.eqb (slice_to path 12) "/clickhouse/"
  then "clickhouse"
  else if (12 <? String.length path)%nat && String.eqb (slice_to path 13) "/prometheus/"
  then "prometheus"
  else if (5 <? String.length path)%nat && String.eqb (slice_to path 6) "/loki/"
  then "loki"
  else if (3 <? String.length path)%nat && String.eqb (slice_to path 4) "/s3/"
  then "s3"
  else "unknown".

(** [extractQuery]; [queryParam] is [r.URL.Query().Get("query")]. *)
Definition extractQuery (queryParam : string) : string :=
  if negb (String.eqb queryParam "") then queryParam
  else if negb (String.eqb queryParam "") then queryParam
  else "".

(** The truncation of the logged query.  Slicing with a negative bound
    panics: [None]. *)
Definition truncateQuery (cfg : AuditorConfig) (query : string) : option string :=
  if MaxQueryLength cfg <? Z.of_nat (String.length query) then
    if MaxQueryLength cfg <? 0 then None
    else Some (slice_to query (Z.to_nat (MaxQueryLength cfg)) +:+ "...")
  else Some query.

(** The entry [Auditor.Middleware] logs once the wrapped handler has
    answered with [resp]; [duration] is the printed elapsed time. *)
Definition auditEntry (cfg : AuditorConfig) (ctx : AuthContext)
    (r : Middleware.Request) (queryParam : string) (resp : HTTPResponse)
    (duration : string) : option AuditEntry :=
  let entry :=
    {| UserID := GetUserID ctx; Email := ""; Method := Middleware.Method r;
       Path := Middleware.URLPath r;
       Datasource := extractDatasource (Middleware.URLPath r);
       Query := ""; StatusCode := status resp; Duration := duration |} in
  let entry :=
    match GetJWTClaims ctx with
    | Some claims =>
        {| UserID := UserID entry; Email := JWT.Email claims; Method := Method entry;
           Path := Path entry; Datasource := Datasource entry; Query := Query entry;
           StatusCode := StatusCode entry; Duration := Duration entry |}
    | None => entry
    end in
  if LogQueries cfg then
    match truncateQuery cfg (extractQuery queryParam) with
    | Some query =>
        Some {| UserID := UserID entry; Email := Email entry; Method := Method entry;
                Path := Path entry; Datasource := Datasource entry; Query := query;
                StatusCode := StatusCode entry; Duration := Duration entry |}
    | None => None
    end
  else Some entry.

(** *** The chain of [buildMiddlewareChain] *)

(** The parts of [standaloneService] the chain reads: the authenticator's
    middleware as a function of the [Authorization] header, and the two
    optional middlewares (nil when disabled). *)
Record Service := {
  authenticator : string -> Outcome;
  rateLimiter : option RateLimiterConfig;
  auditor : option AuditorConfig
}.

(** What the audit middleware did. *)
Inductive Audit :=
| NotAudited
| Logged (entry : AuditEntry)
| AuditPanic.

(** One request through the chain. *)
Record Served := {
  response : HTTPResponse;
  responseHeaders : gmap string string;
  handlerCalled : bool;
  audit : Audit;
  limitersAfter : gmap string Middleware.Limiter
}.

(** Authentication outermost, then rate limiting, then audit logging, then
    the handler. *)
Definition chain (s : Service)
    (handler : AuthContext -> Middleware.Request -> HTTPResponse)
    (limiters : gmap string Middleware.Limiter)
    (r : Middleware.Request) (queryParam : string) (t : Z) (duration : string)
    : Served :=
  match authenticator s (Middleware.Header_Get (Middleware.Header r) "Authorization") with
  | Respond resp =>
      {| response := resp; responseHeaders := ∅; handlerCalled := false;
         audit := NotAudited; limitersAfter := limiters |}
  | Next ctx =>
      let '(verdict, limiters') :=
        match rateLimiter s with
        | Some cfg => rateLimit cfg limiters ctx t
        | None => (PassOn, limiters)
        end in
      match verdict with
      | TooMany headers resp =>
          {| response := resp; responseHeaders := headers; handlerCalled := false;
             audit := NotAudited; limitersAfter := limiters' |}
      | PassOn =>
          let resp := handler ctx r in
          let audited :=
            match auditor s with
            | Some cfg =>
                match auditEntry cfg ctx r queryParam resp duration with
                | Some entry => Logged entry
                | None => AuditPanic
                end
            | None => NotAudited
            end in
          {| response := resp; responseHeaders := ∅; handlerCalled := true;
             audit := audited; limitersAfter := limiters' |}
      end
  end.

End Proxy.

(** ** pkg/proxy/handlers: the director and the instance list of the CBT proxy *)

Module CBTProxy.
Import GoStrings Handlers.

(** The outgoing request a director rewrites: its headers (names in
    canonical form), the path and the host of its URL, and its [Host]. *)
Record OutRequest := {
  out_Header : gmap string (list string);
  out_URLPath : string;
  out_URLHost : string;
  out_Host : string
}.

(** [http.Header.Del] *)
Definition Header_Del (h : gmap string (list string)) (key : string)
    : gmap string (list string) :=
  delete key h.

(** The director [createInstance] installs.  [originalDirector] is the one
    [httputil.NewSingleHostReverseProxy] built for the target: library
    code, kept abstract. *)
Definition Director (originalDirector : OutRequest -> OutRequest) (req : OutRequest)
    : OutRequest :=
  let req := originalDirector req in
  let header := Header_Del (out_Header req) "Authorization" in
  let path := TrimPrefix (out_URLPath req) "/cbt" in
  let path := if String.eqb path "" then "/" else path in
  {| out_Header := Header_Del header "Host";
     out_URLPath := path;
     out_URLHost := out_URLHost req;
     out_Host := out_URLHost req |}.

(** [CBTHandler.Instances]: the keys of the map.  Go ranges over a map in
    an unspecified order; the order of this list stands for any of them. *)
Definition Instances {urls : URLLib} (instances : gmap string cbtInstance)
    : list string :=
  (map_to_list instances).*1.

End CBTProxy.

(** ** pkg/config: the rate-limit defaults *)

Module ConfigDefaults.
Import Config.

(** [x == 0] on floats. *)
Definition Qzero (x : Q) : bool := Qeq_bool x 0.

(** The rate-limit part of [applyDefaults]: the backend, and the rate and
    the burst of the default rule.  Per-tool rules are not touched. *)
Definition applyDefaults_rateLimit (rl : RateLimitConfig) : RateLimitConfig :=
  let backend := if String.eqb (rl_Backend rl) "" then "memory" else rl_Backend rl in
  let default := rl_Default rl in
  let requestsPerSecond :=
    if Qzero (RequestsPerSecond default) && (RequestsPerMinute default =? 0)
    then 10%Q else RequestsPerSecond default in
  let burstSize := if BurstSize default =? 0 then 20 else BurstSize default in
  {| rl_Enabled := rl_Enabled rl;
     rl_Backend := backend;
     rl_Default := {| RequestsPerSecond := requestsPerSecond;
                      RequestsPerMinute := RequestsPerMinute default;
                      BurstSize := burstSize;
                      BlockDuration := BlockDuration default |};
     rl_PerTool := rl_PerTool rl;
     rl_TrustedProxies := rl_TrustedProxies rl |}.

End ConfigDefaults.

(** ** cmd/mcp/cmd: the run command *)

Module RunCmd.
Import Config GoStrings.

(** The flags of the command.  [runTimeout] is an [int]; the duration made
    of it is an [int64] product, which wraps around. *)
Record Flags := {
  runCode : string;
  runFile : string;
  runSessionID : string;
  runTimeout : Z;
  runJSON : bool
}.

(** The JSON output format. *)
Record RunResult := {
  rr_Stdout : string;
  rr_Stderr : string;
  rr_ExitCode : Z;
  rr_OutputFiles : list string;
  rr_SessionID : string;
  rr_DurationSeconds : Q
}.

(** What the world outside answers to the calls of [runRun]: an error is
    [Some] or [inl], as the call has it. *)
Record Environment := {
  ReadFile : string -> string + string;
  loadConfigOrDefaults : option string;
  buildProxyClient : option string;
  buildPluginRegistry : option string;
  buildSandboxService : option string;
  buildSandboxEnv : string + gmap string string;
  uuid_New : string;
  RegisterToken : string -> string;
  Execute : Tool.ExecuteRequest -> string + Tool.ExecutionResult;
  MarshalIndent : RunResult -> string + string;
  isTerminal : bool
}.

(** What the command does to the world, in order. *)
Inductive Event :=
| Cancel
| ProxyClientStop
| SandboxStop
| TokenRegistered (executionID : string)
| TokenRevoked (executionID : string)
| SandboxExecute (req : Tool.ExecuteRequest)
| Stdout (text : string)
| Stderr (text : string).

(** How the command ends: it returns, with an error or nil, and the
    deferred calls run; or it calls [os.Exit], and they do not. *)
Inductive Ending :=
| Return (err : option string)
| Exit (code : Z).

Fixpoint lastByte (s : string) : option ascii :=
  match s with
  | EmptyString => None
  | String c EmptyString => Some c
  | String _ rest => lastByte rest
  end.

(** [fmt.Print(text)] to [out], followed by a newline when the text does
    not end with one; nothing for the empty text. *)
Definition printLine (out : string -> Event) (text : string) : list Event :=
  if negb (String.eqb text "") then
    out text ::
    (if negb (bool_decide (lastByte text = Some (ascii_of_nat 10)))
     then [out LF] else [])
  else [].

(** The human-readable output of a result. *)
Definition humanOutput (result : Tool.ExecutionResult) : list Event :=
  (printLine Stdout (Tool.Stdout result)
   ++ printLine Stderr (Tool.Stderr result)
   ++ map (fun f => Stderr ("[file] " +:+ f +:+ LF)) (Tool.OutputFiles result)
   ++ (if negb (String.eqb (Tool.SessionID result) "")
       then [Stderr ("[session] " +:+ Tool.SessionID result +:+ LF)] else []))%list.

(** [outputJSON] *)
Definition outputJSON (e : Environment) (v : RunResult) : list Event * option string :=
  match MarshalIndent e v with
  | inl err => ([], Some ("marshaling JSON: " +:+ err))
  | inr data => ([Stdout (data +:+ LF)], None)
  end.

(** [runRun].  [deferred] holds the deferred calls, the last one first, as
    they run when the function returns.  Logging and the injection of the
    proxy client into the plugins leave no event. *)
Definition runRun (f : Flags) (e : Environment) : list Event * Ending :=
  if String.eqb (runCode f) "" && String.eqb (runFile f) "" then
    ([], Return (Some "either --code or --file is required"))
  else if negb (String.eqb (runCode f) "") && negb (String.eqb (runFile f) "") then
    ([], Return (Some "--code and --file are mutually exclusive"))
  else
    match (if negb (String.eqb (runFile f) "") then ReadFile e (runFile f)
           else inr (runCode f)) with
    | inl err =>
        ([], Return (Some ("reading file " +:+ runFile f +:+ ": " +:+ err)))
    | inr code =>
        let deferred := [Cancel] in
        match loadConfigOrDefaults e with
        | Some err => (deferred, Return (Some ("loading config: " +:+ err)))
        | None =>
        match buildProxyClient e with
        | Some err => (deferred, Return (Some err))
        | None =>
        let deferred := ProxyClientStop :: deferred in
        match buildPluginRegistry e with
        | Some err =>
            (deferred, Return (Some ("building plugin registry: " +:+ err)))
        | None =>
        match buildSandboxService e with
        | Some err => (deferred, Return (Some err))
        | None =>
        let deferred := SandboxStop :: deferred in
        match buildSandboxEnv e with
        | inl err =>
            (deferred, Return (Some ("building sandbox environment: " +:+ err)))
        | inr env =>
        let executionID := uuid_New e in
        let proxyToken := RegisterToken e executionID in
        let env := <["ETHPANDAOPS_PROXY_TOKEN" := proxyToken]> env in
        let deferred := TokenRevoked executionID :: deferred in
        let req :=
          {| Tool.Code := code; Tool.Env := env;
             Tool.req_Timeout := JWT.wrap64 (runTimeout f * Second);
             Tool.req_SessionID := runSessionID f; Tool.OwnerID := "" |} in
        let done := [TokenRegistered executionID; SandboxExecute req] in
        match Execute e req with
        | inl err =>
            ((done ++ deferred)%list, Return (Some ("execution error: " +:+ err)))
        | inr result =>
            if runJSON f || negb (isTerminal e) then
              let '(printed, err) :=
                outputJSON e {| rr_Stdout := Tool.Stdout result;
                                rr_Stderr := Tool.Stderr result;
                                rr_ExitCode := Tool.ExitCode result;
                                rr_OutputFiles := Tool.OutputFiles result;
                                rr_SessionID := Tool.SessionID result;
                                rr_DurationSeconds := Tool.DurationSeconds result |} in
              ((done ++ printed ++ deferred)%list, Return err)
            else
              let printed := humanOutput result in
              if negb (Tool.ExitCode result =? 0) then
                ((done ++ printed)%list, Exit (Tool.ExitCode result))
              else ((done ++ printed ++ deferred)%list, Return None)
        end
        end end end end end
    end.

(** An event that only writes to the terminal. *)
Definition writes (ev : Event) : Prop :=
  match ev with
  | Stdout _ | Stderr _ => True
  | _ => False
  end.

End RunCmd.

(** ** More concrete inputs *)

Module MoreScenarios.
Import Config.

(** RL-1: two requests per second, burst two, block sixty seconds. *)
Definition rl1_rule : RateLimitRule :=
  {| RequestsPerSecond := 2; RequestsPerMinute := 0;
     BurstSize := 2; BlockDuration := 60 * Second |}.

Definition rl1_cfg : RateLimitConfig :=
  {| rl_Enabled := true; rl_Backend := "memory"; rl_Default := rl1_rule;
     rl_PerTool := ∅; rl_TrustedProxies := [] |}.

Definition rl1_request : Middleware.Request :=
  {| Middleware.RemoteAddr := "192.168.1.1:50000";
     Middleware.Header := ∅;
     Middleware.URLPath := "/mcp";
     Middleware.Method := "POST" |}.

(** The limiter after the first two requests of RL-1. *)
Definition rl1_after_two : gmap string Middleware.inMemoryEntry :=
  snd (RateLimitHTTP.AllowEach ∅ "192.168.1.1" rl1_rule
         [Scenarios.still_clock; Scenarios.still_clock]).

(** A clock stopped ten minutes after the epoch. *)
Definition later_clock : Middleware.Clock :=
  {| Middleware.now_lastUsed := 600 * Second; Middleware.now_reset := 600 * Second;
     Middleware.now_tokens := 600 * Second; Middleware.now_allow := 600 * Second |}.

(** A proxy in JWT mode that knows one bearer string, the token of JWT-1,
    which carries no [sub] claim. *)
Definition jwt1_validate : string -> string + JWT.JWTClaims :=
  fun tokenString =>
    if String.eqb tokenString "t1"
    then JWT.Validate Scenarios.jwt1_validator (150 * Second)
                      (Scenarios.jwt1_token "https://idp" 200)
    else inl "parsing token".

(** No request is ever within this limit. *)
Definition closed_limit : Proxy.RateLimiterConfig :=
  {| Proxy.RequestsPerMinute := 60; Proxy.BurstSize := 0 |}.

Definition two_a_minute : Proxy.RateLimiterConfig :=
  {| Proxy.RequestsPerMinute := 2; Proxy.BurstSize := 2 |}.

Definition short_audit : Proxy.AuditorConfig :=
  {| Proxy.LogQueries := true; Proxy.MaxQueryLength := 8 |}.

Definition jwt_proxy : Proxy.Service :=
  {| Proxy.authenticator := Auth.jwtMiddleware jwt1_validate;
     Proxy.rateLimiter := Some closed_limit;
     Proxy.auditor := Some short_audit |}.

(** A proxy in token mode whose store holds one token. *)
Definition one_token_store : string -> string :=
  fun token => if String.eqb token "s3cr3t" then "exec-1" else "".

Definition token_proxy : Proxy.Service :=
  {| Proxy.authenticator := Auth.tokenMiddleware one_token_store;
     Proxy.rateLimiter := Some two_a_minute;
     Proxy.auditor := None |}.

Definition bearer_request (auth : string) : Middleware.Request :=
  {| Middleware.RemoteAddr := "10.0.0.9:40000";
     Middleware.Header := {[ "Authorization" := [auth] ]};
     Middleware.URLPath := "/prometheus/api/v1/query";
     Middleware.Method := "GET" |}.

Definition ok_handler (ctx : Auth.AuthContext) (r : Middleware.Request)
    : Auth.HTTPResponse :=
  {| Auth.status := 200; Auth.body := "{}" |}.

(** The limiters after one request of [exec-1] at second five. *)
Definition one_user_limiters : gmap string Middleware.Limiter :=
  snd (Proxy.Allow two_a_minute ∅ "exec-1" (5 * Second)).


(** The CBT configuration of the examples with [mainnet] listed a second
    time, for another upstream. *)
Definition cbt_configs_twice : list Handlers.CBTConfig :=
  Scenarios.cbt_configs
  ++ [ {| Handlers.Name := "mainnet"; Handlers.URL := "http://cbt2.internal:8080";
          Handlers.Timeout := 10 |} ].

(** A director of the library that only sets the URL host. *)
Definition to_upstream (req : CBTProxy.OutRequest) : CBTProxy.OutRequest :=
  {| CBTProxy.out_Header := CBTProxy.out_Header req;
     CBTProxy.out_URLPath := CBTProxy.out_URLPath req;
     CBTProxy.out_URLHost := "cbt.internal:8080";
     CBTProxy.out_Host := CBTProxy.out_Host req |}.

Definition sandbox_request (path : string) : CBTProxy.OutRequest :=
  {| CBTProxy.out_Header :=
       {[ "Authorization" := ["Bearer s3cr3t"]; "X-Datasource" := ["mainnet"] ]};
     CBTProxy.out_URLPath := path;
     CBTProxy.out_URLHost := "";
     CBTProxy.out_Host := "proxy:18081" |}.

(** The run command on a terminal, everything around it working, with a
    sandbox in which every program exits with status 3. *)
Definition run_flags : RunCmd.Flags :=
  {| RunCmd.runCode := "import sys; sys.exit(3)"; RunCmd.runFile := "";
     RunCmd.runSessionID := ""; RunCmd.runTimeout := 60; RunCmd.runJSON := false |}.

Definition run_world (terminal : bool) : RunCmd.Environment :=
  {| RunCmd.ReadFile := fun _ => inl "no such file or directory";
     RunCmd.loadConfigOrDefaults := None;
     RunCmd.buildProxyClient := None;
     RunCmd.buildPluginRegistry := None;
     RunCmd.buildSandboxService := None;
     RunCmd.buildSandboxEnv := inr ∅;
     RunCmd.uuid_New := "8c1f";
     RunCmd.RegisterToken := fun executionID => "tok-" +:+ executionID;
     RunCmd.Execute := fun req =>
       inr {| Tool.Stdout := ""; Tool.Stderr := "boom"; Tool.ExitCode := 3;
              Tool.ExecutionID := "x"; Tool.OutputFiles := [];
              Tool.DurationSeconds := 1; Tool.SessionID := "";
              Tool.SessionTTLRemaining := 0; Tool.SessionFiles := [] |};
     RunCmd.MarshalIndent := fun _ => inr "{}";
     RunCmd.isTerminal := terminal |}.

End MoreScenarios.

(** * Properties *)

(** *** Rule normalisation *)

Module ConfigFacts.
Import Config.

Lemma Qpositive_spec (x : Q) : Qpositive x = true <-> (0 < x)%Q.
Proof.
  unfold Qpositive. rewrite negb_true_iff.
  split.
  - intros H. apply Qnot_le_lt. intros Hle.
    apply Qle_bool_iff in Hle. congruence.
  - intros H. destruct (Qle_bool x 0) eqn:E; [|reflexivity].
    apply Qle_bool_iff in E. exfalso. exact (Qlt_not_le _ _ H E).
Qed.

(** The effective rate follows the three-way rule of the source. *)
Lemma GetRequestsPerSecond_cases (r : RateLimitRule) :
  ((0 < RequestsPerSecond r)%Q /\ GetRequestsPerSecond r = RequestsPerSecond r) \/
  (~ (0 < RequestsPerSecond r)%Q /\ 0 < RequestsPerMinute r /\
     GetRequestsPerSecond r = (inject_Z (RequestsPerMinute r) / 60)%Q) \/
  (~ (0 < RequestsPerSecond r)%Q /\ RequestsPerMinute r <= 0 /\
     GetRequestsPerSecond r = 1%Q).
Proof.
  unfold GetRequestsPerSecond.
  destruct (Qpositive (RequestsPerSecond r)) eqn:E.
  - left. split; [by apply Qpositive_spec|done].
  - right.
    assert (~ (0 < RequestsPerSecond r)%Q) as Hn.
    { intros H. apply Qpositive_spec in H. congruence. }
    destruct (0 <? RequestsPerMinute r) eqn:E2.
    + left. apply Z.ltb_lt in E2. done.
    + right. apply Z.ltb_ge in E2. done.
Qed.

Lemma GetBurstSize_ge_1 (r : RateLimitRule) : 1 <= GetBurstSize r.
Proof.
  unfold GetBurstSize.
  destruct (0 <? BurstSize r) eqn:E.
  - apply Z.ltb_lt in E. lia.
  - destruct (int_of_float (GetRequestsPerSecond r) <? 1) eqn:E2.
    + lia.
    + apply Z.ltb_ge in E2. lia.
Qed.

Lemma GetBlockDuration_cases (r : RateLimitRule) :
  (0 < BlockDuration r /\ GetBlockDuration r = BlockDuration r) \/
  (BlockDuration r <= 0 /\ GetBlockDuration r = 60 * Second).
Proof.
  unfold GetBlockDuration.
  destruct (0 <? BlockDuration r) eqn:E.
  - left. apply Z.ltb_lt in E. done.
  - right. apply Z.ltb_ge in E. done.
Qed.

(** C5. At the rule [{requests_per_second: 2.5}] with no burst configured,
    the effective rate is 2.5 and its ceiling is 3, but [GetBurstSize]
    returns 2: the default burst is the truncation [int(rate)], not the
    ceiling the source comment and the specification announce. *)
Theorem C5_default_burst_truncates :
  GetRequestsPerSecond fractional_rule = (5 # 2)%Q /\
  Qceiling (GetRequestsPerSecond fractional_rule) = 3 /\
  GetBurstSize fractional_rule = 2 /\
  GetBlockDuration fractional_rule = 60 * Second.
Proof. repeat split; reflexivity. Qed.

End ConfigFacts.


(** *** Client address resolution and the token bucket *)

Module MiddlewareFacts.
Import Config Middleware IPv4.

Lemma Split_nonempty (s : string) (sep : ascii) : GoStrings.Split s sep <> [].
Proof.
  destruct s as [|c s]; simpl; [discriminate|].
  destruct (Ascii.eqb c sep); [discriminate|].
  destruct (GoStrings.Split s sep); discriminate.
Qed.

Section ClientIP.
Context {net : NetLib}.
Variable cfg : RateLimitConfig.

Lemma getClientIP_untrusted (r : Request) :
  isTrustedProxy cfg (remoteIP r) = false -> getClientIP cfg r = remoteIP r.
Proof. intros H. unfold getClientIP. by rewrite H. Qed.

Lemma remoteIP_same_peer (r r' : Request) :
  RemoteAddr r' = RemoteAddr r -> remoteIP r' = remoteIP r.
Proof. intros H. unfold remoteIP. by rewrite H. Qed.

Lemma fromForwardedFor_spec (r : Request) :
  fromForwardedFor r =
  (if negb (String.eqb (Header_Get (Header r) "X-Forwarded-For") "")
      && negb (String.eqb (firstForwarded r) "")
   then Some (firstForwarded r) else None).
Proof.
  unfold fromForwardedFor, firstForwarded.
  destruct (negb (String.eqb (Header_Get (Header r) "X-Forwarded-For") "")); simpl;
    [|reflexivity].
  pose proof (Split_nonempty (Header_Get (Header r) "X-Forwarded-For") ",") as Hne.
  destruct (GoStrings.Split _ _) as [|ip0 rest]; [contradiction|]. simpl.
  reflexivity.
Qed.

(** C3. A peer outside the trusted-proxy list is its own client address,
    whatever forwarding headers the request carries: two requests from the
    same peer get the same rate-limit key.  Behind a trusted proxy the
    client address is the first forwarded-for entry when the header is set
    and that entry is not blank, else the real-ip header when set, else the
    peer. *)
Theorem C3_client_ip_resolution (r : Request) :
  (isTrustedProxy cfg (remoteIP r) = false ->
     getClientIP cfg r = remoteIP r /\
     forall r' toolName,
       RemoteAddr r' = RemoteAddr r ->
       getClientIP cfg r' = getClientIP cfg r /\
       rateLimitKey cfg toolName r' = rateLimitKey cfg toolName r) /\
  (isTrustedProxy cfg (remoteIP r) = true ->
     let xff := Header_Get (Header r) "X-Forwarded-For" in
     let xri := Header_Get (Header r) "X-Real-IP" in
     (xff <> "" -> firstForwarded r <> "" -> getClientIP cfg r = firstForwarded r) /\
     (xff = "" \/ firstForwarded r = "" ->
        (xri <> "" -> getClientIP cfg r = TrimSpace xri) /\
        (xri = "" -> getClientIP cfg r = remoteIP r))).
Proof.
  split.
  - intros Hu. split; [by apply getClientIP_untrusted|].
    intros r' toolName Hpeer.
    assert (getClientIP cfg r' = getClientIP cfg r) as Heq.
    { rewrite (getClientIP_untrusted r) by done.
      rewrite <- (remoteIP_same_peer r r' Hpeer).
      apply getClientIP_untrusted.
      by rewrite (remoteIP_same_peer r r' Hpeer). }
    split; [done|]. unfold rateLimitKey. by rewrite Heq.
  - intros Ht xff xri. unfold getClientIP. rewrite Ht.
    rewrite fromForwardedFor_spec. fold xff. fold xri.
    destruct (String.eqb_spec xff "") as [Hx|Hx];
      destruct (String.eqb_spec (firstForwarded r) "") as [Hf|Hf];
      destruct (String.eqb_spec xri "") as [Hr|Hr]; simpl;
      repeat split; intros; try congruence; try tauto;
      match goal with H : _ \/ _ |- _ => destruct H; congruence end.
Qed.

End ClientIP.

(** RL-2 of the specification, through the theorem. *)
Lemma C3_rl2_witness :
  getClientIP Scenarios.rl2_cfg Scenarios.rl2_direct = "8.8.8.8" /\
  getClientIP Scenarios.rl2_cfg Scenarios.rl2_proxied = "1.2.3.4".
Proof.
  split.
  - destruct (C3_client_ip_resolution Scenarios.rl2_cfg Scenarios.rl2_direct)
      as [Hu _].
    assert (isTrustedProxy Scenarios.rl2_cfg (remoteIP Scenarios.rl2_direct) = false)
      as Huntrusted by (vm_compute; reflexivity).
    destruct (Hu Huntrusted) as [-> _]. reflexivity.
  - destruct (C3_client_ip_resolution Scenarios.rl2_cfg Scenarios.rl2_proxied)
      as [_ Ht].
    assert (isTrustedProxy Scenarios.rl2_cfg (remoteIP Scenarios.rl2_proxied) = true)
      as Htrusted by (vm_compute; reflexivity).
    destruct (Ht Htrusted) as [Hxff _].
    rewrite Hxff.
    + reflexivity.
    + vm_compute. discriminate.
    + vm_compute. discriminate.
Defined.

(** *** The bucket *)

Lemma Qltb_spec (x y : Q) : Qltb x y = true <-> (x < y)%Q.
Proof.
  unfold Qltb. rewrite negb_true_iff. split.
  - intros H. apply Qnot_le_lt. intros Hle. apply Qle_bool_iff in Hle. congruence.
  - intros H. destruct (Qle_bool y x) eqn:E; [|reflexivity].
    apply Qle_bool_iff in E. exfalso. exact (Qlt_not_le _ _ H E).
Qed.

Lemma Qltb_false (x y : Q) : Qltb x y = false <-> (y <= x)%Q.
Proof. unfold Qltb. rewrite negb_false_iff. apply Qle_bool_iff. Qed.

Lemma int_of_float_one (x : Q) : (x == 1)%Q -> int_of_float x = 1.
Proof.
  unfold Qeq, int_of_float. simpl. intros H.
  replace (Qnum x) with (Z.pos (Qden x)) by lia.
  apply Z.quot_same. lia.
Qed.

Lemma elapsed_mono (lim : Limiter) (t1 t2 : Z) :
  t1 <= t2 -> elapsed lim t1 <= elapsed lim t2.
Proof.
  unfold elapsed. intros H.
  destruct (Z.ltb_spec t1 (lim_last lim)), (Z.ltb_spec t2 (lim_last lim)); lia.
Qed.

(** The bucket never holds more than its capacity. *)
Lemma advance_le_burst (lim : Limiter) (t : Z) :
  (advance lim t <= inject_Z (lim_burst lim))%Q.
Proof.
  unfold advance. cbv zeta.
  destruct (Qltb _ _) eqn:E.
  - apply Qle_refl.
  - by apply Qltb_false in E.
Qed.

Lemma tokensFromDuration_positive (limit : Q) (d : Z) :
  (0 < limit)%Q ->
  tokensFromDuration limit d = (inject_Z d / inject_Z Second * limit)%Q.
Proof.
  intros Hl. unfold tokensFromDuration.
  destruct (Qle_bool limit 0) eqn:E; [|reflexivity].
  apply Qle_bool_iff in E. lra.
Qed.

(** Whatever the limit, a longer wait never yields fewer tokens. *)
Lemma tokensFromDuration_mono (limit : Q) (d1 d2 : Z) :
  d1 <= d2 -> (tokensFromDuration limit d1 <= tokensFromDuration limit d2)%Q.
Proof.
  intros Hd. unfold tokensFromDuration.
  destruct (Qle_bool limit 0) eqn:E; [apply Qle_refl|].
  assert (0 <= limit)%Q as Hl.
  { destruct (Qlt_le_dec limit 0) as [Hn|]; [|done].
    assert (Qle_bool limit 0 = true) as Ht by (apply Qle_bool_iff; lra).
    congruence. }
  apply Qmult_le_compat_r; [|done].
  apply Qmult_le_compat_r; [|done].
  rewrite <- Zle_Qle. done.
Qed.

(** The count only grows while nothing is taken. *)
Lemma advance_grows (lim : Limiter) (t1 t2 : Z) :
  t1 <= t2 -> (advance lim t1 <= advance lim t2)%Q.
Proof.
  intros Ht.
  pose proof (elapsed_mono lim t1 t2 Ht) as He. unfold elapsed in He.
  unfold advance. cbv zeta.
  set (e1 := t1 - _) in *. set (e2 := t2 - _) in *.
  pose proof (tokensFromDuration_mono (lim_limit lim) e1 e2 He) as Hd.
  destruct (Qltb _ _) eqn:E1;
    destruct (Qltb _ (lim_tokens lim + tokensFromDuration _ e2)%Q) eqn:E2.
  - apply Qle_refl.
  - apply Qltb_spec in E1. apply Qltb_false in E2. lra.
  - apply Qltb_false in E1. done.
  - lra.
Qed.

(** With a non-negative rate the count only grows while nothing is taken. *)
Lemma advance_mono (lim : Limiter) (t1 t2 : Z) :
  (0 <= lim_limit lim)%Q -> t1 <= t2 -> (advance lim t1 <= advance lim t2)%Q.
Proof. intros _. apply advance_grows. Qed.

Lemma Limiter_Allow_admits (lim : Limiter) (t : Z) :
  (1 <= advance lim t)%Q ->
  Limiter_Allow lim t =
  (true, {| lim_limit := lim_limit lim; lim_burst := lim_burst lim;
            lim_tokens := (advance lim t - 1)%Q; lim_last := t |}).
Proof.
  intros H. unfold Limiter_Allow. cbv zeta.
  assert (Qltb (advance lim t - 1) 0 = false) as ->.
  { apply Qltb_false. lra. }
  assert ((1 <=? lim_burst lim) = true) as ->.
  { apply Z.leb_le. pose proof (advance_le_burst lim t) as Hb.
    assert (1 <= inject_Z (lim_burst lim))%Q as H1 by lra.
    change 1%Q with (inject_Z 1) in H1. by rewrite <- Zle_Qle in H1. }
  reflexivity.
Qed.

(** Every entry the limiter creates has a positive rate. *)
Lemma GetRequestsPerSecond_pos (rule : RateLimitRule) :
  (0 < GetRequestsPerSecond rule)%Q.
Proof.
  destruct (ConfigFacts.GetRequestsPerSecond_cases rule)
    as [[H ->]|[(_ & H & ->)|(_ & _ & ->)]].
  - exact H.
  - apply Qlt_shift_div_l; [reflexivity|].
    rewrite Qmult_0_l. change 0%Q with (inject_Z 0). by rewrite <- Zlt_Qlt.
  - reflexivity.
Qed.

(** C10. [Allow] reads the token count before it asks the bucket: the
    [Remaining] it reports is that count, truncated and clamped at zero,
    whether the request is then admitted or denied.  A request that finds
    exactly one token is admitted and reports 1, although the bucket it
    leaves behind holds one token less (none, if no time passed between the
    two readings of the clock). *)
Theorem C10_remaining_is_pre_consumption
    (limiters : gmap string inMemoryEntry) (key : string)
    (rule : RateLimitRule) (clk : Clock) :
  let entry := fst (getOrCreateEntry limiters key rule clk) in
  let pre := Tokens (limiter entry) (now_tokens clk) in
  let result := Allow limiters key rule clk in
  Remaining (snd (fst result)) = Z.max 0 (int_of_float pre) /\
  ((pre == 1)%Q -> (0 <= lim_limit (limiter entry))%Q ->
   now_tokens clk <= now_allow clk ->
   fst (fst result) = true /\
   Remaining (snd (fst result)) = 1 /\
   exists entry',
     snd result !! key = Some entry' /\
     (lim_tokens (limiter entry') ==
        advance (limiter entry) (now_allow clk) - 1)%Q /\
     (now_allow clk = now_tokens clk -> (lim_tokens (limiter entry') == 0)%Q)).
Proof.
  intros entry pre result.
  assert (Remaining (snd (fst result)) = Z.max 0 (int_of_float pre)) as Hrem.
  { subst result. unfold Allow.
    destruct (getOrCreateEntry limiters key rule clk) as [e m] eqn:Eg.
    subst entry pre. simpl.
    destruct (Limiter_Allow _ _) as [ok lim'].
    destruct ok; simpl;
      destruct (Z.ltb_spec (int_of_float (Tokens (limiter e) (now_tokens clk))) 0); lia. }
  split; [exact Hrem|].
  intros Hone Hlim Ht.
  assert (1 <= advance (limiter entry) (now_allow clk))%Q as Hge.
  { pose proof (advance_mono (limiter entry) _ _ Hlim Ht) as Hm.
    unfold pre, Tokens in Hone. lra. }
  subst result. unfold Allow in *.
  destruct (getOrCreateEntry limiters key rule clk) as [e m] eqn:Eg.
  subst entry. simpl in *.
  rewrite (Limiter_Allow_admits _ _ Hge) in *. simpl in *.
  split; [reflexivity|]. split.
  - rewrite Hrem. rewrite (int_of_float_one _ Hone). reflexivity.
  - eexists. split; [apply lookup_insert_eq|]. simpl. split; [reflexivity|].
    intros ->. unfold pre, Tokens in Hone. lra.
Qed.

(** A fresh key under a rule with burst one: admitted, one reported. *)
Lemma C10_first_request_witness :
  let result := Allow ∅ "203.0.113.7" Scenarios.plain_rule Scenarios.still_clock in
  fst (fst result) = true /\ Remaining (snd (fst result)) = 1.
Proof.
  intros result.
  destruct (C10_remaining_is_pre_consumption
              ∅ "203.0.113.7" Scenarios.plain_rule Scenarios.still_clock)
    as [_ H].
  destruct H as (Ha & Hr & _).
  - vm_compute. reflexivity.
  - vm_compute. discriminate.
  - vm_compute. discriminate.
  - split; [exact Ha | exact Hr].
Defined.

End MiddlewareFacts.

(** *** The JWKS cache and token validation *)

Module JWTFacts.
Import Config JWT.

Lemma cacheKey_sound (acc : gmap string PublicKey) (key : jwkKey)
    (kid : string) (pk : PublicKey) :
  cacheKey acc key !! kid = Some pk ->
  acc !! kid = Some pk \/ (Kid key = kid /\ cached key pk).
Proof.
  unfold cacheKey, cached.
  destruct (String.eqb_spec (Kty key) "RSA") as [Hk|Hk];
    destruct (String.eqb_spec (Use key) "sig") as [Hu|Hu]; simpl; auto.
  destruct (parseRSAPublicKey key) as [pubKey|] eqn:Hp; auto.
  destruct (decide (Kid key = kid)) as [<-|Hne].
  - rewrite lookup_insert_eq. intros [= <-]. auto.
  - rewrite lookup_insert_ne by done. auto.
Qed.

Lemma cacheKey_keeps (acc : gmap string PublicKey) (key : jwkKey) (kid : string) :
  is_Some (acc !! kid) -> is_Some (cacheKey acc key !! kid).
Proof.
  unfold cacheKey. intros H.
  destruct (negb _ || negb _); [done|].
  destruct (parseRSAPublicKey key); [|done].
  destruct (decide (Kid key = kid)) as [<-|Hne].
  - rewrite lookup_insert_eq. eauto.
  - by rewrite lookup_insert_ne.
Qed.

Lemma cacheKey_adds (acc : gmap string PublicKey) (key : jwkKey) (pk : PublicKey) :
  cached key pk -> cacheKey acc key !! Kid key = Some pk.
Proof.
  intros (Hk & Hu & Hp). unfold cacheKey. rewrite Hk, Hu, Hp. simpl.
  apply lookup_insert_eq.
Qed.

Lemma fold_cacheKey_sound (jwks : list jwkKey) :
  forall (acc : gmap string PublicKey) (kid : string) (pk : PublicKey),
    fold_left cacheKey jwks acc !! kid = Some pk ->
    acc !! kid = Some pk \/
    exists key, key ∈ jwks /\ Kid key = kid /\ cached key pk.
Proof.
  induction jwks as [|key rest IH]; intros acc kid pk; simpl.
  - auto.
  - intros H. destruct (IH _ _ _ H) as [Hacc|(key' & Hin & Hkid & Hc)].
    + destruct (cacheKey_sound _ _ _ _ Hacc) as [?|[Hkid Hc]]; [auto|].
      right. exists key. split; [left|]; done.
    + right. exists key'. split; [by right|done].
Qed.

Lemma fold_cacheKey_keeps (jwks : list jwkKey) :
  forall (acc : gmap string PublicKey) (kid : string),
    is_Some (acc !! kid) -> is_Some (fold_left cacheKey jwks acc !! kid).
Proof.
  induction jwks as [|key rest IH]; intros acc kid H; simpl; [done|].
  apply IH. by apply cacheKey_keeps.
Qed.

Lemma fold_cacheKey_complete (jwks : list jwkKey) :
  forall (acc : gmap string PublicKey) (key : jwkKey) (pk : PublicKey),
    key ∈ jwks -> cached key pk ->
    is_Some (fold_left cacheKey jwks acc !! Kid key).
Proof.
  induction jwks as [|k rest IH]; intros acc key pk Hin Hc; simpl.
  - by apply elem_of_nil in Hin.
  - apply elem_of_cons in Hin as [->|Hin].
    + apply fold_cacheKey_keeps. rewrite (cacheKey_adds _ _ _ Hc). eauto.
    + by eapply IH.
Qed.

(** A refresh that reports an error leaves the validator as it was. *)
Lemma refreshJWKS_failure_keeps (v : jwtValidator) (f : Fetch) :
  fst (refreshJWKS v f) <> None -> snd (refreshJWKS v f) = v.
Proof.
  destruct f as [| |status [jwks|]]; simpl; try reflexivity.
  - destruct (negb (status =? 200)); simpl; [reflexivity | congruence].
  - destruct (negb (status =? 200)); reflexivity.
Qed.

(** The refresh loop keeps the last good map through any run of failed
    ticks (whether a tick fails does not depend on the validator). *)
Lemma refreshLoop_failed_ticks (v : jwtValidator) (ticks : list Fetch) :
  Forall (fun f => forall v', fst (refreshJWKS v' f) <> None) ticks ->
  refreshLoop v ticks = v.
Proof.
  unfold refreshLoop.
  induction ticks as [|f rest IH]; intros Hall; simpl; [reflexivity|].
  apply Forall_cons in Hall as [Hf Hrest].
  rewrite (refreshJWKS_failure_keeps v f (Hf v)). by apply IH.
Qed.

(** C6, as the code has it.  A refresh fails exactly when the fetch is not
    a 200 response with a decodable body, and then the validator is
    unchanged.  A refresh that succeeds replaces the key map by one built
    from the response alone: every key in it comes from an entry with
    kty RSA and use sig whose modulus and exponent decode, and every such
    entry has its kid in the map. *)
Theorem C6_refresh_replaces_or_preserves (v : jwtValidator) (f : Fetch) :
  (fst (refreshJWKS v f) <> None -> snd (refreshJWKS v f) = v) /\
  (fst (refreshJWKS v f) = None ->
     exists jwks,
       f = Response 200 (Some jwks) /\
       cfg (snd (refreshJWKS v f)) = cfg v /\
       (forall kid pk,
          keys (snd (refreshJWKS v f)) !! kid = Some pk ->
          exists key, key ∈ jwks /\ Kid key = kid /\ cached key pk) /\
       (forall key pk,
          key ∈ jwks -> cached key pk ->
          is_Some (keys (snd (refreshJWKS v f)) !! Kid key))).
Proof.
  destruct f as [| |status [jwks|]]; simpl;
    try (split; [reflexivity | discriminate]).
  - destruct (Z.eqb_spec status 200) as [->|Hs]; simpl.
    + split; [congruence|]. intros _. exists jwks. repeat split.
      * intros kid pk H.
        destruct (fold_cacheKey_sound _ _ _ _ H) as [He|?]; [|done].
        by rewrite lookup_empty in He.
      * intros key pk Hin Hc. by eapply fold_cacheKey_complete.
    + split; [reflexivity | discriminate].
  - destruct (negb (status =? 200)); simpl; (split; [reflexivity | discriminate]).
Qed.

(** One successful refresh with three entries: only the first is kept. *)
Lemma C6_refresh_witness :
  keys (snd (refreshJWKS Scenarios.jwt1_validator
               (Response 200 (Some [Scenarios.jwk_good; Scenarios.jwk_bad_modulus;
                                    Scenarios.jwk_encryption]))))
       !! "k1" <> None /\
  snd (refreshJWKS Scenarios.jwt1_validator TransportError) = Scenarios.jwt1_validator.
Proof.
  split.
  - destruct (C6_refresh_replaces_or_preserves Scenarios.jwt1_validator
                (Response 200 (Some [Scenarios.jwk_good; Scenarios.jwk_bad_modulus;
                                     Scenarios.jwk_encryption]))) as [_ H].
    destruct H as (jwks & Hf & _ & _ & Hall); [reflexivity|].
    injection Hf as <-.
    destruct (Hall Scenarios.jwk_good Scenarios.key_good) as [pk Hpk].
    + apply elem_of_cons. by left.
    + repeat split.
    + change (Kid Scenarios.jwk_good) with "k1" in Hpk. congruence.
  - destruct (C6_refresh_replaces_or_preserves Scenarios.jwt1_validator TransportError)
      as [H _].
    apply H. discriminate.
Defined.

(** C6, as stated, fails: a 200 response whose only entry is an RSA
    signing key with an undecodable modulus is a successful refresh, the
    entry is not in the map afterwards, and the previously cached key is
    gone: the refresh emptied the map. *)
Lemma C6_unparseable_key_is_dropped :
  let v := Scenarios.jwt1_validator in
  let f := Response 200 (Some [Scenarios.jwk_bad_modulus]) in
  keys v !! "k1" = Some Scenarios.key_good /\
  fst (refreshJWKS v f) = None /\
  Kty Scenarios.jwk_bad_modulus = "RSA" /\
  Use Scenarios.jwk_bad_modulus = "sig" /\
  keys (snd (refreshJWKS v f)) !! Kid Scenarios.jwk_bad_modulus = None /\
  keys (snd (refreshJWKS v f)) = ∅.
Proof. vm_compute. repeat split. Qed.

(** *** Validate *)

Lemma slices_Contains_spec (l : list string) (x : string) :
  slices_Contains l x = true <-> x ∈ l.
Proof.
  unfold slices_Contains. rewrite existsb_exists. split.
  - intros (y & Hin & Heq). apply String.eqb_eq in Heq. subst y.
    by apply list_elem_of_In.
  - intros Hin. exists x. split; [by apply list_elem_of_In|apply String.eqb_refl].
Qed.

Lemma hasAllowedOrg_spec (groups allowedOrgs : list string) :
  hasAllowedOrg groups allowedOrgs = true <->
  exists org, org ∈ allowedOrgs /\ org ∈ groups.
Proof.
  induction allowedOrgs as [|org rest IH]; simpl.
  - split; [discriminate|]. intros (org & Hin & _). by apply elem_of_nil in Hin.
  - destruct (slices_Contains groups org) eqn:E.
    + split; [|done]. intros _. exists org. split; [left|].
      by apply slices_Contains_spec.
    + rewrite IH. split.
      * intros (o & Hin & Hg). exists o. split; [by right|done].
      * intros (o & Hin & Hg). apply elem_of_cons in Hin as [->|Hin].
        -- apply slices_Contains_spec in Hg. congruence.
        -- eauto.
Qed.

Lemma validateClaims_spec (now : Z) (claims : gmap string JSON) :
  validateClaims now claims = true <-> dates_ok now claims.
Proof.
  unfold validateClaims, dates_ok, date_ok.
  destruct (parseNumericDate claims "exp") as [[]|[e|]];
    destruct (parseNumericDate claims "nbf") as [[]|[n|]];
    rewrite ?andb_true_iff, ?Z.ltb_lt, ?Z.leb_le; intuition (try discriminate).
Qed.

Lemma Parse_spec (v : jwtValidator) (now : Z) (tokenString : JWTString)
    (claims : gmap string JSON) :
  Parse v now tokenString = Some claims <->
  signature_ok v tokenString /\ dates_ok now claims /\
  tokenString <> Malformed /\ claims = claimsOf tokenString.
Proof.
  destruct tokenString as [|header cl verifies]; simpl.
  - split; [discriminate | tauto].
  - unfold keyFunc.
    destruct (header !! "alg") as [[| | |alg| |]|] eqn:Ealg;
      try (split; [discriminate | intros [[[=] _] _]]).
    destruct (String.eqb_spec alg "RS256") as [->|Hne]; simpl.
    2:{ split; [discriminate | intros [[[= ->] _] _]; contradiction]. }
    destruct (header !! "kid") as [[| | |kid| |]|] eqn:Ekid;
      try (split; [discriminate | intros [[_ (k & key & [=] & _)] _]]).
    destruct (keys v !! kid) as [key|] eqn:Ekey.
    2:{ split; [discriminate|].
        intros [[_ (k & key & [= <-] & Hk & _)] _]. congruence. }
    destruct (verifies key) eqn:Ever; simpl.
    2:{ split; [discriminate|].
        intros [[_ (k & key' & [= <-] & Hk & Hv)] _]. congruence. }
    destruct (validateClaims now cl) eqn:Eval; simpl.
    + apply validateClaims_spec in Eval. split.
      * intros [= <-]. split; [split; [reflexivity|]; by exists kid, key|].
        repeat split; [apply Eval.. | discriminate].
      * intros (_ & _ & _ & ->). reflexivity.
    + split; [discriminate|].
      intros (_ & Hd & _ & ->). apply validateClaims_spec in Hd. congruence.
Qed.

Lemma issuer_check (v : jwtValidator) (c : gmap string JSON) :
  negb (String.eqb (Issuer (cfg v)) "")
  && negb (String.eqb (getString c "iss") (Issuer (cfg v))) = false <->
  issuer_ok v c.
Proof.
  unfold issuer_ok.
  destruct (String.eqb_spec (Issuer (cfg v)) "");
    destruct (String.eqb_spec (getString c "iss") (Issuer (cfg v))); simpl;
    intuition congruence.
Qed.

Lemma audience_check (v : jwtValidator) (c : gmap string JSON) :
  negb (String.eqb (Audience (cfg v)) "")
  && negb (containsAudience (extractAudience c) (Audience (cfg v))) = false <->
  audience_ok v c.
Proof.
  unfold audience_ok, containsAudience.
  destruct (String.eqb_spec (Audience (cfg v)) ""); simpl; [intuition|].
  rewrite negb_false_iff, slices_Contains_spec. intuition.
Qed.

Lemma groups_check (v : jwtValidator) (c : gmap string JSON) :
  (0 <? Z.of_nat (length (AllowedOrgs (cfg v))))
  && negb (hasAllowedOrg (tokenGroups c) (AllowedOrgs (cfg v))) = false <->
  groups_ok v c.
Proof.
  unfold groups_ok.
  destruct (AllowedOrgs (cfg v)) as [|org orgs].
  - simpl. intuition.
  - replace (0 <? Z.of_nat (length (org :: orgs))) with true
      by (symmetry; apply Z.ltb_lt; simpl; lia).
    rewrite andb_true_l, negb_false_iff, hasAllowedOrg_spec.
    intuition discriminate.
Qed.

(** C2, as the code has it.  [Validate] returns claims exactly when the
    four conditions of the specification hold and, in addition, the token's
    [exp] and [nbf] claims, when present, are numbers with [now] before the
    expiry and not before the not-before time. *)
Theorem C2_validate_accepts_iff (v : jwtValidator) (now : Z) (tokenString : JWTString) :
  (exists claims, Validate v now tokenString = inr claims) <->
  accepted_as_stated v tokenString /\ dates_ok now (claimsOf tokenString).
Proof.
  unfold Validate, accepted_as_stated.
  destruct (Parse v now tokenString) as [claims|] eqn:EP.
  - apply Parse_spec in EP as (Hsig & Hdates & _ & ->).
    set (c := claimsOf tokenString) in *.
    rewrite <- (issuer_check v c), <- (audience_check v c), <- (groups_check v c).
    cbv zeta. simpl Groups.
    destruct (negb (String.eqb (Issuer (cfg v)) "") && _) eqn:E1.
    { split; [intros [? [=]] | intros [(_ & [=] & _) _]]. }
    destruct (negb (String.eqb (Audience (cfg v)) "") && _) eqn:E2.
    { split; [intros [? [=]] | intros [(_ & _ & [=] & _) _]]. }
    destruct ((0 <? Z.of_nat (length (AllowedOrgs (cfg v)))) && _) eqn:E3.
    { split; [intros [? [=]] | intros [(_ & _ & _ & [=]) _]]. }
    split; [intros _; repeat split; auto; apply Hdates | eauto].
  - split; [intros [? [=]]|].
    intros [(Hsig & _) Hd].
    assert (Parse v now tokenString = Some (claimsOf tokenString)) as HP.
    { apply Parse_spec. split; [done|]. split; [done|]. split; [|done].
      intros ->. exact Hsig. }
    congruence.
Qed.

(** C2, as stated, fails: a token whose signature verifies under the cached
    key, with the configured issuer and an allowed organisation, satisfies
    the four conditions of the specification and is rejected once its
    expiry has passed. *)
Lemma C2_expired_token_is_rejected :
  let v := Scenarios.jwt1_validator in
  let token := Scenarios.jwt1_token "https://idp" 200 in
  accepted_as_stated v token /\
  Validate v (250 * Second) token = inl "parsing token" /\
  (exists claims, Validate v (150 * Second) token = inr claims).
Proof.
  split; [|split].
  - repeat split.
    + exists "k1", Scenarios.key_good. repeat split.
    + right. reflexivity.
    + left. reflexivity.
    + right. exists "ethpandaops". split.
      * apply elem_of_cons. by left.
      * apply elem_of_cons. by left.
  - vm_compute. reflexivity.
  - eexists. vm_compute. reflexivity.
Qed.

End JWTFacts.

(** *** Authentication failures *)

Module AuthFacts.
Import GoStrings Auth.

(** C4, as the code has it.  Whenever either authenticator answers a
    request itself, the status is 401.  The body names the shape of the
    header when the header is missing or is not a bearer header; for every
    bearer header the response is the one generic message, whatever made
    the token invalid. *)
Theorem C4_auth_failures_are_401
    (store_Validate : string -> string)
    (validate : string -> string + JWT.JWTClaims)
    (auth : string) (resp : HTTPResponse) :
  tokenMiddleware store_Validate auth = Respond resp \/
  jwtMiddleware validate auth = Respond resp ->
  status resp = StatusUnauthorized /\
  (auth = "" -> resp = http_Error "missing Authorization header" StatusUnauthorized) /\
  (auth <> "" -> HasPrefix auth "Bearer " = false ->
     resp = http_Error "invalid Authorization header format" StatusUnauthorized) /\
  (HasPrefix auth "Bearer " = true ->
     resp = http_Error "invalid or expired token" StatusUnauthorized /\
     body resp = genericBody).
Proof.
  unfold tokenMiddleware, jwtMiddleware.
  destruct (String.eqb_spec auth "") as [->|Hne].
  - intros [[= <-]|[= <-]]; repeat split; try congruence; discriminate.
  - destruct (HasPrefix auth "Bearer ") eqn:Hp; simpl.
    + intros [H|H].
      * destruct (String.eqb (store_Validate _) ""); [|discriminate].
        injection H as <-. repeat split; congruence.
      * destruct (validate _); [|discriminate].
        injection H as <-. repeat split; congruence.
    + intros [[= <-]|[= <-]]; repeat split; congruence.
Qed.

(** A bearer token that the validator rejects as expired. *)
Lemma C4_rejected_bearer_witness :
  jwtMiddleware Scenarios.reject_all "Bearer abc"
  = Respond (http_Error "invalid or expired token" 401).
Proof.
  destruct (jwtMiddleware Scenarios.reject_all "Bearer abc") as [resp|ctx] eqn:E.
  - destruct (C4_auth_failures_are_401 Scenarios.empty_store Scenarios.reject_all
                "Bearer abc" resp (or_intror E)) as (_ & _ & _ & H).
    destruct H as [-> _]; reflexivity.
  - vm_compute in E. discriminate.
Defined.

(** C4, as stated, fails: a request without an [Authorization] header, and
    one with a header that is not a bearer header, are answered with 401
    but with bodies of their own, which differ from the generic one. *)
Lemma C4_missing_header_has_its_own_body :
  jwtMiddleware Scenarios.reject_all ""
    = Respond (http_Error "missing Authorization header" 401) /\
  tokenMiddleware Scenarios.empty_store ""
    = Respond (http_Error "missing Authorization header" 401) /\
  jwtMiddleware Scenarios.reject_all "Basic dXNlcjpwYXNz"
    = Respond (http_Error "invalid Authorization header format" 401) /\
  body (http_Error "missing Authorization header" 401) <> genericBody /\
  body (http_Error "invalid Authorization header format" 401) <> genericBody.
Proof. repeat split; discriminate. Qed.

End AuthFacts.

(** *** The CBT handler *)

Module HandlersFacts.
Import Handlers.

Section CBT.
Context {urls : URLLib}.



Lemma fold_instances_lookup (configs : list CBTConfig) :
  forall (acc : gmap string cbtInstance) (name : string) (inst : cbtInstance),
    fold_left (fun instances cfg => <[Name cfg := createInstance cfg]> instances)
              configs acc !! name = Some inst ->
    acc !! name = Some inst \/
    exists cfg, cfg ∈ configs /\ Name cfg = name /\ inst = createInstance cfg.
Proof.
  induction configs as [|c rest IH]; intros acc name inst; simpl; [auto|].
  intros H. destruct (IH _ _ _ H) as [Hacc|(cfg & Hin & Hn & ->)].
  - destruct (decide (Name c = name)) as [<-|Hne].
    + rewrite lookup_insert_eq in Hacc. injection Hacc as <-.
      right. exists c. split; [left|]; done.
    + rewrite lookup_insert_ne in Hacc by done. auto.
  - right. exists cfg. split; [by right|done].
Qed.

Lemma fold_instances_keeps (configs : list CBTConfig) :
  forall (acc : gmap string cbtInstance) (name : string),
    is_Some (acc !! name) ->
    is_Some (fold_left (fun instances cfg => <[Name cfg := createInstance cfg]> instances)
                       configs acc !! name).
Proof.
  induction configs as [|c rest IH]; intros acc name H; simpl; [done|].
  apply IH. destruct (decide (Name c = name)) as [<-|Hne].
  - rewrite lookup_insert_eq. eauto.
  - by rewrite lookup_insert_ne.
Qed.

(** Every configured name gets an instance, parsable URL or not. *)
Lemma NewCBTHandler_registers (configs : list CBTConfig) (cfg : CBTConfig) :
  cfg ∈ configs -> is_Some (NewCBTHandler configs !! Name cfg).
Proof.
  unfold NewCBTHandler. generalize (∅ : gmap string cbtInstance).
  induction configs as [|c rest IH]; intros acc Hin; simpl.
  - by apply elem_of_nil in Hin.
  - apply elem_of_cons in Hin as [->|Hin].
    + apply fold_instances_keeps. rewrite lookup_insert_eq. eauto.
    + by apply IH.
Qed.

Lemma NewCBTHandler_lookup (configs : list CBTConfig) (name : string)
    (inst : cbtInstance) :
  NewCBTHandler configs !! name = Some inst ->
  exists cfg, cfg ∈ configs /\ Name cfg = name /\ inst = createInstance cfg.
Proof.
  intros H. destruct (fold_instances_lookup _ _ _ _ H) as [He|?]; [|done].
  by rewrite lookup_empty in He.
Qed.


End CBT.


(** The model of the S3 handler on the cases of its test: the four methods
    against the upstream of the test, the path without a bucket, and the
    handler without a configuration. *)
Lemma S3_ServeHTTP_test_cases :
  let serve := fun method path =>
    S3.ServeHTTP Scenarios.s3_test_handler Scenarios.s3_test_upstream
      {| Middleware.RemoteAddr := "192.0.2.1:1234"; Middleware.Header := ∅;
         Middleware.URLPath := path; Middleware.Method := method |} in
  serve "GET" "/s3/test-bucket/file.txt" = 200 /\
  serve "PUT" "/s3/test-bucket/file.txt" = 200 /\
  serve "HEAD" "/s3/test-bucket/file.txt" = 200 /\
  serve "DELETE" "/s3/test-bucket/file.txt" = 204 /\
  serve "GET" "/s3/" = 400 /\
  S3.ServeHTTP {| S3.s3_cfg := None |} Scenarios.s3_test_upstream
    {| Middleware.RemoteAddr := "192.0.2.1:1234"; Middleware.Header := ∅;
       Middleware.URLPath := "/s3/test/file.txt"; Middleware.Method := "GET" |} = 503.
Proof. vm_compute. repeat split. Qed.


End HandlersFacts.

(** *** execute_python *)

Module ToolFacts.
Import Config GoStrings Tool.

Lemma append_cons (x : ascii) (a b : string) : String x a +:+ b = String x (a +:+ b).
Proof. reflexivity. Qed.

Lemma append_assoc (a b c : string) : (a +:+ b) +:+ c = a +:+ (b +:+ c).
Proof. induction a as [|x a IH]; [reflexivity|]. by rewrite !append_cons, IH. Qed.

Lemma append_nil_r (a : string) : a +:+ "" = a.
Proof. induction a as [|x a IH]; [reflexivity|]. by rewrite append_cons, IH. Qed.

Lemma occurs_in_refl (x : string) : occurs_in x x.
Proof. exists "", "". by rewrite append_nil_r. Qed.

Lemma occurs_in_empty (s : string) : occurs_in "" s.
Proof. exists "", s. reflexivity. Qed.

Lemma occurs_in_app_l (x s t : string) : occurs_in x s -> occurs_in x (s +:+ t).
Proof.
  intros (a & b & ->). exists a, (b +:+ t). by rewrite !append_assoc.
Qed.

Lemma occurs_in_app_r (x s t : string) : occurs_in x t -> occurs_in x (s +:+ t).
Proof.
  intros (a & b & ->). exists (s +:+ a), b. by rewrite !append_assoc.
Qed.

Lemma occurs_in_Join (x p sep : string) (parts : list string) :
  p ∈ parts -> occurs_in x p -> occurs_in x (Join parts sep).
Proof.
  unfold Join. intros Hin Hx.
  induction parts as [|q rest IH]; [by apply elem_of_nil in Hin|].
  destruct rest as [|q' rest'].
  - apply elem_of_cons in Hin as [->|Hin]; [exact Hx|by apply elem_of_nil in Hin].
  - change (String.concat sep (q :: q' :: rest'))
      with (q +:+ sep +:+ String.concat sep (q' :: rest')).
    apply elem_of_cons in Hin as [->|Hin].
    + by apply occurs_in_app_l.
    + apply occurs_in_app_r, occurs_in_app_r. by apply IH.
Qed.

Lemma elem_of_append_old {A : Type} (x y : A) (l : list A) : x ∈ l -> x ∈ append l y.
Proof. unfold append. intros H. apply elem_of_app. by left. Qed.

Lemma elem_of_append_new {A : Type} (y : A) (l : list A) : y ∈ append l y.
Proof. unfold append. apply elem_of_app. right. apply elem_of_cons. by left. Qed.

Section Handler.
Context {fmtlib : FmtLib} {sandboxSvc : Service}.
Variable cfg : Config.

(** Closes a goal [p ∈ parts] where [parts] is the list
    [formatExecutionResult] builds, case by case on what is present. *)
Ltac in_parts :=
  repeat match goal with
         | |- context [if ?c then _ else _] => destruct c
         | |- context [match Storage cfg with _ => _ end] => destruct (Storage cfg)
         end;
  repeat first [ apply elem_of_append_new | apply elem_of_append_old ].

Lemma formatExecutionResult_exit (result : ExecutionResult) :
  occurs_in ("exit=" +:+ pretty (ExitCode result)) (formatExecutionResult result cfg).
Proof.
  unfold formatExecutionResult. cbv zeta.
  eapply (occurs_in_Join _
            ("[exit=" +:+ pretty (ExitCode result) +:+ " duration="
             +:+ fmt_f2 (DurationSeconds result) +:+ "s id="
             +:+ ExecutionID result +:+ "]")).
  - in_parts.
  - exists "[", (" duration=" +:+ fmt_f2 (DurationSeconds result) +:+ "s id="
                 +:+ ExecutionID result +:+ "]").
    by rewrite !append_assoc.
Qed.

Lemma formatExecutionResult_stdout (result : ExecutionResult) :
  occurs_in (Stdout result) (formatExecutionResult result cfg).
Proof.
  destruct (String.eqb_spec (Stdout result) "") as [->|Hne];
    [apply occurs_in_empty|].
  unfold formatExecutionResult. cbv zeta.
  apply String.eqb_neq in Hne. rewrite Hne. simpl negb. cbv iota.
  eapply (occurs_in_Join _ ("[stdout]" +:+ LF +:+ Stdout result)).
  - in_parts.
  - apply occurs_in_app_r, occurs_in_app_r, occurs_in_refl.
Qed.

Lemma formatExecutionResult_stderr (result : ExecutionResult) :
  occurs_in (Stderr result) (formatExecutionResult result cfg).
Proof.
  destruct (String.eqb_spec (Stderr result) "") as [->|Hne];
    [apply occurs_in_empty|].
  unfold formatExecutionResult. cbv zeta.
  apply String.eqb_neq in Hne. rewrite Hne. simpl negb. cbv iota.
  eapply (occurs_in_Join _ ("[stderr]" +:+ LF +:+ Stderr result)).
  - in_parts.
  - apply occurs_in_app_r, occurs_in_app_r, occurs_in_refl.
Qed.

(** C8. Once the arguments are accepted, the handler reports an error
    result exactly when [Execute] itself returns an error.  When [Execute]
    returns a result, whatever its exit code, the handler returns a success
    result whose text contains the standard output, the standard error and
    the exit code. *)
Theorem C8_nonzero_exit_is_success (w : World) (user : option Z)
    (request : CallToolRequest) (code : string) :
  arg_code request = inr code -> code <> "" ->
  MinTimeout <= effectiveTimeout cfg request <= MaxTimeout ->
  let req := executeRequest cfg code (effectiveTimeout cfg request) user request in
  let out := fst (executePython cfg w user request) in
  (forall result,
     Execute req = inr result ->
     IsError out = false /\
     occurs_in (Stdout result) (Text out) /\
     occurs_in (Stderr result) (Text out) /\
     occurs_in ("exit=" +:+ pretty (ExitCode result)) (Text out)) /\
  (IsError out = true <-> exists err, Execute req = inl err).
Proof.
  intros Hcode Hne [Hlo Hhi] req out. subst out. unfold executePython.
  rewrite Hcode. apply String.eqb_neq in Hne. rewrite Hne.
  assert ((effectiveTimeout cfg request <? MinTimeout)
          || (MaxTimeout <? effectiveTimeout cfg request) = false) as ->.
  { apply orb_false_iff. split; [apply Z.ltb_ge | apply Z.ltb_ge]; lia. }
  cbv zeta. fold req.
  destruct (Execute req) as [err|result] eqn:Eexec; simpl.
  - split; [intros ? [=]|]. split; eauto.
  - split.
    + intros ? [= <-].
      destruct (negb (bool_decide _)); simpl;
        repeat split;
        try apply occurs_in_app_l;
        auto using formatExecutionResult_stdout, formatExecutionResult_stderr,
                   formatExecutionResult_exit.
    + split; [discriminate | intros [? [=]]].
Qed.

(** C9. When the effective timeout is below 1 or above 300 the handler
    returns an error result and leaves the world as it was: nothing was
    handed to the sandbox.  [Config.Validate] accepts every sandbox timeout
    up to 600, so a configuration it accepts with a timeout above 300 makes
    every call without a timeout argument fail that way. *)
Theorem C9_timeout_out_of_range_is_rejected (w : World) (user : option Z)
    (request : CallToolRequest) :
  (effectiveTimeout cfg request < MinTimeout \/
   MaxTimeout < effectiveTimeout cfg request ->
     IsError (fst (executePython cfg w user request)) = true /\
     snd (executePython cfg w user request) = w) /\
  (sb_Image (Sandbox cfg) <> "" -> sb_Timeout (Sandbox cfg) <= MaxSandboxTimeout ->
     Config.Validate cfg = None) /\
  (Config.Validate cfg = None -> MaxTimeout < sb_Timeout (Sandbox cfg) ->
   arg_timeout request = None ->
     IsError (fst (executePython cfg w user request)) = true /\
     snd (executePython cfg w user request) = w /\
     executed (snd (executePython cfg w user request)) = executed w).
Proof.
  assert (effectiveTimeout cfg request < MinTimeout \/
          MaxTimeout < effectiveTimeout cfg request ->
          IsError (fst (executePython cfg w user request)) = true /\
          snd (executePython cfg w user request) = w) as Hrange.
  { intros Hout. unfold executePython.
    destruct (arg_code request) as [err|code]; [done|].
    destruct (String.eqb code ""); [done|].
    assert ((effectiveTimeout cfg request <? MinTimeout)
            || (MaxTimeout <? effectiveTimeout cfg request) = true) as ->; [|done].
    apply orb_true_iff. destruct Hout; [left; by apply Z.ltb_lt | right; by apply Z.ltb_lt]. }
  split; [exact Hrange|]. split.
  - intros Himg Hto. unfold Config.Validate.
    apply String.eqb_neq in Himg. rewrite Himg.
    assert ((MaxSandboxTimeout <? sb_Timeout (Sandbox cfg)) = false) as ->; [|done].
    apply Z.ltb_ge. lia.
  - intros _ Hbig Hnone.
    destruct Hrange as [He Hw].
    { right. unfold effectiveTimeout, GetInt. by rewrite Hnone. }
    rewrite Hw. done.
Qed.

End Handler.

#[local] Existing Instance Scenarios.plain_fmt.
#[local] Existing Instance Scenarios.exit3_sandbox.

(** A child that exits with status 3 under the default timeout. *)
Lemma C8_exit3_witness :
  let out := fst (executePython (Scenarios.config_with_credentials 60)
                    Scenarios.fresh_world None (Scenarios.call None)) in
  IsError out = false /\ occurs_in "exit=3" (Text out).
Proof.
  intros out.
  destruct (C8_nonzero_exit_is_success (Scenarios.config_with_credentials 60)
              Scenarios.fresh_world None (Scenarios.call None)
              "import sys; sys.exit(3)") as [H _].
  - reflexivity.
  - discriminate.
  - vm_compute. split; discriminate.
  - destruct (H _ eq_refl) as (He & _ & _ & Hx). split; [exact He | exact Hx].
Defined.

(** A configuration that passes validation with a timeout of 600 seconds:
    a call without a timeout argument is refused, nothing is executed. *)
Lemma C9_configured_600_witness :
  Config.Validate (Scenarios.config_with_credentials 600) = None /\
  IsError (fst (executePython (Scenarios.config_with_credentials 600)
                  Scenarios.fresh_world None (Scenarios.call None))) = true /\
  executed (snd (executePython (Scenarios.config_with_credentials 600)
                   Scenarios.fresh_world None (Scenarios.call None))) = [].
Proof.
  destruct (C9_timeout_out_of_range_is_rejected (Scenarios.config_with_credentials 600)
              Scenarios.fresh_world None (Scenarios.call None)) as (_ & Hv & H).
  assert (Config.Validate (Scenarios.config_with_credentials 600) = None) as Hvalid.
  { apply Hv; [discriminate | vm_compute; discriminate]. }
  split; [exact Hvalid|].
  destruct (H Hvalid) as (He & _ & Hx); [reflexivity | reflexivity |].
  split; [exact He | exact Hx].
Defined.


End ToolFacts.

(** * More properties *)

(** ** The rate limiter, beyond the claims *)

Module RateLimitFacts.
Import Config GoStrings Middleware RateLimitHTTP.

Section Trust.
Context {net : NetLib}.
Variable cfg : RateLimitConfig.

Lemma trustedLoop_iff (parsedIP : IP) (ip : string) (proxies : list string) :
  trustedLoop parsedIP ip proxies = true <->
  exists trusted, trusted ∈ proxies /\ trusts parsedIP ip trusted.
Proof.
  induction proxies as [|trusted rest IH]; simpl.
  - split; [discriminate|]. intros (t & Hin & _). by apply elem_of_nil in Hin.
  - assert ((exists t, t ∈ trusted :: rest /\ trusts parsedIP ip t) <->
            trusts parsedIP ip trusted \/ exists t, t ∈ rest /\ trusts parsedIP ip t)
      as ->.
    { split.
      - intros (t & Hin & Ht). apply elem_of_cons in Hin as [->|Hin]; eauto.
      - intros [Ht|(t & Hin & Ht)].
        + exists trusted. split; [left|]; done.
        + exists t. split; [by right|done]. }
    rewrite <- IH. unfold trusts.
    destruct (Contains trusted "/").
    + destruct (ParseCIDR trusted) as [[base ipNet]|].
      * destruct (IPNet_Contains ipNet parsedIP) eqn:Hc.
        -- split; [|done]. intros _. left. eauto.
        -- split; [auto|]. intros [(b & n & [= <- <-] & Hn)|H]; [congruence|done].
      * split; [auto|]. intros [(b & n & [=] & _)|H]; done.
    + destruct (String.eqb_spec trusted ip) as [->|Hne].
      * split; auto.
      * split; [auto|]. intros [?|?]; [contradiction|done].
Qed.

(** X1. A peer is trusted exactly when its address parses and some entry
    of the trusted-proxy list matches it: an entry with a slash matches
    when it parses as a network that contains the address, an entry without
    one when it is the peer string itself.  Entries that do not parse are
    skipped; a peer string that does not parse is never trusted, listed or
    not. *)
Theorem isTrustedProxy_iff (ip : string) :
  isTrustedProxy cfg ip = true <->
  exists parsedIP,
    ParseIP ip = Some parsedIP /\
    exists trusted, trusted ∈ rl_TrustedProxies cfg /\ trusts parsedIP ip trusted.
Proof.
  unfold isTrustedProxy. destruct (ParseIP ip) as [parsedIP|].
  - rewrite trustedLoop_iff. split.
    + intros H. exists parsedIP. auto.
    + intros (p & [= <-] & H). exact H.
  - split; [discriminate|]. intros (p & [=] & _).
Qed.

End Trust.

Lemma length_append (a b : string) :
  String.length (a +:+ b) = (String.length a + String.length b)%nat.
Proof. induction a as [|c a IH]; [reflexivity|]. simpl. cbn. by rewrite IH. Qed.

Lemma append_cancel_r (a b s : string) : a +:+ s = b +:+ s -> a = b.
Proof.
  revert b. induction a as [|c a IH]; intros [|d b] H.
  - reflexivity.
  - apply (f_equal String.length) in H. rewrite !length_append in H.
    simpl in H. lia.
  - apply (f_equal String.length) in H. rewrite !length_append in H.
    simpl in H. lia.
  - injection H as -> H. f_equal. by apply IH.
Qed.

(** X2. For a given tool, different client addresses never share a
    bucket: [buildKey] is injective in the client address. *)
Theorem buildKey_injective (clientIP clientIP' toolName : string) :
  buildKey clientIP toolName = buildKey clientIP' toolName -> clientIP = clientIP'.
Proof.
  unfold buildKey. destruct (negb (String.eqb toolName "")); [|done].
  apply append_cancel_r.
Qed.

Lemma int_of_float_inject (x : Q) (n : Z) : (x == inject_Z n)%Q -> int_of_float x = n.
Proof.
  unfold Qeq, int_of_float. simpl. intros H.
  rewrite Z.mul_1_r in H. rewrite H. apply Z.quot_mul. lia.
Qed.

Lemma int_of_float_le (x : Q) (b : Z) :
  (x <= inject_Z b)%Q -> int_of_float x <= Z.max 0 b.
Proof.
  unfold Qle, int_of_float. simpl. intros H.
  rewrite Z.mul_1_r in H.
  Z.quot_rem_to_equations. nia.
Qed.

(** What [Allow] reports and stores, in terms of the entry it obtained. *)
Lemma Allow_unfold (limiters : gmap string inMemoryEntry) (key : string)
    (rule : RateLimitRule) (clk : Clock) :
  let entry := fst (getOrCreateEntry limiters key rule clk) in
  let tokens := int_of_float (Tokens (limiter entry) (now_tokens clk)) in
  let decision := Limiter_Allow (limiter entry) (now_allow clk) in
  Allow limiters key rule clk =
  (fst decision,
   {| Limit := ratePerSec entry;
      Remaining := if tokens <? 0 then 0 else tokens;
      ResetAt := resetAt entry |},
   <[key := {| limiter := snd decision; lastUsed := lastUsed entry;
               resetAt := resetAt entry; burstSize := burstSize entry;
               ratePerSec := ratePerSec entry |}]>
     (snd (getOrCreateEntry limiters key rule clk))).
Proof.
  unfold Allow.
  destruct (getOrCreateEntry limiters key rule clk) as [entry m]. simpl.
  destruct (Limiter_Allow (limiter entry) (now_allow clk)) as [ok lim']. simpl.
  by destruct ok.
Qed.

Lemma getOrCreateEntry_other (limiters : gmap string inMemoryEntry)
    (key key' : string) (rule : RateLimitRule) (clk : Clock) :
  key' <> key ->
  snd (getOrCreateEntry limiters key rule clk) !! key' = limiters !! key'.
Proof.
  intros Hne. unfold getOrCreateEntry.
  destruct (limiters !! key); simpl; by rewrite lookup_insert_ne.
Qed.

(** X3. A call of [Allow] for one key leaves the entry of every other key
    exactly as it was: buckets are independent. *)
Theorem Allow_leaves_other_keys (limiters : gmap string inMemoryEntry)
    (key key' : string) (rule : RateLimitRule) (clk : Clock) :
  key' <> key ->
  snd (Allow limiters key rule clk) !! key' = limiters !! key'.
Proof.
  intros Hne. rewrite Allow_unfold. simpl.
  rewrite lookup_insert_ne by done. by apply getOrCreateEntry_other.
Qed.

Lemma Limiter_Allow_parameters (lim : Limiter) (t : Z) :
  lim_limit (snd (Limiter_Allow lim t)) = lim_limit lim /\
  lim_burst (snd (Limiter_Allow lim t)) = lim_burst lim.
Proof. unfold Limiter_Allow. cbv zeta. by destruct (_ && _). Qed.

(** X4. Once a key has an entry, the rate and the capacity of its bucket
    are those of the rule under which it was created: a later call with a
    different rule still reports the old limit and keeps the old bucket
    parameters. *)
Theorem Allow_keeps_bucket_parameters (limiters : gmap string inMemoryEntry)
    (key : string) (rule : RateLimitRule) (clk : Clock) (entry : inMemoryEntry) :
  limiters !! key = Some entry ->
  Limit (snd (fst (Allow limiters key rule clk))) = ratePerSec entry /\
  exists entry',
    snd (Allow limiters key rule clk) !! key = Some entry' /\
    ratePerSec entry' = ratePerSec entry /\
    burstSize entry' = burstSize entry /\
    lim_limit (limiter entry') = lim_limit (limiter entry) /\
    lim_burst (limiter entry') = lim_burst (limiter entry).
Proof.
  intros Hsome. rewrite Allow_unfold. simpl.
  unfold getOrCreateEntry. rewrite Hsome. simpl.
  split; [reflexivity|]. eexists. split; [apply lookup_insert_eq|]. simpl.
  destruct (Limiter_Allow_parameters (limiter entry) (now_allow clk)) as [-> ->].
  done.
Qed.

(** A bucket that was never used is full at any later time. *)
Lemma tokensFromDuration_zero (limit : Q) : (tokensFromDuration limit 0 == 0)%Q.
Proof.
  unfold tokensFromDuration. destruct (Qle_bool limit 0); [reflexivity|].
  unfold Qdiv. change (inject_Z 0) with 0%Q. ring.
Qed.

Lemma tokensFromDuration_nonneg (limit : Q) (d : Z) :
  0 <= d -> (0 <= tokensFromDuration limit d)%Q.
Proof.
  intros Hd. rewrite <- (tokensFromDuration_zero limit).
  by apply MiddlewareFacts.tokensFromDuration_mono.
Qed.

(** A limiter that was never used is full at every time, whatever its
    rate. *)
Lemma advance_unused (r : Q) (b t : Z) :
  (advance (NewLimiter r b) t == inject_Z b)%Q.
Proof.
  unfold advance, NewLimiter. simpl.
  set (e := t - _).
  assert (0 <= e) as He by (unfold e; destruct (Z.ltb_spec t 0); lia).
  pose proof (tokensFromDuration_nonneg r e He) as Hd.
  destruct (Qltb _ _) eqn:E; [reflexivity|].
  apply MiddlewareFacts.Qltb_false in E. lra.
Qed.

Lemma advance_NewLimiter (r : Q) (b t : Z) :
  (0 <= r)%Q -> 0 <= t -> (advance (NewLimiter r b) t == inject_Z b)%Q.
Proof. intros _ _. apply advance_unused. Qed.

(** X5. The [Remaining] that [Allow] reports is never negative and never
    above the capacity of the bucket: that of the stored entry when the key
    has one, the effective burst of the rule when it has none. *)
Theorem Remaining_within_bucket (limiters : gmap string inMemoryEntry)
    (key : string) (rule : RateLimitRule) (clk : Clock) :
  let info := snd (fst (Allow limiters key rule clk)) in
  0 <= Remaining info /\
  (forall entry, limiters !! key = Some entry ->
     Remaining info <= Z.max 0 (lim_burst (limiter entry))) /\
  (limiters !! key = None -> Remaining info <= GetBurstSize rule).
Proof.
  intros info. subst info. rewrite Allow_unfold. simpl.
  set (entry := fst (getOrCreateEntry limiters key rule clk)).
  pose proof (MiddlewareFacts.advance_le_burst (limiter entry) (now_tokens clk)) as Hb.
  apply int_of_float_le in Hb. fold (Tokens (limiter entry) (now_tokens clk)) in Hb.
  split; [|split].
  - destruct (Z.ltb_spec (int_of_float (Tokens (limiter entry) (now_tokens clk))) 0); lia.
  - intros e He. subst entry. unfold getOrCreateEntry in *. rewrite He in *. simpl in *.
    destruct (Z.ltb_spec (int_of_float (Tokens (limiter e) (now_tokens clk))) 0); lia.
  - intros Hnone. subst entry. unfold getOrCreateEntry in *. rewrite Hnone in *.
    simpl in *. pose proof (ConfigFacts.GetBurstSize_ge_1 rule).
    destruct (Z.ltb_spec
                (int_of_float (Tokens (NewLimiter (GetRequestsPerSecond rule)
                                                  (GetBurstSize rule))
                                      (now_tokens clk))) 0); lia.
Qed.

(** *** The janitor *)

Lemma cleanup_lookup (limiters : gmap string inMemoryEntry) (now : Z)
    (key : string) (entry : inMemoryEntry) :
  cleanup limiters now !! key = Some entry <->
  limiters !! key = Some entry /\ now - defaultCleanupInterval <= lastUsed entry.
Proof.
  unfold cleanup. cbv zeta. rewrite map_lookup_filter_Some. simpl.
  split; intros [? ?]; split; auto; lia.
Qed.

(** X6. [cleanup] keeps, unchanged, exactly the entries used within the
    last five minutes.  A key whose entry it removes starts over on its
    next request: [Allow] then reports a full bucket and the limit of the
    rule it is now given. *)
Theorem cleanup_forgets_stale_keys (limiters : gmap string inMemoryEntry) (now : Z)
    (key : string) (rule : RateLimitRule) (clk : Clock) :
  (forall entry,
     cleanup limiters now !! key = Some entry <->
     limiters !! key = Some entry /\ now - defaultCleanupInterval <= lastUsed entry) /\
  (forall entry,
     limiters !! key = Some entry -> lastUsed entry < now - defaultCleanupInterval ->
     0 <= now_tokens clk ->
     let info := snd (fst (Allow (cleanup limiters now) key rule clk)) in
     Remaining info = GetBurstSize rule /\
     (Limit info == GetRequestsPerSecond rule)%Q).
Proof.
  split; [intros entry; apply cleanup_lookup|].
  intros entry Hsome Hstale Ht info. subst info.
  assert (cleanup limiters now !! key = None) as Hgone.
  { destruct (cleanup limiters now !! key) as [e|] eqn:E; [|done].
    apply cleanup_lookup in E as [E1 E2]. rewrite Hsome in E1. injection E1 as <-. lia. }
  rewrite Allow_unfold. simpl. unfold getOrCreateEntry. rewrite Hgone. simpl.
  split; [|reflexivity].
  pose proof (MiddlewareFacts.GetRequestsPerSecond_pos rule) as Hpos.
  assert (int_of_float (Tokens (NewLimiter (GetRequestsPerSecond rule) (GetBurstSize rule))
                               (now_tokens clk)) = GetBurstSize rule) as ->.
  { apply int_of_float_inject. apply advance_NewLimiter; [lra|done]. }
  pose proof (ConfigFacts.GetBurstSize_ge_1 rule).
  destruct (Z.ltb_spec (GetBurstSize rule) 0); lia.
Qed.

(** *** A burst at one instant *)

Lemma int_of_float_ge_1 (x : Q) : (1 <= x)%Q -> 1 <= int_of_float x.
Proof.
  unfold Qle, int_of_float. simpl. intros H.
  Z.quot_rem_to_equations. nia.
Qed.

(** Taking a token out of a bucket that holds [k >= 1] of them. *)
Lemma Limiter_Allow_takes_one (lim : Limiter) (t k : Z) :
  (advance lim t == inject_Z k)%Q -> 1 <= k ->
  fst (Limiter_Allow lim t) = true /\
  (advance (snd (Limiter_Allow lim t)) t == inject_Z (k - 1))%Q.
Proof.
  intros Hk Hge.
  assert (1 <= advance lim t)%Q as H1.
  { rewrite Hk. change 1%Q with (inject_Z 1). by rewrite <- Zle_Qle. }
  rewrite (MiddlewareFacts.Limiter_Allow_admits lim t H1). simpl.
  split; [reflexivity|].
  pose proof (MiddlewareFacts.advance_le_burst lim t) as Hb.
  unfold advance at 1. simpl.
  rewrite Z.ltb_irrefl, Z.sub_diag.
  pose proof (tokensFromDuration_zero (lim_limit lim)) as Hd.
  assert (inject_Z (k - 1) == inject_Z k - 1)%Q as Hk1.
  { unfold Qeq. simpl. lia. }
  destruct (Qltb _ _) eqn:E.
  - apply MiddlewareFacts.Qltb_spec in E. lra.
  - lra.
Qed.

(** An empty bucket refuses, at rates up to one token per nanosecond. *)
Lemma Limiter_Allow_empty (lim : Limiter) (t : Z) :
  (advance lim t == 0)%Q ->
  (0 < lim_limit lim)%Q -> (lim_limit lim <= inject_Z Second)%Q ->
  Limiter_Allow lim t = (false, lim).
Proof.
  intros H0 Hpos Hmax. unfold Limiter_Allow. cbv zeta.
  assert (Qltb (advance lim t - 1) 0 = true) as ->.
  { apply MiddlewareFacts.Qltb_spec. lra. }
  assert (1 <= durationFromTokens (lim_limit lim) (- (advance lim t - 1))) as Hw.
  { unfold durationFromTokens.
    assert (Qle_bool (lim_limit lim) 0 = false) as ->.
    { destruct (Qle_bool (lim_limit lim) 0) eqn:E; [|done].
      apply Qle_bool_iff in E. lra. }
    cbv zeta.
    set (x := (- (advance lim t - 1) / lim_limit lim)%Q).
    assert (x * lim_limit lim == 1)%Q as Hx.
    { unfold x. rewrite Qmult_comm, Qmult_div_r; lra. }
    assert (1 <= x * inject_Z Second)%Q as Hd by nra.
    destruct (Qltb _ _); [unfold InfDuration; lia|].
    by apply int_of_float_ge_1. }
  assert ((durationFromTokens (lim_limit lim) (- (advance lim t - 1)) <=? 0) = false)
    as -> by (apply Z.leb_gt; lia).
  by rewrite andb_false_r.
Qed.

Lemma Allow_step (limiters : gmap string inMemoryEntry) (key : string)
    (rule : RateLimitRule) (clk : Clock) (k : nat) :
  holds limiters key (now_allow clk) k ->
  fst (fst (Allow limiters key rule clk)) = negb (Nat.eqb k 0) /\
  holds (snd (Allow limiters key rule clk)) key (now_allow clk) (pred k).
Proof.
  intros (entry & Hsome & Hk & Hpos & Hmax).
  rewrite Allow_unfold. simpl. unfold getOrCreateEntry. rewrite Hsome. simpl.
  destruct k as [|k].
  - rewrite (Limiter_Allow_empty _ _ Hk Hpos Hmax). simpl. split; [reflexivity|].
    eexists. split; [apply lookup_insert_eq|]. simpl. done.
  - destruct (Limiter_Allow_takes_one (limiter entry) (now_allow clk)
                (Z.of_nat (S k)) Hk ltac:(lia)) as [Hok Hnext].
    destruct (Limiter_Allow_parameters (limiter entry) (now_allow clk)) as [Hl _].
    rewrite Hok. split; [reflexivity|].
    eexists. split; [apply lookup_insert_eq|]. simpl.
    rewrite Hl. split; [|done].
    rewrite Hnext. replace (Z.of_nat (S k) - 1) with (Z.of_nat k) by lia. reflexivity.
Qed.

Lemma AllowEach_from (clks : list Clock) :
  forall (limiters : gmap string inMemoryEntry) (key : string)
         (rule : RateLimitRule) (t : Z) (k : nat),
    Forall (fun clk => now_allow clk = t) clks ->
    holds limiters key t k ->
    fst (AllowEach limiters key rule clks) =
    (replicate (Nat.min (length clks) k) true
     ++ replicate (length clks - k) false)%list.
Proof.
  induction clks as [|clk rest IH]; intros limiters key rule t k Hall Hk; simpl.
  - reflexivity.
  - apply Forall_cons in Hall as [Ht Hrest]. subst t.
    destruct (Allow_step limiters key rule clk k Hk) as [Hdec Hnext].
    destruct (Allow limiters key rule clk) as [[allowed info] limiters'] eqn:EA.
    simpl in Hdec, Hnext.
    specialize (IH limiters' key rule (now_allow clk) (pred k) Hrest Hnext).
    destruct (AllowEach limiters' key rule rest) as [decisions final]. simpl in *.
    rewrite Hdec, IH. destruct k as [|k]; simpl; [|reflexivity].
    by rewrite Nat.min_0_r, Nat.sub_0_r.
Qed.

(** X7. From a key without an entry, requests that all reach the bucket
    at one instant are admitted until the effective burst of the rule is
    used up, and refused from then on (for rates up to one request per
    nanosecond). *)
Theorem burst_is_admitted_then_refused (limiters : gmap string inMemoryEntry)
    (key : string) (rule : RateLimitRule) (t : Z) (clks : list Clock) :
  limiters !! key = None -> 0 <= t ->
  (GetRequestsPerSecond rule <= inject_Z Second)%Q ->
  Forall (fun clk => now_allow clk = t) clks ->
  let burst := Z.to_nat (GetBurstSize rule) in
  fst (AllowEach limiters key rule clks) =
  (replicate (Nat.min (length clks) burst) true
   ++ replicate (length clks - burst) false)%list.
Proof.
  intros Hnone Ht Hmax Hall burst.
  destruct clks as [|clk rest]; [reflexivity|].
  apply Forall_cons in Hall as [Hclk Hrest].
  pose proof (MiddlewareFacts.GetRequestsPerSecond_pos rule) as Hpos.
  pose proof (ConfigFacts.GetBurstSize_ge_1 rule) as Hb.
  (* the first call creates the entry; afterwards the bucket is tracked *)
  assert (holds (snd (getOrCreateEntry limiters key rule clk)) key t burst) as Hfresh.
  { unfold getOrCreateEntry. rewrite Hnone. simpl.
    eexists. split; [apply lookup_insert_eq|]. simpl. split; [|done].
    unfold burst. rewrite Z2Nat.id by lia. apply advance_NewLimiter; [lra|done]. }
  change (fst (AllowEach limiters key rule (clk :: rest)))
    with (fst (let '(allowed, _, limiters') := Allow limiters key rule clk in
               let '(decisions, final) := AllowEach limiters' key rule rest in
               (allowed :: decisions, final))).
  assert (Allow limiters key rule clk
          = Allow (snd (getOrCreateEntry limiters key rule clk)) key rule clk) as Hsame.
  { rewrite !Allow_unfold. simpl. unfold getOrCreateEntry. rewrite Hnone. simpl.
    rewrite lookup_insert_eq. simpl. rewrite !insert_insert_eq. reflexivity. }
  rewrite Hsame.
  exact (AllowEach_from (clk :: rest) _ key rule t burst
           (Forall_cons_2 _ _ _ Hclk Hrest) Hfresh).
Qed.

(** *** The HTTP middleware *)

Lemma int_of_float_Seconds (d : Z) : int_of_float (Seconds d) = Z.quot d Second.
Proof.
  unfold Seconds, int_of_float, Qdiv, Second. simpl.
  rewrite Z.mul_1_r. reflexivity.
Qed.

Section MiddlewareFacts.
Context {net : NetLib} {fmtlib : Tool.FmtLib}.
Variable cfg : RateLimitConfig.

(** X8. With rate limiting disabled the middleware calls the next handler
    without setting a header or touching the limiter.  Enabled, it consults
    the limiter once, under the key of the resolved client address and with
    the rule of the tool, sets the three rate-limit headers from what the
    limiter reports, and either calls the next handler or answers 429 with
    a [Retry-After] header holding the rule's block duration in whole
    seconds. *)
Theorem Middleware_verdict (toolName : string)
    (limiters : gmap string inMemoryEntry) (r : Request) (clk : Clock) :
  (rl_Enabled cfg = false ->
     Middleware cfg toolName limiters r clk = (CallNext ∅, limiters)) /\
  (rl_Enabled cfg = true ->
     let rule := getRule cfg toolName in
     let result := Allow limiters (rateLimitKey cfg toolName r) rule clk in
     let info := snd (fst result) in
     let headers : gmap string string :=
       <[HeaderRateLimitReset := pretty (ResetAt info)]>
         (<[HeaderRateLimitRemaining := pretty (Remaining info)]>
            (<[HeaderRateLimitLimit := Tool.fmt_f2 (Limit info)]> ∅)) in
     snd (Middleware cfg toolName limiters r clk) = snd result /\
     (fst (fst result) = true ->
        fst (Middleware cfg toolName limiters r clk) = CallNext headers /\
        headers !! HeaderRetryAfter = None) /\
     (fst (fst result) = false ->
        fst (Middleware cfg toolName limiters r clk) =
        Deny (<[HeaderRetryAfter := pretty (Z.quot (GetBlockDuration rule) Second)]> headers)
             (Auth.http_Error "rate limit exceeded" 429))).
Proof.
  split.
  - intros Hoff. unfold Middleware. by rewrite Hoff.
  - intros Hon rule result info headers.
    unfold Middleware. rewrite Hon. simpl negb. cbv iota.
    fold rule. unfold rateLimitKey in result.
    change (Allow limiters (buildKey (getClientIP cfg r) toolName) rule clk) with result.
    subst info headers.
    destruct result as [[allowed i] limiters']. simpl.
    split; [by destruct allowed|]. split.
    + intros ->. simpl. split; reflexivity.
    + intros ->. simpl. rewrite int_of_float_Seconds. reflexivity.
Qed.

End MiddlewareFacts.

(** *** The scenarios, through the theorems *)

#[local] Existing Instance IPv4.ipv4_net.
#[local] Existing Instance Scenarios.plain_fmt.

Lemma buildKey_injective_witness :
  buildKey "192.168.1.1" "execute_python" = buildKey "192.168.1.1" "execute_python" /\
  "192.168.1.1" = "192.168.1.1".
Proof.
  split; [reflexivity|].
  apply (buildKey_injective "192.168.1.1" "192.168.1.1" "execute_python").
  reflexivity.
Defined.

Lemma Allow_leaves_other_keys_witness :
  snd (Allow MoreScenarios.rl1_after_two "10.0.0.7" MoreScenarios.rl1_rule
         Scenarios.still_clock) !! "192.168.1.1"
  = MoreScenarios.rl1_after_two !! "192.168.1.1".
Proof.
  apply (Allow_leaves_other_keys MoreScenarios.rl1_after_two "10.0.0.7" "192.168.1.1").
  discriminate.
Defined.

(** RL-1's bucket keeps its limit of two when it is next asked under the
    one-per-second rule. *)
Lemma Allow_keeps_bucket_parameters_witness :
  (Limit (snd (fst (Allow MoreScenarios.rl1_after_two "192.168.1.1"
                      Scenarios.plain_rule Scenarios.still_clock))) == 2)%Q.
Proof.
  destruct (MoreScenarios.rl1_after_two !! "192.168.1.1") as [entry|] eqn:E;
    [|vm_compute in E; discriminate].
  destruct (Allow_keeps_bucket_parameters MoreScenarios.rl1_after_two "192.168.1.1"
              Scenarios.plain_rule Scenarios.still_clock entry E) as [-> _].
  vm_compute in E. injection E as <-. reflexivity.
Defined.

Lemma Remaining_within_bucket_witness :
  Remaining (snd (fst (Allow ∅ "192.168.1.1" MoreScenarios.rl1_rule
                         Scenarios.still_clock))) <= 2.
Proof.
  destruct (Remaining_within_bucket ∅ "192.168.1.1" MoreScenarios.rl1_rule
              Scenarios.still_clock) as (_ & _ & H).
  apply H. reflexivity.
Defined.

(** RL-1's bucket, emptied at the epoch, is forgotten by a sweep ten
    minutes later and is full again for the next request. *)
Lemma cleanup_forgets_stale_keys_witness :
  Remaining (snd (fst (Allow (cleanup MoreScenarios.rl1_after_two (600 * Second))
                         "192.168.1.1" MoreScenarios.rl1_rule
                         MoreScenarios.later_clock))) = 2.
Proof.
  destruct (MoreScenarios.rl1_after_two !! "192.168.1.1") as [entry|] eqn:E;
    [|vm_compute in E; discriminate].
  destruct (cleanup_forgets_stale_keys MoreScenarios.rl1_after_two (600 * Second)
              "192.168.1.1" MoreScenarios.rl1_rule MoreScenarios.later_clock)
    as [_ H].
  destruct (H entry E) as [Hrem _].
  - vm_compute in E. injection E as <-. vm_compute. reflexivity.
  - vm_compute. discriminate.
  - exact Hrem.
Defined.

(** RL-1: three requests at one instant. *)
Lemma burst_is_admitted_then_refused_witness :
  fst (AllowEach ∅ "192.168.1.1" MoreScenarios.rl1_rule
         [Scenarios.still_clock; Scenarios.still_clock; Scenarios.still_clock])
  = [true; true; false].
Proof.
  apply (burst_is_admitted_then_refused ∅ "192.168.1.1" MoreScenarios.rl1_rule 0
           [Scenarios.still_clock; Scenarios.still_clock; Scenarios.still_clock]).
  - reflexivity.
  - lia.
  - vm_compute. discriminate.
  - repeat constructor.
Defined.

(** RL-1: the third request is answered 429 with [Retry-After: 60]. *)
Lemma Middleware_verdict_witness :
  exists headers,
    fst (Middleware MoreScenarios.rl1_cfg "" MoreScenarios.rl1_after_two
           MoreScenarios.rl1_request Scenarios.still_clock)
    = Deny headers (Auth.http_Error "rate limit exceeded" 429) /\
    headers !! HeaderRetryAfter = Some "60".
Proof.
  destruct (Middleware_verdict MoreScenarios.rl1_cfg "" MoreScenarios.rl1_after_two
              MoreScenarios.rl1_request Scenarios.still_clock) as [_ H].
  destruct (H eq_refl) as (_ & _ & Hdeny).
  eexists. split.
  - apply Hdeny. vm_compute. reflexivity.
  - vm_compute. reflexivity.
Defined.

End RateLimitFacts.

(** ** The JWKS validator, beyond the claims *)

Module JWTMoreFacts.
Import Config JWT.

Lemma lor_below (n x y : Z) :
  0 <= n -> 0 <= x < 2 ^ n -> 0 <= y < 2 ^ n -> 0 <= Z.lor x y < 2 ^ n.
Proof.
  intros Hn [Hx0 Hx] [Hy0 Hy]. split; [by apply Z.lor_nonneg|].
  destruct (Z.eq_dec (Z.lor x y) 0) as [->|Hne]; [apply Z.pow_pos_nonneg; lia|].
  apply Z.log2_lt_pow2; [pose proof (proj2 (Z.lor_nonneg x y) (conj Hx0 Hy0)); lia|].
  rewrite Z.log2_lor by lia.
  destruct (Z.eq_dec x 0) as [->|Hx1]; destruct (Z.eq_dec y 0) as [->|Hy1].
  - exfalso. apply Hne. reflexivity.
  - rewrite Z.max_r by (simpl; apply Z.log2_nonneg). apply Z.log2_lt_pow2; lia.
  - rewrite Z.max_l by (simpl; apply Z.log2_nonneg). apply Z.log2_lt_pow2; lia.
  - apply Z.max_lub_lt; apply Z.log2_lt_pow2; lia.
Qed.

Lemma lor_shift_add (e b : Z) :
  0 <= e -> 0 <= b < 256 -> Z.lor (Z.shiftl e 8) b = e * 256 + b.
Proof.
  intros He [Hb0 Hb].
  assert (Z.land (Z.shiftl e 8) b = 0) as Hland.
  { apply Z.bits_inj'. intros i Hi. rewrite Z.land_spec, Z.bits_0.
    destruct (Z.lt_ge_cases i 8).
    - rewrite Z.shiftl_spec_low by lia. reflexivity.
    - rewrite (Z.bits_above_log2 b i); [apply andb_false_r|lia|].
      destruct (Z.eq_dec b 0) as [->|]; [simpl; lia|].
      assert (Z.log2 b < 8) by (apply Z.log2_lt_pow2; lia). lia. }
  rewrite <- Z.lxor_lor by exact Hland.
  rewrite <- Z.add_nocarry_lxor by exact Hland.
  rewrite Z.shiftl_mul_pow2 by lia. reflexivity.
Qed.

Lemma sextet_range (c : ascii) (v : Z) : sextet c = Some v -> 0 <= v < 64.
Proof.
  unfold sextet. cbv zeta.
  repeat match goal with
         | |- context [if ?b then _ else _] => destruct b eqn:?
         end; intros [= <-]; try discriminate;
    repeat match goal with
           | H : (_ && _) = true |- _ => apply andb_true_iff in H as [? ?]
           | H : (_ <=? _) = true |- _ => apply Z.leb_le in H
           | H : (_ =? _) = true |- _ => apply Z.eqb_eq in H
           end; lia.
Qed.

Lemma sextets_range (s : string) :
  forall l, sextets s = Some l -> Forall (fun v => 0 <= v < 64) l.
Proof.
  induction s as [|c s IH]; simpl; intros l.
  - intros [= <-]. constructor.
  - destruct (_ || _); [apply IH|].
    destruct (sextet c) as [v|] eqn:Hv; [|discriminate].
    destruct (sextets s) as [vs|]; [|discriminate].
    intros [= <-]. constructor; [by eapply sextet_range | by apply IH].
Qed.

Lemma byte_of_two (a b : Z) :
  0 <= a < 64 -> 0 <= b < 64 -> 0 <= Z.lor (Z.shiftl a 2) (Z.shiftr b 4) < 256.
Proof.
  intros Ha Hb. apply (lor_below 8); [lia| |].
  - rewrite Z.shiftl_mul_pow2 by lia. change (2 ^ 2) with 4. change (2 ^ 8) with 256. lia.
  - rewrite Z.shiftr_div_pow2 by lia. change (2 ^ 4) with 16. change (2 ^ 8) with 256.
    Z.div_mod_to_equations. lia.
Qed.

Lemma byte_of_low (m k b c : Z) :
  0 <= k -> 0 <= m -> m + k <= 8 -> 0 <= c < 2 ^ k ->
  0 <= Z.lor (Z.shiftl (Z.land b (Z.ones m)) k) c < 256.
Proof.
  intros Hk Hm Hmk Hc. apply (lor_below 8); [lia| |].
  - rewrite Z.land_ones by lia. rewrite Z.shiftl_mul_pow2 by lia.
    pose proof (Z.mod_pos_bound b (2 ^ m) ltac:(apply Z.pow_pos_nonneg; lia)) as Hb.
    assert (2 ^ m * 2 ^ k <= 2 ^ 8) as Hp.
    { rewrite <- Z.pow_add_r by lia. apply Z.pow_le_mono_r; lia. }
    assert (0 < 2 ^ k) by (apply Z.pow_pos_nonneg; lia).
    split; [nia|]. nia.
  - split; [lia|]. destruct Hc as [_ Hc].
    eapply Z.lt_le_trans; [exact Hc|]. apply Z.pow_le_mono_r; lia.
Qed.

Lemma quanta_bytes (n : nat) :
  forall l bytes,
    (length l <= n)%nat -> Forall (fun v => 0 <= v < 64) l ->
    quanta l = Some bytes -> Forall (fun b => 0 <= b < 256) bytes.
Proof.
  induction n as [|n IH]; intros l bytes Hlen Hl.
  - destruct l; [|simpl in Hlen; lia]. intros [= <-]. constructor.
  - destruct l as [|a [|b [|c [|d rest]]]]; simpl.
    + intros [= <-]. constructor.
    + discriminate.
    + intros [= <-]. apply Forall_cons in Hl as [Ha Hl].
      apply Forall_cons in Hl as [Hb _].
      constructor; [by apply byte_of_two|constructor].
    + intros [= <-]. apply Forall_cons in Hl as [Ha Hl].
      apply Forall_cons in Hl as [Hb Hl]. apply Forall_cons in Hl as [Hc _].
      constructor; [by apply byte_of_two|].
      constructor; [|constructor].
      apply (byte_of_low 4 4); try lia;
        rewrite Z.shiftr_div_pow2 by lia; change (2 ^ 2) with 4; change (2 ^ 4) with 16;
        Z.div_mod_to_equations; lia.
    + apply Forall_cons in Hl as [Ha Hl]. apply Forall_cons in Hl as [Hb Hl].
      apply Forall_cons in Hl as [Hc Hl]. apply Forall_cons in Hl as [Hd Hl].
      destruct (quanta rest) as [bs|] eqn:Hq; [|discriminate].
      intros [= <-].
      constructor; [by apply byte_of_two|].
      constructor.
      { apply (byte_of_low 4 4); try lia;
          rewrite Z.shiftr_div_pow2 by lia; change (2 ^ 2) with 4; change (2 ^ 4) with 16;
          Z.div_mod_to_equations; lia. }
      constructor.
      { apply (byte_of_low 2 6); try lia; change (2 ^ 6) with 64; lia. }
      apply (IH rest); [simpl in Hlen; lia|done|done].
Qed.

(** What [DecodeString] returns are bytes. *)
Lemma DecodeString_bytes (s : string) (bytes : list Z) :
  DecodeString s = Some bytes -> Forall (fun b => 0 <= b < 256) bytes.
Proof.
  unfold DecodeString. destruct (sextets s) as [l|] eqn:Hs; [|discriminate].
  intros Hq.
  apply (quanta_bytes (length l) l bytes); [lia | by apply (sextets_range s) | exact Hq].
Qed.

Lemma SetBytes_snoc (bytes : list Z) (b : Z) :
  SetBytes (bytes ++ [b]) = SetBytes bytes * 256 + b.
Proof. unfold SetBytes. by rewrite fold_left_app. Qed.

Lemma SetBytes_bound (bytes : list Z) :
  Forall (fun b => 0 <= b < 256) bytes ->
  0 <= SetBytes bytes < 256 ^ Z.of_nat (length bytes).
Proof.
  induction bytes as [|b bytes IH] using rev_ind; intros Hall.
  - unfold SetBytes. simpl. lia.
  - apply Forall_app in Hall as [Hinit Hb]. apply Forall_cons in Hb as [Hb _].
    rewrite SetBytes_snoc, length_app. simpl.
    replace (Z.of_nat (length bytes + 1)) with (Z.of_nat (length bytes) + 1) by lia.
    rewrite Z.pow_add_r by lia. specialize (IH Hinit). lia.
Qed.

(** The exponent loop on at most seven bytes. *)
Lemma exponent_loop (bytes : list Z) :
  Forall (fun b => 0 <= b < 256) bytes -> (length bytes <= 7)%nat ->
  fold_left (fun e b => Z.lor (wrap64 (Z.shiftl e 8)) b) bytes 0 = SetBytes bytes.
Proof.
  induction bytes as [|b bytes IH] using rev_ind; intros Hall Hlen.
  - reflexivity.
  - apply Forall_app in Hall as [Hinit Hb]. apply Forall_cons in Hb as [Hb _].
    rewrite length_app in Hlen. simpl in Hlen.
    rewrite fold_left_app, SetBytes_snoc. simpl.
    rewrite IH by (done || lia).
    pose proof (SetBytes_bound bytes Hinit) as [H0 Hlt].
    assert (256 ^ Z.of_nat (length bytes) <= 256 ^ 6) as Hp
      by (apply Z.pow_le_mono_r; lia).
    assert (wrap64 (Z.shiftl (SetBytes bytes) 8) = Z.shiftl (SetBytes bytes) 8) as ->.
    { unfold wrap64. rewrite Z.shiftl_mul_pow2 by lia.
      change (2 ^ 8) with 256. change (256 ^ 6) with 281474976710656 in Hp.
      rewrite Z.mod_small; lia. }
    by apply lor_shift_add.
Qed.

(** X9. [parseRSAPublicKey] fails exactly when the modulus or the exponent
    is not base64url.  When both decode and the exponent has at most seven
    bytes, the key holds the big-endian values of the two byte strings: the
    shift-and-or loop of the exponent does not overflow. *)
Theorem parseRSAPublicKey_decodes (key : jwkKey) :
  (parseRSAPublicKey key = None <->
   DecodeString (N key) = None \/ DecodeString (E key) = None) /\
  (forall nBytes eBytes,
     DecodeString (N key) = Some nBytes -> DecodeString (E key) = Some eBytes ->
     (length eBytes <= 7)%nat ->
     parseRSAPublicKey key = Some {| pk_N := SetBytes nBytes; pk_E := SetBytes eBytes |} /\
     0 <= SetBytes eBytes < 2 ^ 56).
Proof.
  unfold parseRSAPublicKey. split.
  - destruct (DecodeString (N key)); [|by split; auto].
    destruct (DecodeString (E key)); [|by split; auto].
    split; [discriminate | intros [?|?]; discriminate].
  - intros nBytes eBytes -> He Hlen. rewrite He.
    pose proof (DecodeString_bytes _ _ He) as Hb.
    rewrite (exponent_loop eBytes Hb Hlen). split; [reflexivity|].
    pose proof (SetBytes_bound eBytes Hb) as [H0 Hlt]. split; [done|].
    eapply Z.lt_le_trans; [exact Hlt|].
    change (2 ^ 56) with (256 ^ 7). apply Z.pow_le_mono_r; lia.
Qed.

(** The usual exponent, [AQAB], is 65537. *)
Lemma parseRSAPublicKey_decodes_witness :
  parseRSAPublicKey Scenarios.jwk_good = Some {| pk_N := 65537; pk_E := 65537 |}.
Proof.
  destruct (parseRSAPublicKey_decodes Scenarios.jwk_good) as [_ H].
  destruct (H [1; 0; 1] [1; 0; 1]) as [-> _]; try reflexivity.
  simpl. lia.
Defined.

(** *** Validation and the key map *)

Lemma Validate_inr (v : jwtValidator) (now : Z) (tokenString : JWTString)
    (c : JWTClaims) :
  Validate v now tokenString = inr c ->
  Parse v now tokenString = Some (claimsOf tokenString) /\
  claim_Issuer c = getString (claimsOf tokenString) "iss" /\
  claim_Audience c = extractAudience (claimsOf tokenString) /\
  Groups c = tokenGroups (claimsOf tokenString) /\
  Subject c = getString (claimsOf tokenString) "sub" /\
  ExpiresAt c = dateOf (claimsOf tokenString) "exp" /\
  issuer_ok v (claimsOf tokenString) /\
  audience_ok v (claimsOf tokenString) /\
  groups_ok v (claimsOf tokenString).
Proof.
  unfold Validate.
  destruct (Parse v now tokenString) as [claims|] eqn:EP; [|discriminate].
  pose proof EP as EP'. apply JWTFacts.Parse_spec in EP' as (_ & _ & _ & ->).
  set (cl := claimsOf tokenString) in *. cbv zeta.
  destruct (negb (String.eqb (Issuer (cfg v)) "") && _) eqn:E1; [discriminate|].
  destruct (negb (String.eqb (Audience (cfg v)) "") && _) eqn:E2; [discriminate|].
  destruct ((0 <? Z.of_nat (length (AllowedOrgs (cfg v)))) && _) eqn:E3; [discriminate|].
  intros [= <-]. simpl.
  apply JWTFacts.issuer_check in E1. apply JWTFacts.audience_check in E2.
  apply JWTFacts.groups_check in E3. repeat split; done.
Qed.

(** X10. The claims [Validate] returns satisfy the configuration: the
    issuer is the configured one, the audience list contains the configured
    audience, the groups contain an allowed organisation (each when
    configured), and an expiry, when the token has one, lies after the time
    of the call. *)
Theorem Validate_returns_conforming_claims (v : jwtValidator) (now : Z)
    (tokenString : JWTString) (c : JWTClaims) :
  Validate v now tokenString = inr c ->
  (Issuer (cfg v) <> "" -> claim_Issuer c = Issuer (cfg v)) /\
  (Audience (cfg v) <> "" -> Audience (cfg v) ∈ claim_Audience c) /\
  (AllowedOrgs (cfg v) <> [] ->
     exists org, org ∈ AllowedOrgs (cfg v) /\ org ∈ Groups c) /\
  (forall e, ExpiresAt c = Some e -> now < e * Second).
Proof.
  intros H. apply Validate_inr in H
    as (HP & -> & -> & -> & _ & -> & Hi & Ha & Hg).
  apply JWTFacts.Parse_spec in HP as (_ & [Hexp _] & _ & _).
  repeat split.
  - intros Hne. destruct Hi; [contradiction|done].
  - intros Hne. destruct Ha; [contradiction|done].
  - intros Hne. destruct Hg; [contradiction|done].
  - intros e He. unfold dateOf in He. unfold date_ok in Hexp.
    destruct (parseNumericDate (claimsOf tokenString) "exp") as [|[d|]];
      [done| |discriminate].
    injection He as <-. exact Hexp.
Qed.

Lemma Validate_returns_conforming_claims_witness :
  exists c,
    Validate Scenarios.jwt1_validator (150 * Second)
             (Scenarios.jwt1_token "https://idp" 200) = inr c /\
    claim_Issuer c = "https://idp" /\ ExpiresAt c = Some 200.
Proof.
  destruct (Validate Scenarios.jwt1_validator (150 * Second)
              (Scenarios.jwt1_token "https://idp" 200)) as [err|c] eqn:E;
    [vm_compute in E; discriminate|].
  exists c. split; [reflexivity|].
  destruct (Validate_returns_conforming_claims _ _ _ _ E) as (Hi & _).
  split; [apply Hi; discriminate|].
  vm_compute in E. injection E as <-. reflexivity.
Defined.

Lemma fold_cacheKey_absent (jwks : list jwkKey) (kid : string) :
  forall acc : gmap string PublicKey,
    Forall (fun key => Kid key <> kid) jwks -> acc !! kid = None ->
    fold_left cacheKey jwks acc !! kid = None.
Proof.
  intros acc Hall Hacc.
  destruct (fold_left cacheKey jwks acc !! kid) as [pk|] eqn:E; [|done].
  destruct (JWTFacts.fold_cacheKey_sound _ _ _ _ E) as [?|(key & Hin & Hk & _)];
    [congruence|].
  rewrite Forall_forall in Hall. by destruct (Hall key Hin).
Qed.

Lemma Validate_unknown_kid (v : jwtValidator) (now : Z)
    (header claims : gmap string JSON) (verifies : PublicKey -> bool) :
  (forall kid, header !! "kid" = Some (JString kid) -> keys v !! kid = None) ->
  Validate v now (Segments header claims verifies) = inl "parsing token".
Proof.
  intros Hkid. unfold Validate, Parse, keyFunc.
  destruct (header !! "alg") as [[| | |alg| |]|]; try reflexivity.
  destruct (negb (String.eqb alg "RS256")); [reflexivity|].
  destruct (header !! "kid") as [[| | |kid| |]|]; try reflexivity.
  by rewrite (Hkid kid eq_refl).
Qed.

(** X11. A token is rejected whenever the key id in its header is not in
    the key map.  In particular, after a successful refresh every token
    that names a key id absent from the response is rejected, whatever was
    cached before and whatever else the token says. *)
Theorem unknown_kid_is_rejected (v : jwtValidator) (jwks : list jwkKey)
    (kid : string) (now : Z)
    (header claims : gmap string JSON) (verifies : PublicKey -> bool) :
  header !! "kid" = Some (JString kid) ->
  (keys v !! kid = None ->
     Validate v now (Segments header claims verifies) = inl "parsing token") /\
  (Forall (fun key => Kid key <> kid) jwks ->
     Validate (snd (refreshJWKS v (Response 200 (Some jwks)))) now
              (Segments header claims verifies) = inl "parsing token").
Proof.
  intros Hkid. split.
  - intros Hnone. apply Validate_unknown_kid.
    intros kid' Hkid'. rewrite Hkid in Hkid'. by injection Hkid' as <-.
  - intros Hall. apply Validate_unknown_kid.
    intros kid' Hkid'. rewrite Hkid in Hkid'. injection Hkid' as <-.
    simpl. apply fold_cacheKey_absent; [done|apply lookup_empty].
Qed.

(** The JWT-1 token, valid under [k1], after the issuer rotated to a
    response without [k1]. *)
Lemma unknown_kid_is_rejected_witness :
  Validate (NewJWTValidator Scenarios.jwt1_config) (150 * Second)
           (Scenarios.jwt1_token "https://idp" 200)
  = inl "parsing token" /\
  Validate (snd (refreshJWKS Scenarios.jwt1_validator
                   (Response 200 (Some [Scenarios.jwk_encryption]))))
           (150 * Second) (Scenarios.jwt1_token "https://idp" 200)
  = inl "parsing token".
Proof.
  assert (({[ "alg" := JString "RS256"; "kid" := JString "k1" ]} : gmap string JSON)
          !! "kid" = Some (JString "k1")) as Hkid by (vm_compute; reflexivity).
  split.
  - destruct (unknown_kid_is_rejected (NewJWTValidator Scenarios.jwt1_config) [] "k1"
                (150 * Second) _
                {[ "iss" := JString "https://idp";
                   "groups" := JArray [JString "ethpandaops"; JString "other"];
                   "exp" := JNumber 200 ]}
                (fun k => if PublicKey_eq_dec k Scenarios.key_good then true else false)
                Hkid) as [H _].
    apply H. reflexivity.
  - destruct (unknown_kid_is_rejected Scenarios.jwt1_validator
                [Scenarios.jwk_encryption] "k1" (150 * Second) _
                {[ "iss" := JString "https://idp";
                   "groups" := JArray [JString "ethpandaops"; JString "other"];
                   "exp" := JNumber 200 ]}
                (fun k => if PublicKey_eq_dec k Scenarios.key_good then true else false)
                Hkid) as [_ H].
    apply H. repeat constructor. discriminate.
Defined.

(** X12. After any run of refresh ticks, the key map is the one built from
    the last tick that succeeded; the ticks before it and the failed ticks
    after it leave no trace. *)
Theorem refreshLoop_keeps_last_success (v : jwtValidator)
    (before after : list Fetch) (jwks : list jwkKey) :
  Forall (fun f => forall v', fst (refreshJWKS v' f) <> None) after ->
  keys (refreshLoop v (before ++ Response 200 (Some jwks) :: after))
  = keys (snd (refreshJWKS v (Response 200 (Some jwks)))).
Proof.
  intros Hfail. unfold refreshLoop. rewrite fold_left_app. simpl.
  fold (refreshLoop
          {| cfg := cfg (fold_left (fun v f => snd (refreshJWKS v f)) before v);
             keys := fold_left cacheKey jwks ∅ |} after).
  by rewrite JWTFacts.refreshLoop_failed_ticks.
Qed.

Lemma refreshLoop_keeps_last_success_witness :
  keys (refreshLoop (NewJWTValidator Scenarios.jwt1_config)
          ([Response 200 (Some [Scenarios.jwk_encryption])]
           ++ Response 200 (Some [Scenarios.jwk_good])
           :: [TransportError; Response 503 None]))
  !! "k1" = Some Scenarios.key_good.
Proof.
  rewrite (refreshLoop_keeps_last_success (NewJWTValidator Scenarios.jwt1_config)
             [Response 200 (Some [Scenarios.jwk_encryption])]
             [TransportError; Response 503 None] [Scenarios.jwk_good]).
  - reflexivity.
  - repeat constructor; intros v'; discriminate.
Defined.

(** X13. [hasAllowedOrg] holds exactly when the two lists have a string
    in common; it does not matter which list is the token's and which the
    configuration's, and an empty allow-list allows nobody. *)
Theorem hasAllowedOrg_common_element (groups allowedOrgs : list string) :
  (hasAllowedOrg groups allowedOrgs = true <->
   exists org, org ∈ allowedOrgs /\ org ∈ groups) /\
  hasAllowedOrg groups allowedOrgs = hasAllowedOrg allowedOrgs groups /\
  hasAllowedOrg groups [] = false.
Proof.
  split; [apply JWTFacts.hasAllowedOrg_spec|]. split; [|reflexivity].
  destruct (hasAllowedOrg groups allowedOrgs) eqn:E1;
    destruct (hasAllowedOrg allowedOrgs groups) eqn:E2; try reflexivity.
  - apply JWTFacts.hasAllowedOrg_spec in E1 as (org & H1 & H2).
    assert (hasAllowedOrg allowedOrgs groups = true) as H
      by (apply JWTFacts.hasAllowedOrg_spec; eauto).
    congruence.
  - apply JWTFacts.hasAllowedOrg_spec in E2 as (org & H1 & H2).
    assert (hasAllowedOrg groups allowedOrgs = true) as H
      by (apply JWTFacts.hasAllowedOrg_spec; eauto).
    congruence.
Qed.

End JWTMoreFacts.


(** ** The proxy's middlewares *)

Module ProxyFacts.
Import GoStrings Auth Proxy.

(** *** Bearer tokens *)

Lemma prefix_app (p s : string) : String.prefix p (p +:+ s) = true.
Proof.
  induction p as [|c p IH]; simpl; [by destruct s|].
  change (String c p +:+ s) with (String c (p +:+ s)).
  destruct (ascii_dec c c); [exact IH | contradiction].
Qed.

Lemma drop_bytes_app (p s : string) : drop_bytes (String.length p) (p +:+ s) = s.
Proof. induction p as [|c p IH]; [reflexivity|]. exact IH. Qed.

Lemma TrimPrefix_app (p s : string) : TrimPrefix (p +:+ s) p = s.
Proof. unfold TrimPrefix, HasPrefix. rewrite prefix_app. apply drop_bytes_app. Qed.

Lemma tokenMiddleware_bearer (store_Validate : string -> string) (token : string) :
  tokenMiddleware store_Validate ("Bearer " +:+ token) =
    (if String.eqb (store_Validate token) ""
     then Respond (http_Error "invalid or expired token" 401)
     else Next {| ctx_userID := store_Validate token;
                  ctx_executionID := store_Validate token;
                  ctx_jwtClaims := None |}).
Proof.
  unfold tokenMiddleware.
  rewrite (TrimPrefix_app "Bearer " token).
  by assert (HasPrefix ("Bearer " +:+ token) "Bearer " = true) as ->
    by apply prefix_app.
Qed.

Lemma jwtMiddleware_bearer (validate : string -> string + JWT.JWTClaims)
    (token : string) :
  jwtMiddleware validate ("Bearer " +:+ token) =
    match validate token with
    | inl _ => Respond (http_Error "invalid or expired token" 401)
    | inr claims => Next {| ctx_userID := JWT.Subject claims;
                            ctx_executionID := "";
                            ctx_jwtClaims := Some claims |}
    end.
Proof.
  unfold jwtMiddleware.
  rewrite (TrimPrefix_app "Bearer " token).
  by assert (HasPrefix ("Bearer " +:+ token) "Bearer " = true) as ->
    by apply prefix_app.
Qed.

(** X14. What follows [Bearer ] in the header is handed to the validator
    byte for byte, spaces and further [Bearer ] prefixes included.  The
    token authenticator forwards the request exactly when the store knows
    the token, with the execution id as user id; the JWT authenticator
    exactly when the validator returns claims, with the subject as user id
    and no execution id. *)
Theorem bearer_token_decides (store_Validate : string -> string)
    (validate : string -> string + JWT.JWTClaims) (token : string) :
  tokenMiddleware store_Validate ("Bearer " +:+ token) =
    (if String.eqb (store_Validate token) ""
     then Respond (http_Error "invalid or expired token" 401)
     else Next {| ctx_userID := store_Validate token;
                  ctx_executionID := store_Validate token;
                  ctx_jwtClaims := None |}) /\
  jwtMiddleware validate ("Bearer " +:+ token) =
    match validate token with
    | inl _ => Respond (http_Error "invalid or expired token" 401)
    | inr claims => Next {| ctx_userID := JWT.Subject claims;
                            ctx_executionID := "";
                            ctx_jwtClaims := Some claims |}
    end.
Proof. split; [apply tokenMiddleware_bearer | apply jwtMiddleware_bearer]. Qed.

(** *** The audited datasource *)

Lemma substring_length (n : nat) (s : string) :
  String.length (String.substring 0 n s) = Nat.min n (String.length s).
Proof.
  revert s. induction n as [|n IH]; intros [|c s]; simpl; try reflexivity.
  by rewrite IH.
Qed.

Lemma substring_prefix (p s : string) :
  String.eqb (String.substring 0 (String.length p) s) p = String.prefix p s.
Proof.
  revert s. induction p as [|a p IH]; intros [|c s]; simpl; try reflexivity.
  destruct (ascii_dec a c) as [->|Hne].
  - rewrite Ascii.eqb_refl. apply IH.
  - destruct (Ascii.eqb_spec c a) as [->|]; [contradiction|reflexivity].
Qed.

Lemma prefix_length (p s : string) :
  String.prefix p s = true -> (String.length p <= String.length s)%nat.
Proof.
  revert s. induction p as [|a p IH]; intros [|c s]; simpl; try lia; try discriminate.
  destruct (ascii_dec a c); [|discriminate]. intros H. apply IH in H. lia.
Qed.

Lemma prefix_head2 (a b : ascii) (p s : string) :
  String.prefix (String a (String b p)) s = true -> String.get 1 s = Some b.
Proof.
  destruct s as [|c0 [|c1 s]]; simpl; try discriminate.
  - destruct (ascii_dec a c0); discriminate.
  - destruct (ascii_dec a c0); [|discriminate].
    destruct (ascii_dec b c1) as [->|]; [reflexivity|discriminate].
Qed.

(** The guarded comparison of [extractDatasource] with a full-length
    slice is a prefix test. *)
Lemma guarded_slice (n : nat) (p s : string) :
  String.length p = S n ->
  (n <? String.length s)%nat && String.eqb (slice_to s (S n)) p = HasPrefix s p.
Proof.
  intros Hlen. unfold slice_to, HasPrefix. rewrite <- Hlen, substring_prefix.
  destruct (String.prefix p s) eqn:E; [|apply andb_false_r].
  apply prefix_length in E. rewrite andb_true_r. apply Nat.ltb_lt.
  rewrite Hlen in E. exact E.
Qed.

(** X15. [extractDatasource] names clickhouse, loki and s3 exactly for the
    paths under their prefixes.  It never answers prometheus: the slice it
    compares is one byte longer than the prefix, so paths under
    [/prometheus/] are audited as unknown. *)
Theorem extractDatasource_prefixes (path : string) :
  (extractDatasource path = "clickhouse" <-> HasPrefix path "/clickhouse/" = true) /\
  (extractDatasource path = "loki" <-> HasPrefix path "/loki/" = true) /\
  (extractDatasource path = "s3" <-> HasPrefix path "/s3/" = true) /\
  extractDatasource path <> "prometheus" /\
  (HasPrefix path "/prometheus/" = true -> extractDatasource path = "unknown").
Proof.
  unfold extractDatasource.
  rewrite (guarded_slice 11 "/clickhouse/" path) by reflexivity.
  rewrite (guarded_slice 5 "/loki/" path) by reflexivity.
  rewrite (guarded_slice 3 "/s3/" path) by reflexivity.
  assert ((12 <? String.length path)%nat
          && String.eqb (slice_to path 13) "/prometheus/" = false) as ->.
  { destruct (Nat.ltb_spec 12 (String.length path)) as [Hlen|]; [|reflexivity].
    simpl. apply String.eqb_neq. intros Heq.
    apply (f_equal String.length) in Heq. unfold slice_to in Heq.
    rewrite substring_length in Heq.
    change (String.length "/prometheus/") with 12%nat in Heq. lia. }
  unfold HasPrefix.
  destruct (String.prefix "/clickhouse/" path) eqn:E1;
    destruct (String.prefix "/loki/" path) eqn:E2;
    destruct (String.prefix "/s3/" path) eqn:E3;
    try apply prefix_head2 in E1; try apply prefix_head2 in E2;
    try apply prefix_head2 in E3; try congruence;
    (repeat split; try discriminate; try reflexivity;
     intros H; try discriminate H; apply prefix_head2 in H; congruence).
Qed.

Lemma extractDatasource_prefixes_witness :
  extractDatasource "/loki/api/v1/query" = "loki" /\
  extractDatasource "/prometheus/api/v1/query" = "unknown".
Proof.
  destruct (extractDatasource_prefixes "/loki/api/v1/query") as (_ & Hl & _).
  destruct (extractDatasource_prefixes "/prometheus/api/v1/query")
    as (_ & _ & _ & _ & Hp).
  split; [apply Hl | apply Hp]; reflexivity.
Defined.

(** *** The audit log *)

(** X16. With a non-negative [MaxQueryLength] the logged query is the
    query itself when it fits, else its first [MaxQueryLength] bytes
    followed by three dots: never more than [MaxQueryLength + 3] bytes.
    With a negative [MaxQueryLength] every query is longer than the bound,
    the slice panics, and no request is logged while [LogQueries] is on. *)
Theorem logged_query_is_bounded (cfg : AuditorConfig) (query : string) :
  (0 <= MaxQueryLength cfg ->
     exists logged,
       truncateQuery cfg query = Some logged /\
       Z.of_nat (String.length logged) <= MaxQueryLength cfg + 3 /\
       (Z.of_nat (String.length query) <= MaxQueryLength cfg -> logged = query) /\
       (MaxQueryLength cfg < Z.of_nat (String.length query) ->
          logged = slice_to query (Z.to_nat (MaxQueryLength cfg)) +:+ "...")) /\
  (MaxQueryLength cfg < 0 ->
     truncateQuery cfg query = None /\
     (LogQueries cfg = true ->
        forall ctx r queryParam resp duration,
          auditEntry cfg ctx r queryParam resp duration = None)).
Proof.
  split.
  - intros Hmax. unfold truncateQuery.
    destruct (Z.ltb_spec (MaxQueryLength cfg) (Z.of_nat (String.length query)))
      as [Hlong|Hfits].
    + assert ((MaxQueryLength cfg <? 0) = false) as -> by (apply Z.ltb_ge; lia).
      eexists. split; [reflexivity|]. split; [|split; [lia|reflexivity]].
      rewrite RateLimitFacts.length_append. unfold slice_to.
      rewrite substring_length.
      change (String.length "...") with 3%nat. lia.
    + exists query. split; [reflexivity|]. split; [lia|]. split; [reflexivity|lia].
  - intros Hneg.
    assert (forall q, truncateQuery cfg q = None) as Hpanic.
    { intros q. unfold truncateQuery.
      assert ((MaxQueryLength cfg <? Z.of_nat (String.length q)) = true) as ->
        by (apply Z.ltb_lt; lia).
      by assert ((MaxQueryLength cfg <? 0) = true) as -> by (apply Z.ltb_lt; lia). }
    split; [apply Hpanic|].
    intros Hlog ctx r queryParam resp duration.
    unfold auditEntry. cbv zeta. rewrite Hlog. by rewrite Hpanic.
Qed.

Lemma logged_query_is_bounded_witness :
  truncateQuery MoreScenarios.short_audit "SELECT 1 FROM t" = Some "SELECT 1..." /\
  truncateQuery {| LogQueries := true; MaxQueryLength := -1 |} "" = None.
Proof.
  destruct (logged_query_is_bounded MoreScenarios.short_audit "SELECT 1 FROM t")
    as [Hpos _].
  destruct (logged_query_is_bounded {| LogQueries := true; MaxQueryLength := -1 |} "")
    as [_ Hneg].
  split.
  - destruct Hpos as (logged & -> & _ & _ & ->); [vm_compute; discriminate| |];
      [reflexivity | vm_compute; reflexivity].
  - apply Hneg. reflexivity.
Defined.

(** *** The middleware chain *)

Lemma HasPrefix_split (s p : string) :
  HasPrefix s p = true -> s = p +:+ TrimPrefix s p.
Proof.
  unfold TrimPrefix. intros H. rewrite H. unfold HasPrefix in H.
  revert s H. induction p as [|a p IH]; intros [|c s] H; simpl in *;
    try reflexivity; try discriminate.
  destruct (ascii_dec a c) as [->|]; [|discriminate].
  change (String c p +:+ drop_bytes (String.length p) s)
    with (String c (p +:+ drop_bytes (String.length p) s)).
  f_equal. exact (IH s H).
Qed.

Lemma jwtMiddleware_Next (validate : string -> string + JWT.JWTClaims)
    (auth : string) (ctx : AuthContext) :
  jwtMiddleware validate auth = Next ctx ->
  exists token claims,
    auth = "Bearer " +:+ token /\ validate token = inr claims /\
    ctx = {| ctx_userID := JWT.Subject claims; ctx_executionID := "";
             ctx_jwtClaims := Some claims |}.
Proof.
  unfold jwtMiddleware.
  destruct (String.eqb auth ""); [discriminate|].
  destruct (HasPrefix auth "Bearer ") eqn:Hp; simpl; [|discriminate].
  destruct (validate (TrimPrefix auth "Bearer ")) as [err|claims] eqn:Hv;
    [discriminate|].
  intros [= <-]. exists (TrimPrefix auth "Bearer "), claims.
  split; [by apply HasPrefix_split|]. by split.
Qed.

Lemma jwtMiddleware_Respond (validate : string -> string + JWT.JWTClaims)
    (auth : string) (resp : HTTPResponse) :
  jwtMiddleware validate auth = Respond resp -> status resp = 401.
Proof.
  unfold jwtMiddleware.
  destruct (String.eqb auth ""); [by intros [= <-]|].
  destruct (HasPrefix auth "Bearer "); simpl; [|by intros [= <-]].
  destruct (validate _); [by intros [= <-]|discriminate].
Qed.

Lemma rateLimit_TooMany (cfg : RateLimiterConfig)
    (limiters limiters' : gmap string Middleware.Limiter) (ctx : AuthContext) (t : Z)
    (headers : gmap string string) (resp : HTTPResponse) :
  rateLimit cfg limiters ctx t = (TooMany headers resp, limiters') ->
  GetUserID ctx <> "" /\ fst (Allow cfg limiters (GetUserID ctx) t) = false /\
  headers = {[ "Retry-After" := "60" ]} /\
  resp = http_Error "rate limit exceeded" 429.
Proof.
  unfold rateLimit. cbv zeta.
  destruct (String.eqb_spec (GetUserID ctx) "") as [|Hne]; [discriminate|].
  destruct (Allow cfg limiters (GetUserID ctx) t) as [ok l'].
  destruct ok; simpl; [discriminate|]. by intros [= <- <- <-].
Qed.

(** X17. In JWT mode the handler runs only for a request whose
    [Authorization] header is [Bearer ] followed by a string the validator
    accepts, and it answers with the claims of that string in its context.
    A request that is not handled is never audited: it was answered 401
    before the user limiters were touched, or 429 with [Retry-After: 60]
    by the rate limiter. *)
Theorem only_validated_requests_are_served
    (validate : string -> string + JWT.JWTClaims)
    (rl : option RateLimiterConfig) (au : option AuditorConfig)
    (handler : AuthContext -> Middleware.Request -> HTTPResponse)
    (limiters : gmap string Middleware.Limiter)
    (r : Middleware.Request) (queryParam : string) (t : Z) (duration : string) :
  let s := {| authenticator := jwtMiddleware validate;
              rateLimiter := rl; auditor := au |} in
  let out := chain s handler limiters r queryParam t duration in
  (handlerCalled out = true ->
     exists token claims,
       Middleware.Header_Get (Middleware.Header r) "Authorization"
         = "Bearer " +:+ token /\
       validate token = inr claims /\
       response out =
         handler {| ctx_userID := JWT.Subject claims; ctx_executionID := "";
                    ctx_jwtClaims := Some claims |} r) /\
  (handlerCalled out = false ->
     audit out = NotAudited /\
     (status (response out) = 401 /\ limitersAfter out = limiters \/
      status (response out) = 429 /\
      responseHeaders out !! "Retry-After" = Some "60" /\ is_Some rl)).
Proof.
  intros s out. subst out. unfold chain. simpl.
  destruct (jwtMiddleware validate _) as [resp|ctx] eqn:Hauth.
  - simpl. split; [discriminate|]. intros _. split; [reflexivity|]. left.
    split; [|reflexivity]. by apply jwtMiddleware_Respond in Hauth.
  - destruct (jwtMiddleware_Next _ _ _ Hauth) as (token & claims & Hh & Hv & ->).
    destruct rl as [cfg|].
    + destruct (rateLimit cfg limiters _ t) as [[|headers resp] limiters'] eqn:Hrl;
        simpl.
      * split; [|discriminate]. intros _. by exists token, claims.
      * split; [discriminate|]. intros _. split; [reflexivity|]. right.
        apply rateLimit_TooMany in Hrl as (_ & _ & -> & ->).
        split; [reflexivity|]. split; [|by eexists].
        apply lookup_singleton_eq.
    + simpl. split; [|discriminate]. intros _. by exists token, claims.
Qed.

Lemma only_validated_requests_are_served_witness :
  handlerCalled (chain MoreScenarios.jwt_proxy MoreScenarios.ok_handler ∅
                   (MoreScenarios.bearer_request "Bearer nope") ""
                   (5 * Config.Second) "1ms") = false /\
  audit (chain MoreScenarios.jwt_proxy MoreScenarios.ok_handler ∅
           (MoreScenarios.bearer_request "Bearer nope") ""
           (5 * Config.Second) "1ms") = NotAudited.
Proof.
  assert (handlerCalled (chain MoreScenarios.jwt_proxy MoreScenarios.ok_handler ∅
                           (MoreScenarios.bearer_request "Bearer nope") ""
                           (5 * Config.Second) "1ms") = false) as H
    by (vm_compute; reflexivity).
  split; [exact H|].
  exact (proj1 (proj2 (only_validated_requests_are_served
                         MoreScenarios.jwt1_validate
                         (Some MoreScenarios.closed_limit)
                         (Some MoreScenarios.short_audit)
                         MoreScenarios.ok_handler ∅
                         (MoreScenarios.bearer_request "Bearer nope") ""
                         (5 * Config.Second) "1ms") H)).
Defined.

(** X18. The rate limiter counts by user id.  In JWT mode a validated
    token without a subject passes the limiter without being counted,
    whatever the configured limit: the limiters are left as they were and
    the handler runs.  In token mode a forwarded request always has a user
    id, the execution id of its token, and has been counted against it. *)
Theorem limiter_counts_only_user_ids
    (cfg : RateLimiterConfig) (au : option AuditorConfig)
    (handler : AuthContext -> Middleware.Request -> HTTPResponse)
    (limiters : gmap string Middleware.Limiter)
    (r : Middleware.Request) (queryParam : string) (t : Z) (duration : string)
    (token : string) :
  Middleware.Header_Get (Middleware.Header r) "Authorization" = "Bearer " +:+ token ->
  (forall validate claims,
     validate token = inr claims -> JWT.Subject claims = "" ->
     let out := chain {| authenticator := jwtMiddleware validate;
                         rateLimiter := Some cfg; auditor := au |}
                      handler limiters r queryParam t duration in
     handlerCalled out = true /\ limitersAfter out = limiters) /\
  (forall store_Validate,
     let out := chain {| authenticator := tokenMiddleware store_Validate;
                         rateLimiter := Some cfg; auditor := au |}
                      handler limiters r queryParam t duration in
     handlerCalled out = true ->
     store_Validate token <> "" /\
     Allow cfg limiters (store_Validate token) t = (true, limitersAfter out) /\
     is_Some (limitersAfter out !! store_Validate token)).
Proof.
  intros Hh. split.
  - intros validate claims Hv Hsub out. subst out. unfold chain. simpl.
    rewrite Hh, jwtMiddleware_bearer.
    rewrite Hv. simpl. unfold rateLimit, GetUserID. simpl. rewrite Hsub. simpl.
    by split.
  - intros store_Validate out. subst out. unfold chain. simpl.
    rewrite Hh, tokenMiddleware_bearer.
    destruct (String.eqb_spec (store_Validate token) "") as [|Hne];
      [discriminate|].
    unfold rateLimit, GetUserID. simpl.
    destruct (String.eqb_spec (store_Validate token) "") as [|_]; [contradiction|].
    destruct (Allow cfg limiters (store_Validate token) t) as [ok limiters'] eqn:HA.
    destruct ok; simpl; [|discriminate]. intros _. split; [exact Hne|].
    split; [reflexivity|].
    unfold Allow in HA. destruct (getLimiter cfg limiters _) as [l l1].
    destruct (Middleware.Limiter_Allow l t) as [ok' l'].
    injection HA as _ <-. rewrite lookup_insert_eq. by eexists.
Qed.

Lemma limiter_counts_only_user_ids_witness :
  handlerCalled (chain MoreScenarios.jwt_proxy MoreScenarios.ok_handler ∅
                   (MoreScenarios.bearer_request "Bearer t1") ""
                   (5 * Config.Second) "1ms") = true /\
  limitersAfter (chain MoreScenarios.jwt_proxy MoreScenarios.ok_handler ∅
                   (MoreScenarios.bearer_request "Bearer t1") ""
                   (5 * Config.Second) "1ms") = ∅.
Proof.
  assert (Middleware.Header_Get
            (Middleware.Header (MoreScenarios.bearer_request "Bearer t1"))
            "Authorization" = "Bearer " +:+ "t1") as Hh
    by (vm_compute; reflexivity).
  destruct (MoreScenarios.jwt1_validate "t1") as [err|claims] eqn:Hv;
    [vm_compute in Hv; discriminate|].
  assert (JWT.Subject claims = "") as Hsub
    by (vm_compute in Hv; injection Hv as <-; reflexivity).
  exact (proj1 (limiter_counts_only_user_ids
                  MoreScenarios.closed_limit (Some MoreScenarios.short_audit)
                  MoreScenarios.ok_handler ∅
                  (MoreScenarios.bearer_request "Bearer t1") ""
                  (5 * Config.Second) "1ms" "t1" Hh)
               MoreScenarios.jwt1_validate claims Hv Hsub).
Defined.

(** *** The per-user limiters *)

Lemma getLimiter_configured (cfg : RateLimiterConfig)
    (limiters : gmap string Middleware.Limiter) (userID : string) :
  configured cfg limiters ->
  Middleware.lim_limit (fst (getLimiter cfg limiters userID))
    = (inject_Z (RequestsPerMinute cfg) / 60)%Q /\
  Middleware.lim_burst (fst (getLimiter cfg limiters userID)) = BurstSize cfg /\
  configured cfg (snd (getLimiter cfg limiters userID)).
Proof.
  intros Hc. unfold getLimiter.
  destruct (limiters !! userID) as [l|] eqn:E; simpl.
  - destruct (Hc _ _ E) as [H1 H2]. split; [exact H1|]. split; [exact H2|exact Hc].
  - split; [reflexivity|]. split; [reflexivity|].
    apply map_Forall_insert_2; [by split|exact Hc].
Qed.

Lemma Allow_configured (cfg : RateLimiterConfig)
    (limiters : gmap string Middleware.Limiter) (userID : string) (t : Z) :
  configured cfg limiters -> configured cfg (snd (Allow cfg limiters userID t)).
Proof.
  intros Hc. unfold Allow.
  destruct (getLimiter_configured cfg limiters userID Hc) as (H1 & H2 & H3).
  destruct (getLimiter cfg limiters userID) as [l l1]. simpl in *.
  destruct (RateLimitFacts.Limiter_Allow_parameters l t) as [P1 P2].
  destruct (Middleware.Limiter_Allow l t) as [ok l']. simpl in *.
  apply map_Forall_insert_2; [|exact H3]. split; congruence.
Qed.

Lemma Limiter_Allow_no_burst (lim : Middleware.Limiter) (t : Z) :
  Middleware.lim_burst lim <= 0 -> Middleware.Limiter_Allow lim t = (false, lim).
Proof.
  intros Hb. unfold Middleware.Limiter_Allow. cbv zeta.
  by assert ((1 <=? Middleware.lim_burst lim) = false) as ->
    by (apply Z.leb_gt; lia).
Qed.

(** X19. A burst size of zero or less closes the proxy to every
    identified user: whatever the rate and however long the user has
    waited, the request is answered 429 with [Retry-After: 60]. *)
Theorem nonpositive_burst_refuses_everyone (cfg : RateLimiterConfig)
    (limiters : gmap string Middleware.Limiter) (ctx : AuthContext) (t : Z) :
  BurstSize cfg <= 0 ->
  configured cfg limiters ->
  GetUserID ctx <> "" ->
  fst (rateLimit cfg limiters ctx t) =
    TooMany {[ "Retry-After" := "60" ]} (http_Error "rate limit exceeded" 429) /\
  configured cfg (snd (rateLimit cfg limiters ctx t)).
Proof.
  intros Hb Hc Hid.
  pose proof (Allow_configured cfg limiters (GetUserID ctx) t Hc) as Hc'.
  unfold rateLimit. cbv zeta.
  destruct (String.eqb_spec (GetUserID ctx) "") as [|_]; [contradiction|].
  assert (fst (Allow cfg limiters (GetUserID ctx) t) = false) as Hno.
  { unfold Allow.
    destruct (getLimiter_configured cfg limiters (GetUserID ctx) Hc) as (_ & H2 & _).
    destruct (getLimiter cfg limiters (GetUserID ctx)) as [l l1]. simpl in H2.
    rewrite Limiter_Allow_no_burst by lia. reflexivity. }
  destruct (Allow cfg limiters (GetUserID ctx) t) as [ok limiters'].
  simpl in Hno, Hc'. subst ok. simpl. by split.
Qed.

Lemma nonpositive_burst_refuses_everyone_witness :
  fst (rateLimit MoreScenarios.closed_limit ∅
         {| ctx_userID := "alice"; ctx_executionID := ""; ctx_jwtClaims := None |}
         (3600 * Config.Second)) =
    TooMany {[ "Retry-After" := "60" ]} (http_Error "rate limit exceeded" 429).
Proof.
  apply (nonpositive_burst_refuses_everyone MoreScenarios.closed_limit ∅
           {| ctx_userID := "alice"; ctx_executionID := ""; ctx_jwtClaims := None |}
           (3600 * Config.Second)).
  - vm_compute. discriminate.
  - apply map_Forall_empty.
  - discriminate.
Defined.

Lemma Allow_fst (cfg : RateLimiterConfig)
    (limiters : gmap string Middleware.Limiter) (userID : string) (t : Z) :
  fst (Allow cfg limiters userID t) =
  fst (Middleware.Limiter_Allow (fst (getLimiter cfg limiters userID)) t).
Proof.
  unfold Allow. destruct (getLimiter cfg limiters userID) as [l l1].
  change (fst (l, l1)) with l. by destruct (Middleware.Limiter_Allow l t).
Qed.

(** The decision of a limiter whose bucket is full. *)
Lemma Limiter_Allow_full (lim : Middleware.Limiter) (t : Z) :
  (Middleware.advance lim t == inject_Z (Middleware.lim_burst lim))%Q ->
  fst (Middleware.Limiter_Allow lim t) = (1 <=? Middleware.lim_burst lim).
Proof.
  intros Hfull. destruct (Z.leb_spec 1 (Middleware.lim_burst lim)) as [Hb|Hb].
  - rewrite MiddlewareFacts.Limiter_Allow_admits; [reflexivity|].
    rewrite Hfull. change 1%Q with (inject_Z 1). by rewrite <- Zle_Qle.
  - rewrite Limiter_Allow_no_burst by lia. reflexivity.
Qed.

(** X20. The periodic cleanup cannot be observed through the next
    decision, whatever the configured rate and burst.  When every limiter
    in the map was created under the configuration, the cleanup deletes
    those whose bucket has refilled, and the next request of any user, at
    the time of the cleanup or later, is decided by a fresh full bucket
    exactly as the deleted one would have decided it. *)
Theorem cleanup_keeps_next_decision (cfg : RateLimiterConfig)
    (limiters : gmap string Middleware.Limiter) (userID : string) (t0 t : Z) :
  configured cfg limiters ->
  t0 <= t ->
  fst (Allow cfg (cleanup cfg limiters t0) userID t)
    = fst (Allow cfg limiters userID t) /\
  configured cfg (cleanup cfg limiters t0).
Proof.
  intros Hc Ht0.
  split.
  - rewrite !Allow_fst. unfold getLimiter, cleanup.
    destruct (limiters !! userID) as [l|] eqn:E.
    + destruct (Qle_bool (inject_Z (BurstSize cfg)) (Middleware.Tokens l t0)) eqn:Hfull.
      * assert (filter (fun kv : string * Middleware.Limiter =>
                          Qle_bool (inject_Z (BurstSize cfg))
                                   (Middleware.Tokens (snd kv) t0) = false)
                       limiters !! userID = None) as ->.
        { apply map_lookup_filter_None. right. intros l' El'. simpl.
          rewrite E in El'. injection El' as <-. congruence. }
        simpl. destruct (Hc _ _ E) as [Hl Hb].
        apply Qle_bool_iff in Hfull. unfold Middleware.Tokens in Hfull.
        rewrite !Limiter_Allow_full; [by rewrite Hb| |].
        -- pose proof (MiddlewareFacts.advance_le_burst l t) as Hle.
           pose proof (MiddlewareFacts.advance_grows l t0 t Ht0) as Hmono.
           rewrite Hb in Hle |- *. lra.
        -- apply RateLimitFacts.advance_unused.
      * assert (filter (fun kv : string * Middleware.Limiter =>
                          Qle_bool (inject_Z (BurstSize cfg))
                                   (Middleware.Tokens (snd kv) t0) = false)
                       limiters !! userID = Some l) as ->.
        { apply map_lookup_filter_Some. by split. }
        reflexivity.
    + assert (filter (fun kv : string * Middleware.Limiter =>
                        Qle_bool (inject_Z (BurstSize cfg))
                                 (Middleware.Tokens (snd kv) t0) = false)
                     limiters !! userID = None) as ->.
      { apply map_lookup_filter_None. left. exact E. }
      reflexivity.
  - intros k l Hk. apply map_lookup_filter_Some in Hk as [Hk _]. exact (Hc k l Hk).
Qed.

Lemma cleanup_keeps_next_decision_witness :
  fst (Allow MoreScenarios.two_a_minute
         (cleanup MoreScenarios.two_a_minute MoreScenarios.one_user_limiters
                  (600 * Config.Second))
         "exec-1" (601 * Config.Second))
  = fst (Allow MoreScenarios.two_a_minute MoreScenarios.one_user_limiters
           "exec-1" (601 * Config.Second)).
Proof.
  apply (cleanup_keeps_next_decision MoreScenarios.two_a_minute
           MoreScenarios.one_user_limiters "exec-1"
           (600 * Config.Second) (601 * Config.Second)).
  - apply (Allow_configured MoreScenarios.two_a_minute ∅ "exec-1" (5 * Config.Second)).
    apply map_Forall_empty.
  - vm_compute. discriminate.
Defined.

End ProxyFacts.

(** ** The CBT proxy *)

Module CBTProxyFacts.
Import GoStrings Handlers CBTProxy.

(** X21. Whatever the library's director does first, the request that
    leaves the CBT proxy carries no [Authorization] and no [Host] header,
    keeps every other header, has the URL host as its [Host], and has a
    non-empty path: one leading [/cbt] is removed, and the empty rest
    becomes [/].  The prefix is removed as bytes, not as a path segment. *)
Theorem Director_strips_token_and_prefix
    (originalDirector : OutRequest -> OutRequest) (req : OutRequest) :
  let mid := originalDirector req in
  let out := Director originalDirector req in
  out_Header out !! "Authorization" = None /\
  out_Header out !! "Host" = None /\
  (forall key, key <> "Authorization" -> key <> "Host" ->
     out_Header out !! key = out_Header mid !! key) /\
  out_Host out = out_URLHost mid /\
  out_URLHost out = out_URLHost mid /\
  out_URLPath out <> "" /\
  (forall rest, out_URLPath mid = "/cbt" +:+ rest ->
     out_URLPath out = if String.eqb rest "" then "/" else rest) /\
  (HasPrefix (out_URLPath mid) "/cbt" = false ->
     out_URLPath out = if String.eqb (out_URLPath mid) "" then "/" else out_URLPath mid).
Proof.
  intros mid out. subst out. unfold Director, Header_Del. fold mid. simpl.
  split; [|split; [|split; [|split; [|split; [|split; [|split]]]]]].
  - rewrite lookup_delete_ne by discriminate. apply lookup_delete_eq.
  - apply lookup_delete_eq.
  - intros key H1 H2. by rewrite !lookup_delete_ne.
  - reflexivity.
  - reflexivity.
  - destruct (String.eqb_spec (TrimPrefix (out_URLPath mid) "/cbt") "");
      [discriminate|done].
  - intros rest ->. by rewrite (ProxyFacts.TrimPrefix_app "/cbt" rest).
  - intros Hno. unfold TrimPrefix. by rewrite Hno.
Qed.

Lemma Director_strips_token_and_prefix_witness :
  out_URLPath (Director MoreScenarios.to_upstream
                 (MoreScenarios.sandbox_request "/cbt/api/v1/models"))
    = "/api/v1/models" /\
  out_URLPath (Director MoreScenarios.to_upstream
                 (MoreScenarios.sandbox_request "/cbtx")) = "x".
Proof.
  destruct (Director_strips_token_and_prefix MoreScenarios.to_upstream
              (MoreScenarios.sandbox_request "/cbt/api/v1/models"))
    as (_ & _ & _ & _ & _ & _ & H1 & _).
  destruct (Director_strips_token_and_prefix MoreScenarios.to_upstream
              (MoreScenarios.sandbox_request "/cbtx"))
    as (_ & _ & _ & _ & _ & _ & H2 & _).
  split.
  - exact (H1 "/api/v1/models" eq_refl).
  - exact (H2 "x" eq_refl).
Defined.

Section Instances.
Context {urls : URLLib}.

Lemma fold_instances_last (post : list CBTConfig) (cfg : CBTConfig) :
  forall acc : gmap string cbtInstance,
    Forall (fun c => Name c <> Name cfg) post ->
    acc !! Name cfg = Some (createInstance cfg) ->
    fold_left (fun instances c => <[Name c := createInstance c]> instances)
              post acc !! Name cfg = Some (createInstance cfg).
Proof.
  induction post as [|c post IH]; intros acc Hall Hacc; simpl; [exact Hacc|].
  apply Forall_cons in Hall as [Hc Hall].
  apply IH; [exact Hall|]. by rewrite lookup_insert_ne.
Qed.

(** X22. The instance names the handler reports are the configured names,
    each once.  When a name is configured more than once, the instance kept
    under it is built from the last configuration with that name. *)
Theorem Instances_are_the_configured_names (configs : list CBTConfig) :
  NoDup (Instances (NewCBTHandler configs)) /\
  (forall name,
     name ∈ Instances (NewCBTHandler configs) <->
     exists cfg, cfg ∈ configs /\ Name cfg = name) /\
  (forall pre cfg post,
     configs = (pre ++ cfg :: post)%list ->
     Forall (fun c => Name c <> Name cfg) post ->
     NewCBTHandler configs !! Name cfg = Some (createInstance cfg)).
Proof.
  split; [apply NoDup_fst_map_to_list|]. split.
  - intros name. unfold Instances. rewrite list_elem_of_fmap. split.
    + intros ([k inst] & -> & Hin). apply elem_of_map_to_list in Hin.
      destruct (HandlersFacts.NewCBTHandler_lookup _ _ _ Hin) as (cfg & ? & ? & _).
      by exists cfg.
    + intros (cfg & Hin & <-).
      destruct (HandlersFacts.NewCBTHandler_registers configs cfg Hin) as [inst Hi].
      exists (Name cfg, inst). split; [reflexivity|]. by apply elem_of_map_to_list.
  - intros pre cfg post -> Hall. unfold NewCBTHandler.
    rewrite fold_left_app. simpl. apply fold_instances_last; [exact Hall|].
    apply lookup_insert_eq.
Qed.

End Instances.

Lemma Instances_are_the_configured_names_witness :
  NewCBTHandler MoreScenarios.cbt_configs_twice !! "mainnet"
  = Some (createInstance
            {| Name := "mainnet"; URL := "http://cbt2.internal:8080"; Timeout := 10 |}).
Proof.
  destruct (Instances_are_the_configured_names MoreScenarios.cbt_configs_twice)
    as (_ & _ & Hlast).
  exact (Hlast Scenarios.cbt_configs
           {| Name := "mainnet"; URL := "http://cbt2.internal:8080"; Timeout := 10 |}
           [] eq_refl (Forall_nil_2 _)).
Defined.

End CBTProxyFacts.

(** ** The execute_python tool *)

Module ToolMoreFacts.
Import Config GoStrings Tool.

Section Format.
Context {fmtlib : FmtLib}.

(** The loop of [formatSize] on an [int64]: it stops on its condition
    within six rounds, with [div] the largest power of 1024 not above
    [bytes]. *)
Lemma sizeLoop_units (bytes : Z) :
  1024 <= bytes < 2 ^ 63 ->
  exists exp,
    0 <= exp <= 5 /\
    sizeLoop 6 (Z.quot bytes unit_) unit_ 0 = (1024 ^ (exp + 1), exp) /\
    1024 ^ (exp + 1) <= bytes < 1024 ^ (exp + 2).
Proof.
  intros [Hlo Hhi]. unfold unit_. cbn [sizeLoop]. unfold unit_.
  rewrite !Z.quot_div_nonneg by (try apply Z.div_pos; try lia;
                                 repeat apply Z.div_pos; lia).
  rewrite !Z.div_div by lia.
  change (2 ^ 63) with 9223372036854775808 in Hhi.
  repeat match goal with
         | |- context [1024 <=? ?x] => destruct (Z.leb_spec 1024 x)
         end.
  all: first [ exists 0; split; [lia|]; split; [reflexivity|];
               simpl; Z.div_mod_to_equations; lia
             | exists 1; split; [lia|]; split; [reflexivity|];
               simpl; Z.div_mod_to_equations; lia
             | exists 2; split; [lia|]; split; [reflexivity|];
               simpl; Z.div_mod_to_equations; lia
             | exists 3; split; [lia|]; split; [reflexivity|];
               simpl; Z.div_mod_to_equations; lia
             | exists 4; split; [lia|]; split; [reflexivity|];
               simpl; Z.div_mod_to_equations; lia
             | exists 5; split; [lia|]; split; [reflexivity|];
               simpl; Z.div_mod_to_equations; lia
             | exfalso; Z.div_mod_to_equations; lia ].
Qed.

(** X23. [formatSize] prints a size below 1024, negative sizes included,
    as a plain number of bytes.  From 1024 up to the largest [int64] it
    divides by the largest power of 1024 that is not above the size, so
    the number printed lies between 1 and 1024, and the unit letter is the
    one of that power: the index into [KMGTPE] is never out of range. *)
Theorem formatSize_unit (bytes : Z) :
  (bytes < 1024 -> formatSize bytes = pretty bytes +:+ " B") /\
  (1024 <= bytes < 2 ^ 63 ->
     exists exp c,
       0 <= exp <= 5 /\
       String.get (Z.to_nat exp) "KMGTPE" = Some c /\
       1024 ^ (exp + 1) <= bytes < 1024 * 1024 ^ (exp + 1) /\
       formatSize bytes =
         fmt_f1 (inject_Z bytes / inject_Z (1024 ^ (exp + 1)))%Q
         +:+ " " +:+ String c EmptyString +:+ "B").
Proof.
  split.
  - intros Hlt. unfold formatSize, unit_.
    by assert ((bytes <? 1024) = true) as -> by (apply Z.ltb_lt; lia).
  - intros Hr. destruct (sizeLoop_units bytes Hr) as (exp & Hexp & Hloop & Hb).
    assert (exists c, String.get (Z.to_nat exp) "KMGTPE" = Some c) as [c Hc].
    { assert (exp = 0 \/ exp = 1 \/ exp = 2 \/ exp = 3 \/ exp = 4 \/ exp = 5)
        as [->|[->|[->|[->|[->| ->]]]]] by lia; eexists; reflexivity. }
    exists exp, c. split; [exact Hexp|]. split; [exact Hc|]. split.
    + replace (1024 * 1024 ^ (exp + 1)) with (1024 ^ (exp + 2)); [exact Hb|].
      replace (exp + 2) with (Z.succ (exp + 1)) by lia.
      rewrite Z.pow_succ_r by lia. reflexivity.
    + unfold formatSize.
      assert ((bytes <? unit_) = false) as -> by (apply Z.ltb_ge; unfold unit_; lia).
      rewrite Hloop, Hc. reflexivity.
Qed.

End Format.

#[local] Existing Instance Scenarios.plain_fmt.
#[local] Existing Instance Scenarios.exit3_sandbox.

Lemma formatSize_unit_witness :
  exists exp c,
    0 <= exp <= 5 /\
    String.get (Z.to_nat exp) "KMGTPE" = Some c /\
    1024 ^ (exp + 1) <= 5242880 < 1024 * 1024 ^ (exp + 1) /\
    formatSize 5242880 =
      fmt_f1 (inject_Z 5242880 / inject_Z (1024 ^ (exp + 1)))%Q
      +:+ " " +:+ String c EmptyString +:+ "B".
Proof.
  apply (formatSize_unit 5242880). vm_compute. split; [discriminate|reflexivity].
Defined.

Section Handler.
Context {fmtlib : FmtLib} {sandboxSvc : Service}.
Variable cfg : Config.

Lemma executePython_valid (w : World) (user : option Z)
    (request : CallToolRequest) (code : string) :
  arg_code request = inr code -> code <> "" ->
  MinTimeout <= effectiveTimeout cfg request <= MaxTimeout ->
  executePython cfg w user request =
    let req := executeRequest cfg code (effectiveTimeout cfg request) user request in
    let w1 := {| sessionsWithResourceTip := sessionsWithResourceTip w;
                 executed := req :: executed w |} in
    match Execute req with
    | inl err => (CallToolError ("execution error: " +:+ err), w1)
    | inr result =>
        let response := formatExecutionResult result cfg in
        let sessionKey :=
          if String.eqb (SessionID result) "" then ExecutionID result
          else SessionID result in
        let alreadyShown := bool_decide (sessionKey ∈ sessionsWithResourceTip w1) in
        let response :=
          if negb alreadyShown then response +:+ resourceTipMessage
          else response in
        (CallToolSuccess response,
         {| sessionsWithResourceTip := {[sessionKey]} ∪ sessionsWithResourceTip w1;
            executed := executed w1 |})
    end.
Proof.
  intros Hcode Hne [Hlo Hhi]. unfold executePython.
  rewrite Hcode. apply String.eqb_neq in Hne. rewrite Hne.
  by assert ((effectiveTimeout cfg request <? MinTimeout)
             || (MaxTimeout <? effectiveTimeout cfg request) = false) as ->
    by (apply orb_false_iff; split; apply Z.ltb_ge; lia).
Qed.

(** X24. The resource tip is appended to the first successful result of a
    session and to no later one.  The session is the sandbox session when
    the result names one, else the single execution.  After a success the
    session is recorded, and every session recorded before stays so. *)
Theorem resource_tip_once_per_session (w : World) (user : option Z)
    (request : CallToolRequest) (code : string) (result : ExecutionResult) :
  arg_code request = inr code -> code <> "" ->
  MinTimeout <= effectiveTimeout cfg request <= MaxTimeout ->
  Execute (executeRequest cfg code (effectiveTimeout cfg request) user request)
    = inr result ->
  let key := if String.eqb (SessionID result) "" then ExecutionID result
             else SessionID result in
  let out := executePython cfg w user request in
  (key ∉ sessionsWithResourceTip w ->
     fst out = CallToolSuccess (formatExecutionResult result cfg +:+ resourceTipMessage)) /\
  (key ∈ sessionsWithResourceTip w ->
     fst out = CallToolSuccess (formatExecutionResult result cfg)) /\
  key ∈ sessionsWithResourceTip (snd out) /\
  sessionsWithResourceTip w ⊆ sessionsWithResourceTip (snd out).
Proof.
  intros Hcode Hne Hrange Hexec key out. subst out.
  rewrite (executePython_valid w user request code Hcode Hne Hrange).
  cbv zeta. rewrite Hexec. fold key. simpl.
  split; [|split; [|split]].
  - intros Hnew. by rewrite bool_decide_eq_false_2.
  - intros Hold. by rewrite bool_decide_eq_true_2.
  - apply elem_of_union_l. by apply elem_of_singleton.
  - apply union_subseteq_r.
Qed.

(** X25. The sandbox is called exactly for the calls whose arguments are
    valid: a [code] argument that is a non-empty string and an effective
    timeout from 1 to 300.  Such a call hands the sandbox one request, with
    the timeout in seconds, the session id of the call, the caller's id as
    owner and the environment of [buildSandboxEnv], service token included.
    Any other call changes nothing.  An error result, from the arguments
    or from the sandbox, records no session. *)
Theorem sandbox_is_called_iff_arguments_valid (w : World) (user : option Z)
    (request : CallToolRequest) :
  let timeout := effectiveTimeout cfg request in
  let out := executePython cfg w user request in
  (forall code,
     arg_code request = inr code -> code <> "" ->
     MinTimeout <= timeout <= MaxTimeout ->
     exists req,
       executed (snd out) = req :: executed w /\
       Code req = code /\ req_Timeout req = timeout * Second /\
       req_SessionID req = GetString request "" /\
       OwnerID req = match user with Some id => pretty id | None => "" end /\
       Env req = buildSandboxEnv cfg /\
       Env req !! "XATU_GRAFANA_TOKEN" = Some (gf_ServiceToken (Grafana cfg))) /\
  (snd out <> w ->
     exists code,
       arg_code request = inr code /\ code <> "" /\
       MinTimeout <= timeout <= MaxTimeout) /\
  (IsError (fst out) = true ->
     sessionsWithResourceTip (snd out) = sessionsWithResourceTip w).
Proof.
  intros timeout out. subst out timeout. split; [|split].
  - intros code Hcode Hne Hrange.
    rewrite (executePython_valid w user request code Hcode Hne Hrange).
    cbv zeta. eexists. split.
    + destruct (Execute _); reflexivity.
    + repeat split. unfold executeRequest, buildSandboxEnv. simpl.
      destruct (Storage cfg) as [storage|].
      * destruct (negb _);
          repeat (rewrite lookup_insert_ne by discriminate);
          repeat first [ apply lookup_insert_eq
                       | rewrite lookup_insert_ne by discriminate ].
      * repeat first [ apply lookup_insert_eq
                     | rewrite lookup_insert_ne by discriminate ].
  - unfold executePython.
    destruct (arg_code request) as [err|code] eqn:Hcode; [done|].
    destruct (String.eqb_spec code "") as [|Hne]; [done|].
    destruct (Z.ltb_spec (effectiveTimeout cfg request) MinTimeout); [done|].
    destruct (Z.ltb_spec MaxTimeout (effectiveTimeout cfg request)); [done|].
    intros _. exists code. repeat split; done.
  - unfold executePython.
    destruct (arg_code request) as [err|code]; [done|].
    destruct (String.eqb code ""); [done|].
    destruct (_ || _); [done|].
    cbv zeta. destruct (Execute _); [done|]. simpl. discriminate.
Qed.

End Handler.

Lemma resource_tip_once_per_session_witness :
  exists result,
    Execute (executeRequest (Scenarios.config_with_credentials 60)
               "import sys; sys.exit(3)" 60 None (Scenarios.call None)) = inr result /\
    fst (executePython (Scenarios.config_with_credentials 60)
           Scenarios.fresh_world None (Scenarios.call None))
    = CallToolSuccess (formatExecutionResult result (Scenarios.config_with_credentials 60)
                       +:+ resourceTipMessage).
Proof.
  destruct (Execute (executeRequest (Scenarios.config_with_credentials 60)
                       "import sys; sys.exit(3)" 60 None (Scenarios.call None)))
    as [err|result] eqn:E; [vm_compute in E; discriminate|].
  exists result. split; [reflexivity|].
  apply (resource_tip_once_per_session (Scenarios.config_with_credentials 60)
           Scenarios.fresh_world None (Scenarios.call None)
           "import sys; sys.exit(3)" result).
  - reflexivity.
  - discriminate.
  - vm_compute. split; discriminate.
  - exact E.
  - apply not_elem_of_empty.
Defined.

Lemma sandbox_is_called_iff_arguments_valid_witness :
  exists req,
    executed (snd (executePython (Scenarios.config_with_credentials 60)
                     Scenarios.fresh_world None (Scenarios.call None)))
    = req :: executed Scenarios.fresh_world /\
    req_Timeout req = 60 * Second.
Proof.
  destruct (sandbox_is_called_iff_arguments_valid (Scenarios.config_with_credentials 60)
              Scenarios.fresh_world None (Scenarios.call None)) as (H & _).
  destruct (H "import sys; sys.exit(3)") as (req & He & _ & Ht & _).
  - reflexivity.
  - discriminate.
  - vm_compute. split; discriminate.
  - exists req. split; [exact He | exact Ht].
Defined.

End ToolMoreFacts.

(** ** The rate-limit defaults *)

Module ConfigDefaultsFacts.
Import Config ConfigDefaults.

Lemma Qzero_spec (x : Q) : Qzero x = true <-> (x == 0)%Q.
Proof. unfold Qzero. apply Qeq_bool_iff. Qed.

Lemma Qpositive_false (x : Q) : (x <= 0)%Q -> Qpositive x = false.
Proof.
  intros H. destruct (Qpositive x) eqn:E; [|reflexivity].
  apply ConfigFacts.Qpositive_spec in E. lra.
Qed.

(** X26. [applyDefaults] fills in the default rule only, and only where a
    field is exactly zero: a default rule without a rate gets ten requests
    a second, one without a burst gets a burst of twenty.  A per-tool rule
    is used as configured, so a per-tool rule without a rate and a burst
    allows one request a second with a burst of one; and a default rule
    with a negative rate is left to the getter, which makes it one request
    a second. *)
Theorem defaults_reach_only_the_default_rule (rl : RateLimitConfig) :
  let cfg := applyDefaults_rateLimit rl in
  let default := rl_Default rl in
  ((RequestsPerSecond default == 0)%Q -> RequestsPerMinute default = 0 ->
     GetRequestsPerSecond (rl_Default cfg) = 10%Q) /\
  (BurstSize default = 0 -> GetBurstSize (rl_Default cfg) = 20) /\
  ((RequestsPerSecond default < 0)%Q -> RequestsPerMinute default <= 0 ->
     GetRequestsPerSecond (rl_Default cfg) = 1%Q) /\
  (forall toolName rule,
     toolName <> "" -> rl_PerTool rl !! toolName = Some rule ->
     Middleware.getRule cfg toolName = rule) /\
  (forall rule,
     (RequestsPerSecond rule == 0)%Q -> RequestsPerMinute rule = 0 ->
     BurstSize rule = 0 ->
     GetRequestsPerSecond rule = 1%Q /\ GetBurstSize rule = 1).
Proof.
  intros cfg default. subst cfg. unfold applyDefaults_rateLimit. fold default.
  split; [|split; [|split; [|split]]].
  - intros Hz Hm. unfold GetRequestsPerSecond. simpl.
    apply Qzero_spec in Hz. rewrite Hz, Hm. reflexivity.
  - intros Hb. unfold GetBurstSize. simpl. rewrite Hb. reflexivity.
  - intros Hneg Hm. unfold GetRequestsPerSecond. simpl.
    assert (Qzero (RequestsPerSecond default) = false) as ->.
    { destruct (Qzero _) eqn:E; [|reflexivity]. apply Qzero_spec in E. lra. }
    simpl. rewrite Qpositive_false by lra.
    by assert ((0 <? RequestsPerMinute default) = false) as ->
      by (apply Z.ltb_ge; lia).
  - intros toolName rule Hne Hrule. unfold Middleware.getRule. simpl.
    apply String.eqb_neq in Hne. by rewrite Hne, Hrule.
  - intros rule Hz Hm Hb.
    assert (GetRequestsPerSecond rule = 1%Q) as Hrate.
    { unfold GetRequestsPerSecond. rewrite Qpositive_false by lra.
      by rewrite Hm. }
    split; [exact Hrate|]. unfold GetBurstSize. rewrite Hb, Hrate. reflexivity.
Qed.

Lemma defaults_reach_only_the_default_rule_witness :
  GetRequestsPerSecond
    (rl_Default (applyDefaults_rateLimit
                   {| rl_Enabled := true; rl_Backend := "";
                      rl_Default := {| RequestsPerSecond := 0; RequestsPerMinute := 0;
                                       BurstSize := 0; BlockDuration := 0 |};
                      rl_PerTool := ∅; rl_TrustedProxies := [] |})) = 10%Q.
Proof.
  apply (defaults_reach_only_the_default_rule
           {| rl_Enabled := true; rl_Backend := "";
              rl_Default := {| RequestsPerSecond := 0; RequestsPerMinute := 0;
                               BurstSize := 0; BlockDuration := 0 |};
              rl_PerTool := ∅; rl_TrustedProxies := [] |}); reflexivity.
Defined.

End ConfigDefaultsFacts.

(** ** The run command *)

Module RunCmdFacts.
Import Config GoStrings RunCmd.

Lemma printLine_writes (out : string -> Event) (text : string) :
  (forall t, writes (out t)) -> Forall writes (printLine out text).
Proof.
  intros Hout. unfold printLine.
  destruct (negb (String.eqb text "")); [|constructor].
  constructor; [apply Hout|]. destruct (negb _); [|constructor].
  constructor; [apply Hout|constructor].
Qed.

Lemma humanOutput_writes (result : Tool.ExecutionResult) :
  Forall writes (humanOutput result).
Proof.
  unfold humanOutput. repeat apply Forall_app_2.
  - by apply printLine_writes.
  - by apply printLine_writes.
  - apply Forall_forall. intros ev Hin. apply list_elem_of_fmap in Hin as (f & -> & _).
    exact I.
  - destruct (negb _); [|constructor]. constructor; [exact I|constructor].
Qed.

Lemma outputJSON_writes (e : Environment) (v : RunResult) :
  Forall writes (fst (outputJSON e v)).
Proof.
  unfold outputJSON. destruct (MarshalIndent e v); simpl; [constructor|].
  constructor; [exact I|constructor].
Qed.

Lemma not_written (l : list Event) (ev : Event) :
  Forall writes l -> ~ writes ev -> ev ∉ l.
Proof. intros Hall Hno Hin. rewrite Forall_forall in Hall. exact (Hno (Hall ev Hin)). Qed.

(** [runRun] either returns an error before it has a token, having run
    the deferred calls registered so far, or reaches the sandbox. *)
Lemma runRun_cases (f : Flags) (e : Environment) :
  (exists err, snd (runRun f e) = Return (Some err) /\
     forall ev, ev ∈ fst (runRun f e) ->
       ev = Cancel \/ ev = ProxyClientStop \/ ev = SandboxStop) \/
  (exists code env,
     (runFile f = "" /\ runCode f = code /\ code <> "" \/
      runCode f = "" /\ runFile f <> "" /\ ReadFile e (runFile f) = inr code) /\
     buildSandboxEnv e = inr env /\
     runRun f e =
       let executionID := uuid_New e in
       let req :=
         {| Tool.Code := code;
            Tool.Env := <["ETHPANDAOPS_PROXY_TOKEN" := RegisterToken e executionID]> env;
            Tool.req_Timeout := JWT.wrap64 (runTimeout f * Second);
            Tool.req_SessionID := runSessionID f; Tool.OwnerID := "" |} in
       let done := [TokenRegistered executionID; SandboxExecute req] in
       let deferred := [TokenRevoked executionID; SandboxStop; ProxyClientStop; Cancel] in
       match Execute e req with
       | inl err =>
           ((done ++ deferred)%list, Return (Some ("execution error: " +:+ err)))
       | inr result =>
           if runJSON f || negb (isTerminal e) then
             let out :=
               outputJSON e {| rr_Stdout := Tool.Stdout result;
                               rr_Stderr := Tool.Stderr result;
                               rr_ExitCode := Tool.ExitCode result;
                               rr_OutputFiles := Tool.OutputFiles result;
                               rr_SessionID := Tool.SessionID result;
                               rr_DurationSeconds := Tool.DurationSeconds result |} in
             ((done ++ fst out ++ deferred)%list, Return (snd out))
           else if negb (Tool.ExitCode result =? 0) then
             ((done ++ humanOutput result)%list, Exit (Tool.ExitCode result))
           else ((done ++ humanOutput result ++ deferred)%list, Return None)
       end).
Proof.
  unfold runRun.
  destruct (String.eqb_spec (runCode f) "") as [Hc|Hc];
    destruct (String.eqb_spec (runFile f) "") as [Hf|Hf]; simpl.
  - left. eexists. split; [reflexivity|]. intros ev Hin. by apply elem_of_nil in Hin.
  - destruct (ReadFile e (runFile f)) as [err|code] eqn:Hread.
    { left. eexists. split; [reflexivity|]. intros ev Hin. by apply elem_of_nil in Hin. }
    destruct (loadConfigOrDefaults e);
      [left; eexists; split; [reflexivity|]; intros ev Hin;
       repeat (apply elem_of_cons in Hin as [->|Hin]; [tauto|]);
       by apply elem_of_nil in Hin|].
    destruct (buildProxyClient e);
      [left; eexists; split; [reflexivity|]; intros ev Hin;
       repeat (apply elem_of_cons in Hin as [->|Hin]; [tauto|]);
       by apply elem_of_nil in Hin|].
    destruct (buildPluginRegistry e);
      [left; eexists; split; [reflexivity|]; intros ev Hin;
       repeat (apply elem_of_cons in Hin as [->|Hin]; [tauto|]);
       by apply elem_of_nil in Hin|].
    destruct (buildSandboxService e);
      [left; eexists; split; [reflexivity|]; intros ev Hin;
       repeat (apply elem_of_cons in Hin as [->|Hin]; [tauto|]);
       by apply elem_of_nil in Hin|].
    destruct (buildSandboxEnv e) as [err|env];
      [left; eexists; split; [reflexivity|]; intros ev Hin;
       repeat (apply elem_of_cons in Hin as [->|Hin]; [tauto|]);
       by apply elem_of_nil in Hin|].
    right. exists code, env. split; [right; by repeat split|]. split; [reflexivity|].
    cbv zeta. destruct (Execute e _) as [err|result]; [reflexivity|].
    destruct (runJSON f || negb (isTerminal e)); [|reflexivity].
    by destruct (outputJSON e _).
  - destruct (loadConfigOrDefaults e);
      [left; eexists; split; [reflexivity|]; intros ev Hin;
       repeat (apply elem_of_cons in Hin as [->|Hin]; [tauto|]);
       by apply elem_of_nil in Hin|].
    destruct (buildProxyClient e);
      [left; eexists; split; [reflexivity|]; intros ev Hin;
       repeat (apply elem_of_cons in Hin as [->|Hin]; [tauto|]);
       by apply elem_of_nil in Hin|].
    destruct (buildPluginRegistry e);
      [left; eexists; split; [reflexivity|]; intros ev Hin;
       repeat (apply elem_of_cons in Hin as [->|Hin]; [tauto|]);
       by apply elem_of_nil in Hin|].
    destruct (buildSandboxService e);
      [left; eexists; split; [reflexivity|]; intros ev Hin;
       repeat (apply elem_of_cons in Hin as [->|Hin]; [tauto|]);
       by apply elem_of_nil in Hin|].
    destruct (buildSandboxEnv e) as [err|env];
      [left; eexists; split; [reflexivity|]; intros ev Hin;
       repeat (apply elem_of_cons in Hin as [->|Hin]; [tauto|]);
       by apply elem_of_nil in Hin|].
    right. exists (runCode f), env. split; [left; by repeat split|].
    split; [reflexivity|].
    cbv zeta. destruct (Execute e _) as [err|result]; [reflexivity|].
    destruct (runJSON f || negb (isTerminal e)); [|reflexivity].
    by destruct (outputJSON e _).
  - left. eexists. split; [reflexivity|]. intros ev Hin. by apply elem_of_nil in Hin.
Qed.

Ltac in_list H :=
  repeat first [ apply elem_of_app in H as [H|H]
               | apply elem_of_cons in H as [H|H]
               | apply elem_of_nil in H; contradiction ].

Ltac unwritten Hw H :=
  exfalso; refine (not_written _ _ Hw _ H); intros Hx; exact Hx.

(** X27. Every run that registers a proxy token hands it to the sandbox
    under [ETHPANDAOPS_PROXY_TOKEN], and revokes it exactly when [runRun]
    returns.  When the command leaves through [os.Exit] the deferred calls
    do not run: the token is not revoked, and neither the sandbox nor the
    proxy client is stopped. *)
Theorem token_is_revoked_unless_exit (f : Flags) (e : Environment) :
  let trace := fst (runRun f e) in
  let ending := snd (runRun f e) in
  (forall id, TokenRegistered id ∈ trace ->
     id = uuid_New e /\
     (exists req, SandboxExecute req ∈ trace /\
        Tool.Env req !! "ETHPANDAOPS_PROXY_TOKEN" = Some (RegisterToken e id)) /\
     (TokenRevoked id ∈ trace <-> exists err, ending = Return err)) /\
  (forall id, TokenRevoked id ∈ trace -> TokenRegistered id ∈ trace) /\
  (forall code, ending = Exit code ->
     TokenRegistered (uuid_New e) ∈ trace /\
     (TokenRevoked (uuid_New e) ∉ trace) /\
     (SandboxStop ∉ trace) /\ (ProxyClientStop ∉ trace) /\ (Cancel ∉ trace)).
Proof.
  intros trace ending. subst trace ending.
  destruct (runRun_cases f e) as [(err & Hend & Honly)|(code & env & _ & _ & Hrun)].
  - split; [|split].
    + intros id Hin. destruct (Honly _ Hin) as [?|[?|?]]; discriminate.
    + intros id Hin. destruct (Honly _ Hin) as [?|[?|?]]; discriminate.
    + intros c Hc. congruence.
  - rewrite Hrun. clear Hrun. cbv zeta.
    set (req := {| Tool.Code := code; Tool.Env := _; Tool.req_Timeout := _;
                   Tool.req_SessionID := _; Tool.OwnerID := _ |}).
    assert (Tool.Env req !! "ETHPANDAOPS_PROXY_TOKEN"
            = Some (RegisterToken e (uuid_New e))) as Henv
      by apply lookup_insert_eq.
    destruct (Execute e req) as [err|result].
    { simpl. split; [|split].
      - intros id Hin. in_list Hin; try discriminate. injection Hin as ->.
        split; [reflexivity|]. split.
        + exists req. split; [|exact Henv]. apply elem_of_cons. right.
          apply elem_of_cons. by left.
        + split; [eauto|]. intros _. do 2 (apply elem_of_cons; right).
          apply elem_of_cons. by left.
      - intros id Hin. in_list Hin; try discriminate. injection Hin as ->.
        apply elem_of_cons. by left.
      - intros c Hc. discriminate. }
    destruct (runJSON f || negb (isTerminal e)).
    { simpl. pose proof (outputJSON_writes e
        {| rr_Stdout := Tool.Stdout result; rr_Stderr := Tool.Stderr result;
           rr_ExitCode := Tool.ExitCode result;
           rr_OutputFiles := Tool.OutputFiles result;
           rr_SessionID := Tool.SessionID result;
           rr_DurationSeconds := Tool.DurationSeconds result |}) as Hw.
      destruct (outputJSON e _) as [printed err]. simpl in Hw |- *.
      split; [|split].
      - intros id Hin. in_list Hin; try discriminate.
        + injection Hin as ->. split; [reflexivity|]. split.
          * exists req. split; [|exact Henv]. apply elem_of_cons. right.
            apply elem_of_cons. by left.
          * split; [eauto|]. intros _. do 2 (apply elem_of_cons; right).
            apply elem_of_app. right. apply elem_of_cons. by left.
        + unwritten Hw Hin.
      - intros id Hin. in_list Hin; try discriminate.
        + unwritten Hw Hin.
        + injection Hin as ->. apply elem_of_cons. by left.
      - intros c Hc. discriminate. }
    pose proof (humanOutput_writes result) as Hw.
    remember (humanOutput result) as human eqn:Hhuman. clear Hhuman.
    destruct (negb (Tool.ExitCode result =? 0)).
    { simpl. split; [|split].
      - intros id Hin. in_list Hin; try discriminate.
        + injection Hin as ->. split; [reflexivity|]. split.
          * exists req. split; [|exact Henv]. apply elem_of_cons. right.
            apply elem_of_cons. by left.
          * split; [|intros [? ?]; discriminate].
            intros Hrev. in_list Hrev; try discriminate.
            unwritten Hw Hrev.
        + unwritten Hw Hin.
      - intros id Hin. in_list Hin; try discriminate.
        unwritten Hw Hin.
      - intros c _. split; [apply elem_of_cons; by left|].
        repeat split; intros Hin; in_list Hin; try discriminate;
          unwritten Hw Hin. }
    simpl. split; [|split].
    + intros id Hin. in_list Hin; try discriminate.
      * injection Hin as ->. split; [reflexivity|]. split.
        -- exists req. split; [|exact Henv]. apply elem_of_cons. right.
           apply elem_of_cons. by left.
        -- split; [eauto|]. intros _. do 2 (apply elem_of_cons; right).
           apply elem_of_app. right. apply elem_of_cons. by left.
      * unwritten Hw Hin.
    + intros id Hin. in_list Hin; try discriminate.
      * unwritten Hw Hin.
      * injection Hin as ->. apply elem_of_cons. by left.
    + intros c Hc. discriminate.
Qed.

Lemma token_is_revoked_unless_exit_witness :
  TokenRegistered "8c1f"
    ∈ fst (runRun MoreScenarios.run_flags (MoreScenarios.run_world true)) /\
  (TokenRevoked "8c1f"
     ∉ fst (runRun MoreScenarios.run_flags (MoreScenarios.run_world true))) /\
  (SandboxStop ∉ fst (runRun MoreScenarios.run_flags (MoreScenarios.run_world true))).
Proof.
  destruct (token_is_revoked_unless_exit MoreScenarios.run_flags
              (MoreScenarios.run_world true)) as (_ & _ & H).
  destruct (H 3) as (H1 & H2 & H3 & _); [reflexivity|].
  split; [exact H1|]. split; [exact H2 | exact H3].
Defined.

(** The one request a run hands to the sandbox. *)
Lemma runRun_request (f : Flags) (e : Environment) (req : Tool.ExecuteRequest) :
  SandboxExecute req ∈ fst (runRun f e) ->
  exists code env,
    (runFile f = "" /\ runCode f = code /\ code <> "" \/
     runCode f = "" /\ runFile f <> "" /\ ReadFile e (runFile f) = inr code) /\
    req = {| Tool.Code := code;
             Tool.Env := <["ETHPANDAOPS_PROXY_TOKEN" := RegisterToken e (uuid_New e)]> env;
             Tool.req_Timeout := JWT.wrap64 (runTimeout f * Second);
             Tool.req_SessionID := runSessionID f; Tool.OwnerID := "" |} /\
    snd (runRun f e) =
      match Execute e req with
      | inl err => Return (Some ("execution error: " +:+ err))
      | inr result =>
          if runJSON f || negb (isTerminal e) then
            Return (snd (outputJSON e
                           {| rr_Stdout := Tool.Stdout result;
                              rr_Stderr := Tool.Stderr result;
                              rr_ExitCode := Tool.ExitCode result;
                              rr_OutputFiles := Tool.OutputFiles result;
                              rr_SessionID := Tool.SessionID result;
                              rr_DurationSeconds := Tool.DurationSeconds result |}))
          else if negb (Tool.ExitCode result =? 0) then Exit (Tool.ExitCode result)
          else Return None
      end.
Proof.
  intros Hin.
  destruct (runRun_cases f e) as [(err & _ & Honly)|(code & env & Hsrc & _ & Hrun)].
  { destruct (Honly _ Hin) as [?|[?|?]]; discriminate. }
  exists code, env. split; [exact Hsrc|].
  rewrite Hrun in Hin |- *. clear Hrun. cbv zeta in Hin |- *.
  set (built := {| Tool.Code := code; Tool.Env := _; Tool.req_Timeout := _;
                   Tool.req_SessionID := _; Tool.OwnerID := _ |}) in *.
  assert (req = built) as ->.
  { destruct (Execute e built) as [err|result].
    { simpl in Hin. in_list Hin; try discriminate. by injection Hin. }
    destruct (runJSON f || negb (isTerminal e)).
    { pose proof (outputJSON_writes e
        {| rr_Stdout := Tool.Stdout result; rr_Stderr := Tool.Stderr result;
           rr_ExitCode := Tool.ExitCode result;
           rr_OutputFiles := Tool.OutputFiles result;
           rr_SessionID := Tool.SessionID result;
           rr_DurationSeconds := Tool.DurationSeconds result |}) as Hw.
      destruct (outputJSON e _) as [printed err]. simpl in Hw, Hin.
      in_list Hin; try discriminate; [by injection Hin | unwritten Hw Hin]. }
    pose proof (humanOutput_writes result) as Hw.
    remember (humanOutput result) as human eqn:Hhuman. clear Hhuman.
    destruct (negb (Tool.ExitCode result =? 0)); simpl in Hin;
      in_list Hin; try discriminate; try (by injection Hin); unwritten Hw Hin. }
  split; [reflexivity|].
  destruct (Execute e built) as [err|result]; [reflexivity|].
  destruct (runJSON f || negb (isTerminal e)); [reflexivity|].
  by destruct (negb (Tool.ExitCode result =? 0)).
Qed.

(** X28. The exit status of the program reaches the shell only on a
    terminal without [--json]: there a non-zero status ends the command
    through [os.Exit] with that status.  With [--json], or when standard
    output is not a terminal, the command never calls [os.Exit], and
    returns nil once the result is printed, whatever the status of the
    program. *)
Theorem exit_status_only_on_a_terminal (f : Flags) (e : Environment)
    (req : Tool.ExecuteRequest) (result : Tool.ExecutionResult) :
  SandboxExecute req ∈ fst (runRun f e) ->
  Execute e req = inr result ->
  let ending := snd (runRun f e) in
  (runJSON f = false -> isTerminal e = true ->
     ending = if Tool.ExitCode result =? 0 then Return None
              else Exit (Tool.ExitCode result)) /\
  (runJSON f = true \/ isTerminal e = false ->
     (forall code, ending <> Exit code) /\
     (forall data,
        MarshalIndent e {| rr_Stdout := Tool.Stdout result;
                           rr_Stderr := Tool.Stderr result;
                           rr_ExitCode := Tool.ExitCode result;
                           rr_OutputFiles := Tool.OutputFiles result;
                           rr_SessionID := Tool.SessionID result;
                           rr_DurationSeconds := Tool.DurationSeconds result |}
          = inr data ->
        ending = Return None)).
Proof.
  intros Hin Hexec ending. subst ending.
  destruct (runRun_request f e req Hin) as (code & env & _ & _ & ->).
  rewrite Hexec. split.
  - intros -> ->. simpl. by destruct (Tool.ExitCode result =? 0).
  - intros Hjson.
    assert (runJSON f || negb (isTerminal e) = true) as ->
      by (destruct Hjson as [-> | ->]; [reflexivity | apply orb_true_r]).
    split; [discriminate|].
    intros data Hdata. unfold outputJSON. by rewrite Hdata.
Qed.

Lemma exit_status_only_on_a_terminal_witness :
  snd (runRun MoreScenarios.run_flags (MoreScenarios.run_world true)) = Exit 3 /\
  snd (runRun MoreScenarios.run_flags (MoreScenarios.run_world false)) = Return None.
Proof.
  assert (exists req,
            SandboxExecute req
              ∈ fst (runRun MoreScenarios.run_flags (MoreScenarios.run_world true)) /\
            SandboxExecute req
              ∈ fst (runRun MoreScenarios.run_flags (MoreScenarios.run_world false)))
    as (req & Hin1 & Hin2).
  { eexists. split; (apply elem_of_cons; right; apply elem_of_cons; left; reflexivity). }
  split.
  - apply (exit_status_only_on_a_terminal MoreScenarios.run_flags
             (MoreScenarios.run_world true) req _ Hin1 eq_refl); reflexivity.
  - apply (exit_status_only_on_a_terminal MoreScenarios.run_flags
             (MoreScenarios.run_world false) req _ Hin2 eq_refl) with (data := "{}");
      [right; reflexivity | reflexivity].
Defined.

(** X29. The command runs nothing unless exactly one of [--code] and
    [--file] is given.  The program handed to the sandbox is the text of
    [--code], or else the content of the file, empty or not, and it has no
    owner.  Its timeout is the [--timeout] flag times one second in
    [int64] arithmetic; the flag is not checked against any bound, so the
    timeout is the number of seconds asked for when the flag is at most
    9223372036 in absolute value, and the wrapped product beyond that. *)
Theorem code_comes_from_one_source (f : Flags) (e : Environment) :
  ((runCode f = "" <-> runFile f = "") ->
     fst (runRun f e) = [] /\ exists err, snd (runRun f e) = Return (Some err)) /\
  (forall req, SandboxExecute req ∈ fst (runRun f e) ->
     (runFile f = "" /\ runCode f <> "" /\ Tool.Code req = runCode f \/
      runCode f = "" /\ runFile f <> "" /\
      ReadFile e (runFile f) = inr (Tool.Code req)) /\
     Tool.req_Timeout req = JWT.wrap64 (runTimeout f * Second) /\
     (- 9223372036 <= runTimeout f <= 9223372036 ->
        Tool.req_Timeout req = runTimeout f * Second) /\
     Tool.req_SessionID req = runSessionID f /\
     Tool.OwnerID req = "").
Proof.
  split.
  - intros Hboth. unfold runRun.
    destruct (String.eqb_spec (runCode f) "") as [Hc|Hc];
      destruct (String.eqb_spec (runFile f) "") as [Hf|Hf]; simpl;
      try (split; [reflexivity|eauto]); tauto.
  - intros req Hin.
    destruct (runRun_request f e req Hin) as (code & env & Hsrc & -> & _). simpl.
    split; [|split; [reflexivity|split; [|by split]]].
    + destruct Hsrc as [(Hf & <- & Hne)|(Hc & Hf & Hread)]; [left|right];
        by repeat split.
    + intros Hrange. unfold JWT.wrap64, Second.
      rewrite Z.mod_small by lia. lia.
Qed.

Lemma code_comes_from_one_source_witness :
  fst (runRun {| runCode := "print(1)"; runFile := "query.py"; runSessionID := "";
                 runTimeout := 60; runJSON := false |}
              (MoreScenarios.run_world true)) = [] /\
  exists req,
    SandboxExecute req
      ∈ fst (runRun MoreScenarios.run_flags (MoreScenarios.run_world true)) /\
    Tool.req_Timeout req = 60 * Second.
Proof.
  split.
  - apply (code_comes_from_one_source
             {| runCode := "print(1)"; runFile := "query.py"; runSessionID := "";
                runTimeout := 60; runJSON := false |}
             (MoreScenarios.run_world true)).
    simpl. split; discriminate.
  - eexists. split.
    + apply elem_of_cons. right. apply elem_of_cons. left. reflexivity.
    + refine (proj1 (proj2 (proj2 (proj2 (code_comes_from_one_source
                MoreScenarios.run_flags (MoreScenarios.run_world true)) _ _))) _).
      * apply elem_of_cons. right. apply elem_of_cons. left. reflexivity.
      * vm_compute. split; discriminate.
Defined.

End RunCmdFacts.
